(** * A contact book with birthday reminders: model of [main.py]

    The development embeds the data model of the assistant bot — the
    [Field] classes with their validators, the [Record] class and the
    [AddressBook] — together with the parts of the Python runtime they call
    ([str.isdigit], [datetime.strptime], [datetime.date]), and then checks
    the documented behaviour against that model.

    Conventions.
    - A Python [str] is a Rocq [string]; each character stands for the code
      point of the same number, so the strings covered are those over
      U+0000 .. U+00FF.  The check of a birthday, where the characters
      beyond them matter, is modelled a second time on texts of any code
      points, in the module [Wide]; on a string the two agree
      ([strptime_of_string], [validate_of_string]).
    - A Python [int] is a [Z].
    - An exception is a value of [exn]; a computation that may raise returns
      a [result].  The texts of the exceptions raised by the program are
      those of the source; the texts of library exceptions are shortened.
    - A method that mutates [self] is a function from the state of [self] to
      an outcome and the state left behind, see [method].
    - [datetime.now().date()] is an argument, [today], of the birthday
      query.
    - The class [Record] is the module [ContactRecord]. *)

From Stdlib Require Import ZArith List String Ascii Bool Lia.
Import ListNotations.

Local Open Scope string_scope.
Local Open Scope Z_scope.

(** ** Exceptions and outcomes *)

Inductive exn : Type :=
| ValueError (msg : string)
| OverflowError (msg : string).

Inductive result (A : Type) : Type :=
| Ok (a : A)
| Raise (e : exn).

Arguments Ok {A} a.
Arguments Raise {A} e.

Definition bindR {A B : Type} (c : result A) (k : A -> result B) : result B :=
  match c with
  | Ok a => k a
  | Raise e => Raise e
  end.

Notation "x <-? c ;; k" := (bindR c (fun x => k))
  (at level 61, c at next level, right associativity).

(** A method body runs against the object it was called on.  What it did to
    the object before raising stays done, as in Python. *)
Definition method (S A : Type) : Type := S -> result A * S.

Definition ret {S A : Type} (a : A) : method S A := fun s => (Ok a, s).

Definition raise {S A : Type} (e : exn) : method S A := fun s => (Raise e, s).

Definition bind {S A B : Type} (c : method S A) (k : A -> method S B)
  : method S B :=
  fun s =>
    match c s with
    | (Ok a, s') => k a s'
    | (Raise e, s') => (Raise e, s')
    end.

Definition get {S : Type} : method S S := fun s => (Ok s, s).

Definition put {S : Type} (s' : S) : method S unit := fun _ => (Ok tt, s').

(** Evaluate an expression that may raise inside a method body. *)
Definition eval {S A : Type} (c : result A) : method S A := fun s => (c, s).

Notation "x <- c ;; k" := (bind c (fun x => k))
  (at level 61, c at next level, right associativity).
Notation "c ;;; k" := (bind c (fun _ => k))
  (at level 61, right associativity).

(** ** Built-ins of [str] *)

Module PyStr.

Definition ord (c : ascii) : Z := Z.of_N (N_of_ascii c).

(** [len(s)] *)
Definition len (s : string) : Z := Z.of_nat (String.length s).

(** The decimal digits ['0'] .. ['9']. *)
Definition is_decimal (c : ascii) : bool :=
  (48 <=? ord c) && (ord c <=? 57).

(** A character is a digit for [str.isdigit] when Unicode gives it the
    numeric type Decimal or Digit.  Below U+0100 these are the ten decimal
    digits and the superscripts U+00B2, U+00B3 and U+00B9. *)
Definition isdigit_char (c : ascii) : bool :=
  is_decimal c || (ord c =? 178) || (ord c =? 179) || (ord c =? 185).

(** [s.isdigit()]: every character is a digit and there is at least one. *)
Definition isdigit (s : string) : bool :=
  match s with
  | EmptyString => false
  | _ => forallb isdigit_char (list_ascii_of_string s)
  end.

(** Value of a decimal digit. *)
Definition digit_value (c : ascii) : Z := ord c - 48.

(** [' '.join(...)]-style joining with a separator. *)
Fixpoint join (sep : string) (l : list string) : string :=
  match l with
  | [] => ""
  | [x] => x
  | x :: rest => x ++ sep ++ join sep rest
  end.

End PyStr.

(** ** The [Field] classes *)

(** [class Field]: an object with one attribute, [value]. *)
Record Field : Type := mkField { value : string }.

Module FieldM.

(** [Field.__init__] *)
Definition init (v : string) : result Field := Ok (mkField v).

(** [Field.__str__] *)
Definition str (self : Field) : string := value self.

End FieldM.

Module Phone.

Definition invalid_phone : exn :=
  ValueError "Invalid phone number format. Should start from 0 and be 10 digits".

(** [Phone.validate] *)
Definition validate (v : string) : bool :=
  (PyStr.len v =? 10) && PyStr.isdigit v.

(** [Phone.__init__] *)
Definition init (v : string) : result Field :=
  if negb (validate v) then Raise invalid_phone else FieldM.init v.

End Phone.

(** ** [datetime.date]

    The functions below follow the reference implementation of the
    [datetime] module.  Its [assert] statements are left out: they state
    facts about the arguments and do not change a result. *)

Module Calendar.

Definition MINYEAR : Z := 1.
Definition MAXYEAR : Z := 9999.
Definition _MAXORDINAL : Z := 3652059.

(** [l[i]] for an index the callers keep inside the list. *)
Definition item (l : list Z) (i : Z) : Z := nth (Z.to_nat i) l 0.

(** An [int] made from a [bool], as in [n + (month > 2 and leap)]. *)
Definition b2z (b : bool) : Z := if b then 1 else 0.

Definition _DAYS_IN_MONTH : list Z :=
  [-1; 31; 28; 31; 30; 31; 30; 31; 31; 30; 31; 30; 31].

(** Built by the module's start-up loop over [_DAYS_IN_MONTH[1:]]. *)
Definition _DAYS_BEFORE_MONTH : list Z :=
  fst (fold_left
         (fun st dim => ((fst st ++ [snd st])%list, snd st + dim))
         (tl _DAYS_IN_MONTH) ([-1], 0)).

Definition _is_leap (year : Z) : bool :=
  (year mod 4 =? 0) && (negb (year mod 100 =? 0) || (year mod 400 =? 0)).

Definition _days_before_year (year : Z) : Z :=
  let y := year - 1 in
  y * 365 + y / 4 - y / 100 + y / 400.

Definition _days_in_month (year month : Z) : Z :=
  if (month =? 2) && _is_leap year then 29 else item _DAYS_IN_MONTH month.

Definition _days_before_month (year month : Z) : Z :=
  item _DAYS_BEFORE_MONTH month + b2z ((2 <? month) && _is_leap year).

Definition _ymd2ord (year month day : Z) : Z :=
  _days_before_year year + _days_before_month year month + day.

Definition _DI400Y : Z := _days_before_year 401.
Definition _DI100Y : Z := _days_before_year 101.
Definition _DI4Y : Z := _days_before_year 5.

(** The tail of [_ord2ymd]: from the offset [n] since 1 January and the
    leap flag of the year to the month and the day. *)
Definition month_and_day (leapyear : bool) (n : Z) : Z * Z :=
  let month := Z.shiftr (n + 50) 5 in
  let preceding := item _DAYS_BEFORE_MONTH month + b2z ((2 <? month) && leapyear) in
  if n <? preceding then
    let month' := month - 1 in
    let preceding' :=
      preceding - (item _DAYS_IN_MONTH month' + b2z ((month' =? 2) && leapyear)) in
    (month', n - preceding' + 1)
  else (month, n - preceding + 1).

Definition _ord2ymd (n : Z) : Z * Z * Z :=
  let n := n - 1 in
  let n400 := n / _DI400Y in
  let n := n mod _DI400Y in
  let year := n400 * 400 + 1 in
  let n100 := n / _DI100Y in
  let n := n mod _DI100Y in
  let n4 := n / _DI4Y in
  let n := n mod _DI4Y in
  let n1 := n / 365 in
  let n := n mod 365 in
  let year := year + (n100 * 100 + n4 * 4 + n1) in
  if (n1 =? 4) || (n100 =? 4) then (year - 1, 12, 31)
  else
    let leapyear := (n1 =? 3) && (negb (n4 =? 24) || (n100 =? 3)) in
    let md := month_and_day leapyear n in
    (year, fst md, snd md).

(** The character of a decimal digit. *)
Definition digit_char (v : Z) : ascii := ascii_of_N (Z.to_N (48 + v)).

(** Decimal text of [n] in exactly [width] digits, zero filled. *)
Fixpoint zfill (width : nat) (n : Z) : string :=
  match width with
  | O => ""
  | S w => zfill w (n / 10) ++ String (digit_char (n mod 10)) ""
  end.

Record date : Type := mkdate { year : Z; month : Z; day : Z }.

(** [_check_date_fields] followed by the construction of the object. *)
Definition date_new (y m d : Z) : result date :=
  if negb ((MINYEAR <=? y) && (y <=? MAXYEAR)) then
    Raise (ValueError "year is out of range")
  else if negb ((1 <=? m) && (m <=? 12)) then
    Raise (ValueError "month must be in 1..12")
  else
    let dim := _days_in_month y m in
    if negb ((1 <=? d) && (d <=? dim)) then
      Raise (ValueError "day is out of range for month")
    else Ok (mkdate y m d).

(** [date.replace(year=y)] *)
Definition replace_year (self : date) (y : Z) : result date :=
  date_new y (month self) (day self).

Definition toordinal (self : date) : Z :=
  _ymd2ord (year self) (month self) (day self).

Definition fromordinal (n : Z) : result date :=
  let ymd := _ord2ymd n in
  date_new (fst (fst ymd)) (snd (fst ymd)) (snd ymd).

(** [_cmp] on the tuples [(year, month, day)]. *)
Definition _cmp (self other : date) : comparison :=
  match year self ?= year other with
  | Eq =>
      match month self ?= month other with
      | Eq => day self ?= day other
      | c => c
      end
  | c => c
  end.

(** [self < other] *)
Definition lt (self other : date) : bool :=
  match _cmp self other with Lt => true | _ => false end.

(** [self + timedelta(days=days)] *)
Definition add_days (self : date) (days : Z) : result date :=
  let o := toordinal self + days in
  if (0 <? o) && (o <=? _MAXORDINAL) then fromordinal o
  else Raise (OverflowError "result out of range").

(** [(self - other).days] *)
Definition sub_days (self other : date) : Z :=
  toordinal self - toordinal other.

Definition weekday (self : date) : Z := (toordinal self + 6) mod 7.

(** [self.strftime("%Y.%m.%d")], the year written with four digits as
    the library documents it (a C library may drop the leading zeros of a
    year before 1000). *)
Definition strftime_Ymd (self : date) : string :=
  zfill 4 (year self) ++ "." ++ zfill 2 (month self) ++ "." ++ zfill 2 (day self).

(** The dates the constructor lets through. *)
Definition valid (d : date) : Prop :=
  MINYEAR <= year d <= MAXYEAR /\ 1 <= month d <= 12 /\
  1 <= day d <= _days_in_month (year d) (month d).

(** The check made of one entry of the month table: the month and day
    found for offset [k] are in range and lead back to [k]. *)
Definition month_and_day_ok (leap : bool) (k : Z) : bool :=
  let md := month_and_day leap k in
  let m := fst md in
  let d := snd md in
  (1 <=? m) && (m <=? 12) && (1 <=? d)
  && (d <=? (if (m =? 2) && leap then 29 else item _DAYS_IN_MONTH m))
  && (item _DAYS_BEFORE_MONTH m + b2z ((2 <? m) && leap) + d =? k + 1).

End Calendar.

(** ** [datetime.strptime(s, "%d.%m.%Y")]

    [_strptime] turns the format into a regular expression, matches it at
    the start of the text, refuses text that is left over, converts the
    groups with [int] and builds the date.

    This module is [strptime] on the strings of the model, whose characters
    are below U+0100: among them the decimal digits, for [\d] and for
    [int], are ['0'] to ['9'].  The module [Wide] below is [strptime] on
    texts of any characters, where [\d] and [int] take the decimal digits
    of every script. *)

Module Strptime.

Inductive regex : Type :=
| Lit (c : ascii)            (* one given character *)
| Range (lo hi : ascii)      (* [lo-hi] *)
| Digit                      (* \d *)
| Seq (r1 r2 : regex)
| Alt (r1 r2 : regex).       (* r1|r2, r1 tried first *)

Definition in_range (lo hi c : ascii) : bool :=
  (PyStr.ord lo <=? PyStr.ord c) && (PyStr.ord c <=? PyStr.ord hi).

Definition one (p : ascii -> bool) {A : Type} (s : string)
           (k : string -> string -> option A) : option A :=
  match s with
  | String c s' => if p c then k (String c "") s' else None
  | EmptyString => None
  end.

(** Backtracking match of [r] at the start of [s]; [k] receives the text
    matched and the text that follows, and the first way of matching that
    [k] accepts wins. *)
Fixpoint rmatch {A : Type} (r : regex) (s : string)
         (k : string -> string -> option A) : option A :=
  match r with
  | Lit c => one (Ascii.eqb c) s k
  | Range lo hi => one (in_range lo hi) s k
  | Digit => one PyStr.is_decimal s k
  | Seq r1 r2 =>
      rmatch r1 s (fun m1 s1 => rmatch r2 s1 (fun m2 s2 => k (m1 ++ m2) s2))
  | Alt r1 r2 =>
      match rmatch r1 s k with
      | Some a => Some a
      | None => rmatch r2 s k
      end
  end.

(** The texts a regular expression matches, whatever comes after. *)
Inductive matches : regex -> string -> Prop :=
| matches_Lit c : matches (Lit c) (String c "")
| matches_Range lo hi c :
    in_range lo hi c = true -> matches (Range lo hi) (String c "")
| matches_Digit c :
    PyStr.is_decimal c = true -> matches Digit (String c "")
| matches_Seq r1 r2 m1 m2 :
    matches r1 m1 -> matches r2 m2 -> matches (Seq r1 r2) (m1 ++ m2)
| matches_Alt_l r1 r2 m : matches r1 m -> matches (Alt r1 r2) m
| matches_Alt_r r1 r2 m : matches r2 m -> matches (Alt r1 r2) m.

(** [3[0-1]|[1-2]\d|0[1-9]|[1-9]| [1-9]] *)
Definition re_d : regex :=
  Alt (Seq (Lit "3") (Range "0" "1"))
 (Alt (Seq (Range "1" "2") Digit)
 (Alt (Seq (Lit "0") (Range "1" "9"))
 (Alt (Range "1" "9")
      (Seq (Lit " ") (Range "1" "9"))))).

(** [1[0-2]|0[1-9]|[1-9]] *)
Definition re_m : regex :=
  Alt (Seq (Lit "1") (Range "0" "2"))
 (Alt (Seq (Lit "0") (Range "1" "9"))
      (Range "1" "9")).

(** [\d\d\d\d] *)
Definition re_Y : regex := Seq Digit (Seq Digit (Seq Digit Digit)).

(** The groups [d], [m] and [Y] and the text after the match. *)
Definition found (s : string) : option (string * string * string * string) :=
  rmatch re_d s (fun d s1 =>
  rmatch (Lit ".") s1 (fun _ s2 =>
  rmatch re_m s2 (fun m s3 =>
  rmatch (Lit ".") s3 (fun _ s4 =>
  rmatch re_Y s4 (fun y rest => Some (d, m, y, rest)))))).

Definition is_space (c : ascii) : bool :=
  let n := PyStr.ord c in
  (n =? 32) || ((9 <=? n) && (n <=? 13)) || ((28 <=? n) && (n <=? 31))
  || (n =? 133) || (n =? 160).

Fixpoint lstrip (s : string) : string :=
  match s with
  | String c s' => if is_space c then lstrip s' else s
  | EmptyString => ""
  end.

Fixpoint digits_value (acc : Z) (s : string) : option Z :=
  match s with
  | EmptyString => Some acc
  | String c s' =>
      if PyStr.is_decimal c then digits_value (acc * 10 + PyStr.digit_value c) s'
      else None
  end.

(** [int(s)] for text made of decimal digits after optional blanks, which
    is all a group of the format can hold. *)
Definition int (s : string) : result Z :=
  match lstrip s with
  | EmptyString => Raise (ValueError "invalid literal for int() with base 10")
  | t =>
      match digits_value 0 t with
      | Some n => Ok n
      | None => Raise (ValueError "invalid literal for int() with base 10")
      end
  end.

Definition strptime (data_string : string) : result Calendar.date :=
  match found data_string with
  | None => Raise (ValueError "time data does not match format '%d.%m.%Y'")
  | Some (d, m, y, rest) =>
      if negb (String.eqb rest "") then
        Raise (ValueError ("unconverted data remains: " ++ rest))
      else
        year <-? int y ;;
        month <-? int m ;;
        day <-? int d ;;
        Calendar.date_new year month day
  end.

End Strptime.

Module Birthday.

Definition invalid_date : exn :=
  ValueError "Invalid date format. Use DD.MM.YYYY".

(** [Birthday.validate]: only [ValueError] is caught. *)
Definition validate (v : string) : result bool :=
  match Strptime.strptime v with
  | Ok _ => Ok true
  | Raise (ValueError _) => Ok false
  | Raise e => Raise e
  end.

(** [Birthday.__init__] *)
Definition init (v : string) : result Field :=
  ok <-? validate v ;;
  if negb ok then Raise invalid_date else FieldM.init v.

End Birthday.

(** ** [strptime] on texts of any characters

    Above, a text is made of characters below U+0100.  Here it is a list of
    code points, so that the regular expression and [int] meet the decimal
    digits of every script, as they do in the program: [Birthday] takes
    ['01.06.' followed by U+0662 U+0660 U+0662 U+0660] for 1 June 2020.  What a code point
    below U+0100 is, the definitions say themselves; for the others two
    tables of the Unicode database are taken as given: the decimal value of
    a code point, if it is a decimal digit, and whether it is white space. *)

Module Wide.

Definition text : Type := list Z.

(** A text of the kind used above, as a list of code points. *)
Definition of_string (s : string) : text :=
  map PyStr.ord (list_ascii_of_string s).

(** A [Birthday] whose [value] is such a text. *)
Record field : Type := mkfield { value : text }.

(** The digit ['0' + v]. *)
Definition ascii_digit (c v : Z) : Prop := 0 <= v <= 9 /\ c = 48 + v.

Section Tables.

Variable decimal_above : Z -> option Z.
Variable space_above : Z -> bool.

(** The value of a decimal digit: below U+0100 only ['0'] to ['9'] are
    decimal digits. *)
Definition decimal (c : Z) : option Z :=
  if c <? 256 then
    if (48 <=? c) && (c <=? 57) then Some (c - 48) else None
  else decimal_above c.

Definition isdecimal (c : Z) : bool :=
  match decimal c with Some _ => true | None => false end.

(** White space: below U+0100 the characters [Strptime.is_space] names. *)
Definition isspace (c : Z) : bool :=
  if c <? 256 then
    (c =? 32) || ((9 <=? c) && (c <=? 13)) || ((28 <=? c) && (c <=? 31))
    || (c =? 133) || (c =? 160)
  else space_above c.

Definition one (p : Z -> bool) {A : Type} (s : text)
           (k : text -> text -> option A) : option A :=
  match s with
  | c :: s' => if p c then k [c] s' else None
  | [] => None
  end.

(** The matcher of [Strptime] on code points; [\d] takes every decimal
    digit. *)
Fixpoint rmatch {A : Type} (r : Strptime.regex) (s : text)
         (k : text -> text -> option A) : option A :=
  match r with
  | Strptime.Lit c => one (Z.eqb (PyStr.ord c)) s k
  | Strptime.Range lo hi =>
      one (fun c => (PyStr.ord lo <=? c) && (c <=? PyStr.ord hi)) s k
  | Strptime.Digit => one isdecimal s k
  | Strptime.Seq r1 r2 =>
      rmatch r1 s (fun m1 s1 => rmatch r2 s1 (fun m2 s2 => k (m1 ++ m2)%list s2))
  | Strptime.Alt r1 r2 =>
      match rmatch r1 s k with
      | Some a => Some a
      | None => rmatch r2 s k
      end
  end.

Inductive matches : Strptime.regex -> text -> Prop :=
| matches_Lit c : matches (Strptime.Lit c) [PyStr.ord c]
| matches_Range lo hi c :
    PyStr.ord lo <= c <= PyStr.ord hi -> matches (Strptime.Range lo hi) [c]
| matches_Digit c v : decimal c = Some v -> matches Strptime.Digit [c]
| matches_Seq r1 r2 m1 m2 :
    matches r1 m1 -> matches r2 m2 -> matches (Strptime.Seq r1 r2) (m1 ++ m2)%list
| matches_Alt_l r1 r2 m : matches r1 m -> matches (Strptime.Alt r1 r2) m
| matches_Alt_r r1 r2 m : matches r2 m -> matches (Strptime.Alt r1 r2) m.

Definition found (s : text) : option (text * text * text * text) :=
  rmatch Strptime.re_d s (fun d s1 =>
  rmatch (Strptime.Lit ".") s1 (fun _ s2 =>
  rmatch Strptime.re_m s2 (fun m s3 =>
  rmatch (Strptime.Lit ".") s3 (fun _ s4 =>
  rmatch Strptime.re_Y s4 (fun y rest => Some (d, m, y, rest)))))).

Fixpoint lstrip (s : text) : text :=
  match s with
  | c :: s' => if isspace c then lstrip s' else s
  | [] => []
  end.

Fixpoint digits_value (acc : Z) (s : text) : option Z :=
  match s with
  | [] => Some acc
  | c :: s' =>
      match decimal c with
      | Some v => digits_value (acc * 10 + v) s'
      | None => None
      end
  end.

(** [int(s)] for decimal digits after optional blanks, as above. *)
Definition int (s : text) : result Z :=
  match lstrip s with
  | [] => Raise (ValueError "invalid literal for int() with base 10")
  | t =>
      match digits_value 0 t with
      | Some n => Ok n
      | None => Raise (ValueError "invalid literal for int() with base 10")
      end
  end.

Definition strptime (data_string : text) : result Calendar.date :=
  match found data_string with
  | None => Raise (ValueError "time data does not match format '%d.%m.%Y'")
  | Some (d, m, y, rest) =>
      match rest with
      | _ :: _ => Raise (ValueError "unconverted data remains")
      | [] =>
          year <-? int y ;;
          month <-? int m ;;
          day <-? int d ;;
          Calendar.date_new year month day
      end
  end.

(** [Birthday.validate] *)
Definition validate (v : text) : result bool :=
  match strptime v with
  | Ok _ => Ok true
  | Raise (ValueError _) => Ok false
  | Raise e => Raise e
  end.

(** [Birthday.__init__] *)
Definition init (v : text) : result field :=
  ok <-? validate v ;;
  if negb ok then Raise Birthday.invalid_date else Ok (mkfield v).

(** A character that is the decimal digit of value [v]. *)
Definition digit (c v : Z) : Prop := decimal c = Some v.

(** A day: the tens in ['0'] to ['3'] and the units, the units any decimal
    digit when the day is from 10 to 29 and one of ['0'] to ['9']
    otherwise; or, for 1 to 9, one of ['1'] to ['9'] alone or after a
    blank. *)
Definition day_text (t : text) (d : Z) : Prop :=
  1 <= d <= 31 /\
  ((exists c1 c2,
       t = [c1; c2] /\ ascii_digit c1 (d / 10) /\
       ((10 <= d <= 29 /\ digit c2 (d mod 10)) \/ ascii_digit c2 (d mod 10))) \/
   (d <= 9 /\ (t = [48 + d] \/ t = [32; 48 + d]))).

(** A month: two of ['0'] to ['9'], or for 1 to 9 one of them. *)
Definition month_text (t : text) (m : Z) : Prop :=
  1 <= m <= 12 /\
  (t = [48 + m / 10; 48 + m mod 10] \/ (m <= 9 /\ t = [48 + m])).

(** A year: four decimal digits of any script. *)
Definition year_text (t : text) (y : Z) : Prop :=
  exists c1 c2 c3 c4 v1 v2 v3 v4,
    t = [c1; c2; c3; c4] /\
    digit c1 v1 /\ digit c2 v2 /\ digit c3 v3 /\ digit c4 v4 /\
    y = 1000 * v1 + 100 * v2 + 10 * v3 + v4.

Definition birthday_text (s : text) (d : Calendar.date) : Prop :=
  exists dt mt yt,
    s = (dt ++ [46] ++ mt ++ [46] ++ yt)%list /\
    day_text dt (Calendar.day d) /\
    month_text mt (Calendar.month d) /\
    year_text yt (Calendar.year d) /\
    Calendar.valid d.

End Tables.

(** What the tables of Unicode are known to satisfy: a decimal digit has a
    value from 0 to 9 and is not white space. *)
Definition tables_ok (decimal_above : Z -> option Z) (space_above : Z -> bool)
  : Prop :=
  (forall c v, decimal_above c = Some v -> 0 <= v <= 9) /\
  (forall c v, decimal_above c = Some v -> space_above c = false).

(** The tables cut down to one script, the digits U+0660 to U+0669. *)
Definition arabic_indic (c : Z) : option Z :=
  if (1632 <=? c) && (c <=? 1641) then Some (c - 1632) else None.

Definition no_space (c : Z) : bool := false.

(** Three texts with digits of that script: 1 June 2020 with the year in
    them, 15 June 2020 with the second digit of the day in them, and
    1 June 2020 with the second digit of the month in them. *)
Definition year_in_arabic : text :=
  (of_string "01.06." ++ [1634; 1632; 1634; 1632])%list.

Definition day_in_arabic : text :=
  ([49; 1637] ++ of_string ".06.2020")%list.

Definition month_in_arabic : text :=
  (of_string "01.0" ++ [1638] ++ of_string ".2020")%list.

End Wide.

(** ** [class Record]

    Every [Phone] in [self.phones] is made by [add_phone] for that list
    alone, so no two places of a list, and no two records, share a phone
    object: the list of objects is the list of their states. *)

Module ContactRecord.

Record t : Type := mk {
  name : Field;
  phones : list Field;
  birthday : option Field
}.

Definition set_phones (l : list Field) (self : t) : t :=
  mk (name self) l (birthday self).

Definition set_birthday (b : option Field) (self : t) : t :=
  mk (name self) (phones self) b.

(** [Record.__init__] *)
Definition init (n : string) : t := mk (mkField n) [] None.

(** [self.phones.append(Phone(phone_number))] *)
Definition add_phone (phone_number : string) : method t unit :=
  p <- eval (Phone.init phone_number) ;;
  self <- get ;;
  put (set_phones (phones self ++ [p])%list self).

Definition remove_phone (phone_number : string) : method t unit :=
  self <- get ;;
  put (set_phones
         (filter (fun phone => negb (String.eqb (value phone) phone_number))
                 (phones self))
         self).

(** [l[i].value = v] on the list of phones. *)
Fixpoint assign_value (i : nat) (v : string) (l : list Field) : list Field :=
  match l, i with
  | [], _ => []
  | _ :: rest, O => mkField v :: rest
  | p :: rest, S j => p :: assign_value j v rest
  end.

(** The [for] loop of [edit_phone], about to visit the phones [todo],
    the first of which sits at index [i] of [self.phones]. *)
Fixpoint edit_phone_loop (old_phone new_phone : string) (i : nat)
         (todo : list Field) : method t unit :=
  match todo with
  | [] => raise (ValueError "Phone number not found")
  | phone :: todo' =>
      if String.eqb (value phone) old_phone then
        self <- get ;;
        put (set_phones (assign_value i new_phone (phones self)) self) ;;;
        ret tt
      else edit_phone_loop old_phone new_phone (S i) todo'
  end.

Definition edit_phone (old_phone new_phone : string) : method t unit :=
  self <- get ;;
  edit_phone_loop old_phone new_phone 0 (phones self).

Fixpoint find_phone_loop (phone_number : string) (todo : list Field)
  : option Field :=
  match todo with
  | [] => None
  | phone :: todo' =>
      if String.eqb (value phone) phone_number then Some phone
      else find_phone_loop phone_number todo'
  end.

Definition find_phone (phone_number : string) (self : t) : option Field :=
  find_phone_loop phone_number (phones self).

(** [self.birthday = Birthday(new_birthday)] *)
Definition add_birthday (new_birthday : string) : method t unit :=
  b <- eval (Birthday.init new_birthday) ;;
  self <- get ;;
  put (set_birthday (Some b) self).

(** [Record.__str__] *)
Definition str (self : t) : string :=
  "Contact name: " ++ value (name self) ++ ", phone: "
    ++ PyStr.join "; " (map value (phones self)).

End ContactRecord.

(** ** [class AddressBook]

    [self.data] is a [dict]: keys are unique and keep the order in which
    they were first inserted. *)

Module AddressBook.

Definition t : Type := list (string * ContactRecord.t).

(** [d[k] = v] *)
Fixpoint setitem (k : string) (v : ContactRecord.t) (d : t) : t :=
  match d with
  | [] => [(k, v)]
  | (k', v') :: rest =>
      if String.eqb k' k then (k', v) :: rest
      else (k', v') :: setitem k v rest
  end.

(** [d.get(k, None)] *)
Fixpoint getitem (k : string) (d : t) : option ContactRecord.t :=
  match d with
  | [] => None
  | (k', v') :: rest => if String.eqb k' k then Some v' else getitem k rest
  end.

(** [k in d] *)
Definition contains (k : string) (d : t) : bool :=
  match getitem k d with Some _ => true | None => false end.

(** [del d[k]] for a key that is present. *)
Fixpoint delitem (k : string) (d : t) : t :=
  match d with
  | [] => []
  | (k', v') :: rest =>
      if String.eqb k' k then rest else (k', v') :: delitem k rest
  end.

(** [d.values()] *)
Definition values (d : t) : list ContactRecord.t := map snd d.

Definition keys (d : t) : list string := map fst d.

Definition add_record (record : ContactRecord.t) : method t unit :=
  self <- get ;;
  put (setitem (value (ContactRecord.name record)) record self).

Definition find (n : string) (self : t) : option ContactRecord.t :=
  getitem n self.

Definition delete (n : string) : method t unit :=
  self <- get ;;
  if contains n self then put (delitem n self) else ret tt.

(** A method of a record called on the record stored under [n], as in
    [book.find(n).add_phone(p)]: the book holds the object itself, so what
    the method does to it is seen through the book. *)
Definition with_record {A : Type} (n : string) (m : method ContactRecord.t A)
           (absent : exn) : method t A :=
  fun self =>
    match find n self with
    | Some record =>
        let (outcome, record') := m record in
        (outcome, setitem n record' self)
    | None => (Raise absent, self)
    end.

(** One element of the list [get_upcoming_birthdays] returns. *)
Record entry : Type := mkentry {
  entry_name : string;
  congratulation_date : string
}.

(** Lines 199 to 203: the next recurrence of the birthday on or after
    [today]. *)
Definition birthday_this_year (today : Calendar.date) (birthday_value : string)
  : result Calendar.date :=
  birthday_date <-? Strptime.strptime birthday_value ;;
  birthday_this_year <-? Calendar.replace_year birthday_date (Calendar.year today) ;;
  if Calendar.lt birthday_this_year today then
    Calendar.replace_year birthday_this_year (Calendar.year today + 1)
  else Ok birthday_this_year.

(** Lines 208 to 211: the date moved off a weekend. *)
Definition congratulate_on (birthday_this_year : Calendar.date)
  : result Calendar.date :=
  if 5 <=? Calendar.weekday birthday_this_year then
    Calendar.add_days birthday_this_year (7 - Calendar.weekday birthday_this_year)
  else Ok birthday_this_year.

(** The body of the [for] loop: what one record does to the list
    [upcoming_birthdays]. *)
Definition visit (today : Calendar.date) (upcoming_birthdays : list entry)
           (record : ContactRecord.t) : result (list entry) :=
  match ContactRecord.birthday record with
  | None => Ok upcoming_birthdays
  | Some b =>
      bty <-? birthday_this_year today (value b) ;;
      let days_until_birthday := Calendar.sub_days bty today in
      if (0 <=? days_until_birthday) && (days_until_birthday <=? 7) then
        congratulation <-? congratulate_on bty ;;
        Ok (upcoming_birthdays ++
              [mkentry (value (ContactRecord.name record))
                       (Calendar.strftime_Ymd congratulation)])%list
      else Ok upcoming_birthdays
  end.

(** Record [r] makes the loop add entry [e] on day [today]: it has a
    birthday whose next recurrence is at most 7 days away, and [e] carries
    its name and the date moved off the weekend. *)
Definition emits (today : Calendar.date) (r : ContactRecord.t) (e : entry)
  : Prop :=
  exists b bty cd,
    ContactRecord.birthday r = Some b /\
    birthday_this_year today (value b) = Ok bty /\
    0 <= Calendar.sub_days bty today <= 7 /\
    congratulate_on bty = Ok cd /\
    e = mkentry (value (ContactRecord.name r)) (Calendar.strftime_Ymd cd).

Fixpoint for_each (today : Calendar.date) (upcoming_birthdays : list entry)
         (records : list ContactRecord.t) : result (list entry) :=
  match records with
  | [] => Ok upcoming_birthdays
  | record :: rest =>
      upcoming_birthdays' <-? visit today upcoming_birthdays record ;;
      for_each today upcoming_birthdays' rest
  end.

(** [get_upcoming_birthdays], with the value of [datetime.now().date()]
    passed in as [today]. *)
Definition get_upcoming_birthdays (today : Calendar.date) (self : t)
  : result (list entry) :=
  for_each today [] (values self).

End AddressBook.


(** ** The rules as the documentation words them *)

Module Documented.

Definition chars (s : string) : list ascii := list_ascii_of_string s.

Definition number (l : list ascii) : Z :=
  fold_left (fun acc c => acc * 10 + PyStr.digit_value c) l 0.

(** "Length exactly 10 and every character is a decimal digit." *)
Definition validate_phone (s : string) : bool :=
  (PyStr.len s =? 10) && forallb PyStr.is_decimal (chars s).

(** A date of the calendar, years counted from 1 as [datetime] does. *)
Definition real_date (y m d : Z) : bool :=
  (1 <=? y) && (y <=? 9999) && (1 <=? m) && (m <=? 12)
  && (1 <=? d) && (d <=? Calendar._days_in_month y m).

(** "DD.MM.YYYY: two-digit day, two-digit month, four-digit year, a real
    calendar date." *)
Definition validate_birthday (s : string) : bool :=
  match chars s with
  | [d1; d2; p1; m1; m2; p2; y1; y2; y3; y4] =>
      forallb PyStr.is_decimal [d1; d2; m1; m2; y1; y2; y3; y4]
      && Ascii.eqb p1 "." && Ascii.eqb p2 "."
      && real_date (number [y1; y2; y3; y4]) (number [m1; m2]) (number [d1; d2])
  | _ => false
  end.

End Documented.

(** ** The texts [strptime] takes for a date *)

Module Accepted.

(** A day: two digits, or for 1 to 9 one digit, alone or after a blank. *)
Definition day_text (t : string) (d : Z) : Prop :=
  1 <= d <= 31 /\
  (t = Calendar.zfill 2 d \/
   (d <= 9 /\ (t = Calendar.zfill 1 d \/ t = " " ++ Calendar.zfill 1 d))).

(** A month: two digits, or for 1 to 9 one digit. *)
Definition month_text (t : string) (m : Z) : Prop :=
  1 <= m <= 12 /\ (t = Calendar.zfill 2 m \/ (m <= 9 /\ t = Calendar.zfill 1 m)).

(** A year: four digits. *)
Definition year_text (t : string) (y : Z) : Prop :=
  0 <= y <= 9999 /\ t = Calendar.zfill 4 y.

Definition birthday_text (s : string) (d : Calendar.date) : Prop :=
  exists dt mt yt,
    s = dt ++ "." ++ mt ++ "." ++ yt /\
    day_text dt (Calendar.day d) /\
    month_text mt (Calendar.month d) /\
    year_text yt (Calendar.year d) /\
    Calendar.valid d.

End Accepted.

(** ** The operations that change a record, as values *)

Inductive operation : Type :=
| AddPhone (phone_number : string)
| AddBirthday (new_birthday : string)
| EditPhone (old_phone new_phone : string).

Definition run (op : operation) : method ContactRecord.t unit :=
  match op with
  | AddPhone n => ContactRecord.add_phone n
  | AddBirthday b => ContactRecord.add_birthday b
  | EditPhone old new => ContactRecord.edit_phone old new
  end.

(** ** Sample data *)

Module Example.

Definition after {S A : Type} (m : method S A) (s : S) : S := snd (m s).

Definition ann : ContactRecord.t :=
  after (ContactRecord.add_phone "1234567890") (ContactRecord.init "Ann").

Definition ann_twice : ContactRecord.t :=
  after (ContactRecord.add_phone "1234567890")
    (after (ContactRecord.add_phone "0987654321") ann).

Definition alice : ContactRecord.t :=
  after (ContactRecord.add_birthday "01.06.2020") (ContactRecord.init "Alice").

Definition bob : ContactRecord.t :=
  after (ContactRecord.add_birthday "15.06.1990") (ContactRecord.init "Bob").

Definition lea : ContactRecord.t :=
  after (ContactRecord.add_birthday "29.02.2020") (ContactRecord.init "Lea").

Definition book : AddressBook.t :=
  after (AddressBook.add_record bob) (after (AddressBook.add_record alice) []).

Definition leap_book : AddressBook.t :=
  after (AddressBook.add_record lea) [].

(** Ten times SUPERSCRIPT TWO, U+00B2. *)
Definition superscripts : string :=
  string_of_list_ascii (repeat (ascii_of_N 178) 10).

(** Friday 30 May 2025; 1 June 2025 is a Sunday. *)
Definition friday : Calendar.date := Calendar.mkdate 2025 5 30.

Definition new_year : Calendar.date := Calendar.mkdate 2025 1 1.

End Example.

(** ** The commands of the bot

    Each command takes the words typed by the user and the book.  Its body
    may raise; the decorator [input_error] turns what is raised into the
    text shown to the user, so a decorated command always answers with a
    text.  The book is passed through, changed or not. *)

Module Commands.

(** What the body of a command raises: an exception of the model above, or
    the [KeyError] made from a name that is not in the book. *)
Inductive raised : Type :=
| Core (e : exn)
| KeyError (name : string).

Inductive outcome (A : Type) : Type :=
| Returned (a : A)
| Raised (e : raised).

Arguments Returned {A} a.
Arguments Raised {A} e.

Definition body : Type := AddressBook.t -> outcome string * AddressBook.t.

Definition apostrophe : ascii := ascii_of_N 39.
Definition double_quote : ascii := ascii_of_N 34.
Definition backslash : ascii := ascii_of_N 92.
Definition newline : string := String (ascii_of_N 10) "".

Definition hex_digit (n : Z) : ascii :=
  if n <? 10 then ascii_of_N (Z.to_N (48 + n)) else ascii_of_N (Z.to_N (87 + n)).

(** [c.isprintable()] below U+0100. *)
Definition isprintable_char (c : ascii) : bool :=
  let n := PyStr.ord c in
  ((32 <=? n) && (n <? 127)) || ((161 <=? n) && negb (n =? 173)).

(** One character of [repr(s)], [quote] being the quote put around it. *)
Definition repr_char (quote c : ascii) : string :=
  let n := PyStr.ord c in
  if Ascii.eqb c quote || Ascii.eqb c backslash then
    String backslash (String c "")
  else if n =? 9 then String backslash "t"
  else if n =? 10 then String backslash "n"
  else if n =? 13 then String backslash "r"
  else if isprintable_char c then String c ""
  else String backslash
         (String "x" (String (hex_digit (n / 16)) (String (hex_digit (n mod 16)) ""))).

Definition has_char (c : ascii) (s : string) : bool :=
  existsb (Ascii.eqb c) (list_ascii_of_string s).

(** [repr(s)] of a [str]: double quotes are used only when the text holds
    an apostrophe and no double quote. *)
Definition repr (s : string) : string :=
  let quote :=
    if has_char apostrophe s && negb (has_char double_quote s)
    then double_quote else apostrophe in
  String quote
    (String.concat "" (map (repr_char quote) (list_ascii_of_string s))
     ++ String quote "").

(** [input_error]: [str(e)] of a [ValueError] is its text, [str(e)] of a
    [KeyError] is the [repr] of the name; no body raises [IndexError], and
    the one other exception of the model falls to the last handler. *)
Definition input_error (func : body) (book : AddressBook.t)
  : string * AddressBook.t :=
  match func book with
  | (Returned text, book') => (text, book')
  | (Raised (Core (ValueError msg)), book') => (msg, book')
  | (Raised (KeyError name), book') =>
      ("Contact " ++ repr name ++ " not found.", book')
  | (Raised (Core (OverflowError msg)), book') =>
      ("An error occurred: " ++ msg, book')
  end.

(** A method called on the record the book holds under [name]: the book
    sees what the method did to the record. *)
Definition on_record {A : Type} (name : string) (record : ContactRecord.t)
           (m : method ContactRecord.t A) (book : AddressBook.t)
  : result A * AddressBook.t :=
  let (outcome, record') := m record in
  (outcome, AddressBook.setitem name record' book).

Definition add_contact_body (args : list string) : body :=
  fun book =>
    match args with
    | [name; phone] =>
        match AddressBook.find name book with
        | Some record =>
            match on_record name record (ContactRecord.add_phone phone) book with
            | (Ok _, book') => (Returned "Phone added.", book')
            | (Raise e, book') => (Raised (Core e), book')
            end
        | None =>
            match ContactRecord.add_phone phone (ContactRecord.init name) with
            | (Ok _, record) =>
                (Returned "Contact added.",
                 snd (AddressBook.add_record record book))
            | (Raise e, _) => (Raised (Core e), book)
            end
        end
    | _ => (Raised (Core (ValueError "Give me name and phone please.")), book)
    end.

Definition add_contact (args : list string) := input_error (add_contact_body args).

Definition change_contact_body (args : list string) : body :=
  fun book =>
    match args with
    | [name; old_phone; new_phone] =>
        match AddressBook.find name book with
        | Some record =>
            match on_record name record
                    (ContactRecord.edit_phone old_phone new_phone) book with
            | (Ok _, book') => (Returned "Phone updated.", book')
            | (Raise e, book') => (Raised (Core e), book')
            end
        | None => (Raised (KeyError name), book)
        end
    | _ =>
        (Raised (Core (ValueError "Give me name, old phone and new phone please.")),
         book)
    end.

Definition change_contact (args : list string) :=
  input_error (change_contact_body args).

Definition show_phone_body (args : list string) : body :=
  fun book =>
    match args with
    | [name] =>
        match AddressBook.find name book with
        | Some record =>
            (Returned (PyStr.join "; " (map value (ContactRecord.phones record))),
             book)
        | None => (Raised (KeyError name), book)
        end
    | _ => (Raised (Core (ValueError "Enter user name")), book)
    end.

Definition show_phone (args : list string) := input_error (show_phone_body args).

Definition show_all_body : body :=
  fun book =>
    (Returned (PyStr.join newline (map ContactRecord.str (AddressBook.values book))),
     book).

Definition show_all := input_error show_all_body.

Definition add_birthday_body (args : list string) : body :=
  fun book =>
    match args with
    | [name; birthday] =>
        match AddressBook.find name book with
        | Some record =>
            match on_record name record (ContactRecord.add_birthday birthday) book with
            | (Ok _, book') => (Returned "Birthday added.", book')
            | (Raise e, book') => (Raised (Core e), book')
            end
        | None => (Raised (KeyError name), book)
        end
    | _ => (Raised (Core (ValueError "Give me name and birthday please.")), book)
    end.

Definition add_birthday (args : list string) := input_error (add_birthday_body args).

Definition show_birthday_body (args : list string) : body :=
  fun book =>
    match args with
    | [name] =>
        match AddressBook.find name book with
        | Some record =>
            match ContactRecord.birthday record with
            | Some b =>
                (Returned (name ++ String apostrophe "s birthday: " ++ value b), book)
            | None => (Returned (name ++ " has no birthday set."), book)
            end
        | None => (Raised (KeyError name), book)
        end
    | _ => (Raised (Core (ValueError "Enter user name")), book)
    end.

Definition show_birthday (args : list string) :=
  input_error (show_birthday_body args).

Definition birthday_line (b : AddressBook.entry) : string :=
  AddressBook.entry_name b ++ ": " ++ AddressBook.congratulation_date b.

Definition birthdays_body (today : Calendar.date) : body :=
  fun book =>
    match AddressBook.get_upcoming_birthdays today book with
    | Ok [] => (Returned "No upcoming birthdays in the next week.", book)
    | Ok upcoming => (Returned (PyStr.join newline (map birthday_line upcoming)), book)
    | Raise e => (Raised (Core e), book)
    end.

Definition birthdays (today : Calendar.date) := input_error (birthdays_body today).

End Commands.

(** ** Histories and invariants *)

(** The calls that change a record: the three of [operation] and
    [remove_phone]. *)
Inductive action : Type :=
| Do (op : operation)
| RemovePhone (phone_number : string).

Definition perform (a : action) : method ContactRecord.t unit :=
  match a with
  | Do op => run op
  | RemovePhone n => ContactRecord.remove_phone n
  end.

(** A series of calls on one record, the caller going on after a call that
    raised, as the commands do. *)
Fixpoint perform_all (l : list action) (self : ContactRecord.t) : ContactRecord.t :=
  match l with
  | [] => self
  | a :: l' => perform_all l' (snd (perform a self))
  end.

(** The new number of an [edit_phone] call passes the check of [Phone]. *)
Definition edits_to_valid (a : action) : Prop :=
  match a with
  | Do (EditPhone _ new_phone) => Phone.validate new_phone = true
  | _ => True
  end.

(** Every phone and the birthday of the record pass the checks of their
    classes. *)
Definition sound_record (r : ContactRecord.t) : Prop :=
  (forall p, In p (ContactRecord.phones r) -> Phone.validate (value p) = true) /\
  (forall b, ContactRecord.birthday r = Some b ->
             Birthday.validate (value b) = Ok true).

Definition sound_book (book : AddressBook.t) : Prop :=
  forall r, In r (AddressBook.values book) -> sound_record r.

(** The keys are distinct and each record sits under its own name. *)
Definition keyed (book : AddressBook.t) : Prop :=
  NoDup (AddressBook.keys book) /\
  forall k r, In (k, r) book -> value (ContactRecord.name r) = k.

(** [out] lists, in the order of the records, one entry for each record
    that has one and nothing for the others. *)
Inductive listed (today : Calendar.date)
  : list ContactRecord.t -> list AddressBook.entry -> Prop :=
| listed_nil : listed today [] []
| listed_skip r rs out :
    (forall e, ~ AddressBook.emits today r e) ->
    listed today rs out -> listed today (r :: rs) out
| listed_emit r rs e out :
    AddressBook.emits today r e ->
    listed today rs out -> listed today (r :: rs) (e :: out).

(** What [date.replace] raises for a day the month does not have. *)
Definition day_error : exn := ValueError "day is out of range for month".

Module Sample.

Definition ann_book : AddressBook.t :=
  Example.after (AddressBook.add_record Example.ann) Example.book.

(** Tuesday 27 February 2024, a leap year. *)
Definition leap_tuesday : Calendar.date := Calendar.mkdate 2024 2 27.

(** Born on 30 May and on 29 May. *)
Definition mia : ContactRecord.t :=
  Example.after (ContactRecord.add_birthday "30.05.1995") (ContactRecord.init "Mia").

Definition dan : ContactRecord.t :=
  Example.after (ContactRecord.add_birthday "29.05.2001") (ContactRecord.init "Dan").

Definition week_book : AddressBook.t :=
  Example.after (AddressBook.add_record dan)
    (Example.after (AddressBook.add_record mia) Example.book).

End Sample.

(** ** The console and the main loop

    The keyboard is the list of the lines still to be typed, the screen
    the list of the texts written so far.  [input] at the end of the lines
    raises [EOFError], which nothing catches: the program stops there.  The
    book read by [load_data] is an argument of [main], the book given to
    [save_data] its result, and one run is taken to happen within one day,
    [today]. *)

Module Console.

Record io : Type := mkio { stdin : list string; stdout : list string }.

(** [print(text)] *)
Definition print (text : string) (w : io) : io :=
  mkio (stdin w) (stdout w ++ [(text ++ Commands.newline)%string])%list.

(** [input(prompt)]: [None] stands for [EOFError]. *)
Definition input (prompt : string) (w : io) : option string * io :=
  match stdin w with
  | [] => (None, mkio [] (stdout w ++ [prompt])%list)
  | line :: rest => (Some line, mkio rest (stdout w ++ [prompt])%list)
  end.

(** [c.lower()] below U+0100. *)
Definition lower_char (c : ascii) : ascii :=
  let n := PyStr.ord c in
  if ((65 <=? n) && (n <=? 90))
     || ((192 <=? n) && (n <=? 222) && negb (n =? 215))
  then ascii_of_N (Z.to_N (n + 32)) else c.

Fixpoint lower (s : string) : string :=
  match s with
  | EmptyString => ""
  | String c s' => String (lower_char c) (lower s')
  end.

Fixpoint rstrip (s : string) : string :=
  match s with
  | EmptyString => ""
  | String c s' =>
      match rstrip s' with
      | EmptyString => if Strptime.is_space c then "" else String c ""
      | r => String c r
      end
  end.

(** [s.strip()] *)
Definition strip (s : string) : string := rstrip (Strptime.lstrip s).

(** The methods of [ConsoleInterface] that ask for words and run a
    command: [None] when the lines ran out while asking. *)
Definition interface : Type :=
  AddressBook.t -> io -> option (string * AddressBook.t) * io.

Definition ask1 (p1 : string) (command : list string -> AddressBook.t -> string * AddressBook.t)
  : interface :=
  fun book w =>
    match input p1 w with
    | (None, w1) => (None, w1)
    | (Some a1, w1) => (Some (command [a1] book), w1)
    end.

Definition ask2 (p1 p2 : string)
           (command : list string -> AddressBook.t -> string * AddressBook.t)
  : interface :=
  fun book w =>
    match input p1 w with
    | (None, w1) => (None, w1)
    | (Some a1, w1) =>
        match input p2 w1 with
        | (None, w2) => (None, w2)
        | (Some a2, w2) => (Some (command [a1; a2] book), w2)
        end
    end.

Definition ask3 (p1 p2 p3 : string)
           (command : list string -> AddressBook.t -> string * AddressBook.t)
  : interface :=
  fun book w =>
    match input p1 w with
    | (None, w1) => (None, w1)
    | (Some a1, w1) =>
        match input p2 w1 with
        | (None, w2) => (None, w2)
        | (Some a2, w2) =>
            match input p3 w2 with
            | (None, w3) => (None, w3)
            | (Some a3, w3) => (Some (command [a1; a2; a3] book), w3)
            end
        end
    end.

Definition add_contact_interface : interface :=
  ask2 "Enter name: " "Enter phone: " Commands.add_contact.

Definition change_contact_interface : interface :=
  ask3 "Enter name: " "Enter old phone: " "Enter new phone: "
       Commands.change_contact.

Definition show_phone_interface : interface :=
  ask1 "Enter name: " Commands.show_phone.

Definition add_birthday_interface : interface :=
  ask2 "Enter name: " "Enter birthday (DD.MM.YYYY): " Commands.add_birthday.

Definition show_birthday_interface : interface :=
  ask1 "Enter name: " Commands.show_birthday.

Definition show_upcoming_birthdays_interface (today : Calendar.date) : interface :=
  fun book w => (Some (Commands.birthdays today book), w).

(** [display_contacts]: one [print] for each record. *)
Definition display_contacts (book : AddressBook.t) (w : io) : io :=
  fold_left (fun w record => print (ContactRecord.str record) w)
            (AddressBook.values book) w.

Definition commands : list string :=
  ["add: Add a new contact";
   "change: Change an existing contact's phone";
   "phone: Show phone number of a contact";
   "all: Show all contacts";
   "add-birthday: Add birthday to a contact";
   "show-birthday: Show birthday of a contact";
   "birthdays: Show upcoming birthdays";
   "hello: Greet the bot";
   "close or exit: Exit the program"].

Definition display_commands (w : io) : io :=
  fold_left (fun w command => print ("- " ++ command) w) commands
            (print "Available commands:" w).

(** How a run ends: with the book handed to [save_data], or by the
    [EOFError] of [input]; [Unfinished] is the answer of [loop] when its
    count of rounds is used up. *)
Inductive ending : Type :=
| Saved (book : AddressBook.t)
| Interrupted
| Unfinished.

(** The words that end the loop. *)
Definition is_quit (command : string) : bool :=
  String.eqb command "close" || String.eqb command "exit".

(** The interface method a word stands for, if it asks and answers. *)
Definition method_of (today : Calendar.date) (command : string) : option interface :=
  if String.eqb command "add" then Some add_contact_interface
  else if String.eqb command "change" then Some change_contact_interface
  else if String.eqb command "phone" then Some show_phone_interface
  else if String.eqb command "add-birthday" then Some add_birthday_interface
  else if String.eqb command "show-birthday" then Some show_birthday_interface
  else if String.eqb command "birthdays" then
    Some (show_upcoming_birthdays_interface today)
  else None.

(** The [while True] loop of [main], at most [rounds] times round. *)
Fixpoint loop (rounds : nat) (today : Calendar.date) (book : AddressBook.t)
         (w : io) : ending * io :=
  match rounds with
  | O => (Unfinished, w)
  | S rounds' =>
      match input "Enter a command: " w with
      | (None, w1) => (Interrupted, w1)
      | (Some command, w1) =>
          let command := strip (lower command) in
          if is_quit command then (Saved book, print "Good bye!" w1)
          else if String.eqb command "hello" then
            loop rounds' today book (print "How can I help you?" w1)
          else if String.eqb command "all" then
            loop rounds' today book (display_contacts book w1)
          else if String.eqb command "help" then
            loop rounds' today book (display_commands w1)
          else
            match method_of today command with
            | Some method =>
                match method book w1 with
                | (None, w2) => (Interrupted, w2)
                | (Some (result, book'), w2) =>
                    loop rounds' today book' (print result w2)
                end
            | None => loop rounds' today book (print "Invalid command." w1)
            end
      end
  end.

(** [main]: every round reads a line, so one round more than there are
    lines is enough. *)
Definition main (today : Calendar.date) (loaded : AddressBook.t)
           (lines : list string) : ending * io :=
  loop (S (List.length lines)) today loaded
       (print "Welcome to the assistant bot!" (mkio lines [])).

(** [w'] is [w] after some lines were read. *)
Definition rest_of (w w' : io) : Prop :=
  exists read, stdin w = (read ++ stdin w')%list.

(** The text does not begin with a blank. *)
Definition clean_start (s : string) : Prop :=
  match s with
  | EmptyString => True
  | String c _ => Strptime.is_space c = false
  end.

End Console.


(** * Checks on sample data *)

Example strptime_strict :
  Strptime.strptime "01.06.2020" = Ok (Calendar.mkdate 2020 6 1).
Proof. reflexivity. Qed.

Example strptime_one_digit :
  Strptime.strptime "1.6.2020" = Ok (Calendar.mkdate 2020 6 1).
Proof. reflexivity. Qed.

Example strptime_year_in_arabic :
  Wide.strptime Wide.arabic_indic Wide.no_space Wide.year_in_arabic
  = Ok (Calendar.mkdate 2020 6 1).
Proof. reflexivity. Qed.

Example strptime_day_in_arabic :
  Wide.strptime Wide.arabic_indic Wide.no_space Wide.day_in_arabic
  = Ok (Calendar.mkdate 2020 6 15).
Proof. reflexivity. Qed.

Example strptime_month_in_arabic :
  Wide.strptime Wide.arabic_indic Wide.no_space Wide.month_in_arabic
  = Raise (ValueError "time data does not match format '%d.%m.%Y'").
Proof. reflexivity. Qed.

Example strptime_blank :
  Strptime.strptime " 1.6.2020" = Ok (Calendar.mkdate 2020 6 1).
Proof. reflexivity. Qed.

Example strptime_feb_30 :
  Strptime.strptime "30.02.2020"
  = Raise (ValueError "day is out of range for month").
Proof. reflexivity. Qed.

Example strptime_month_13 :
  Strptime.strptime "01.13.2020"
  = Raise (ValueError "time data does not match format '%d.%m.%Y'").
Proof. reflexivity. Qed.

Example strptime_long_year :
  Strptime.strptime "01.06.20201"
  = Raise (ValueError "unconverted data remains: 1").
Proof. reflexivity. Qed.

Example fromordinal_max :
  Calendar.fromordinal Calendar._MAXORDINAL = Ok (Calendar.mkdate 9999 12 31).
Proof. reflexivity. Qed.

Example friday_is_a_friday : Calendar.weekday Example.friday = 4.
Proof. reflexivity. Qed.

(** Alice, born on 1 June, seen from Friday 30 May 2025: 1 June is a Sunday
    and the date given is the Monday after it. *)
Example scenario_alice :
  AddressBook.get_upcoming_birthdays Example.friday Example.book
  = Ok [AddressBook.mkentry "Alice" "2025.06.02"].
Proof. reflexivity. Qed.

(** Bob, born on 15 June, is not in the list on 1 January 2025. *)
Example scenario_bob :
  AddressBook.get_upcoming_birthdays Example.new_year Example.book = Ok [].
Proof. reflexivity. Qed.

Example record_str :
  ContactRecord.str Example.ann_twice
  = "Contact name: Ann, phone: 1234567890; 0987654321; 1234567890".
Proof. reflexivity. Qed.

Example remove_phone_absent :
  ContactRecord.remove_phone "0000000000" Example.ann = (Ok tt, Example.ann).
Proof. reflexivity. Qed.

(** * Facts about the model *)

(** Linear arithmetic after the quotients and remainders are named. *)
Ltac zdm := Z.div_mod_to_equations; lia.

(** Look up the entries of a constant table and decide the tests made on
    a constant month. *)
Ltac table_lookup :=
  repeat match goal with
         | |- context [Calendar.item ?l ?i] =>
             let v := eval vm_compute in (Calendar.item l i) in
             change (Calendar.item l i) with v
         | |- context [Z.pos ?a =? Z.pos ?b] =>
             let v := eval vm_compute in (Z.pos a =? Z.pos b) in
             change (Z.pos a =? Z.pos b) with v
         | |- context [Z.pos ?a <? Z.pos ?b] =>
             let v := eval vm_compute in (Z.pos a <? Z.pos b) in
             change (Z.pos a <? Z.pos b) with v
         end.

(** ** The calendar *)

Section CalendarFacts.

Import Calendar.

Lemma date_new_inv y m d dt :
  date_new y m d = Ok dt -> dt = mkdate y m d /\ valid dt.
Proof.
  unfold date_new, valid, MINYEAR, MAXYEAR.
  destruct ((1 <=? y) && (y <=? 9999)) eqn:Ey; cbn [negb]; [|discriminate].
  destruct ((1 <=? m) && (m <=? 12)) eqn:Em; cbn [negb]; [|discriminate].
  destruct ((1 <=? d) && (d <=? _days_in_month y m)) eqn:Ed; cbn [negb];
    [|discriminate].
  intros [= <-]. cbn [year month day].
  apply andb_true_iff in Ey, Em, Ed.
  rewrite !Z.leb_le in *. intuition lia.
Qed.

Lemma date_new_valid dt :
  valid dt -> date_new (year dt) (month dt) (day dt) = Ok dt.
Proof.
  unfold date_new, valid, MINYEAR, MAXYEAR. intros (Hy & Hm & Hd).
  replace ((1 <=? year dt) && (year dt <=? 9999)) with true
    by (symmetry; apply andb_true_iff; rewrite !Z.leb_le; lia).
  replace ((1 <=? month dt) && (month dt <=? 12)) with true
    by (symmetry; apply andb_true_iff; rewrite !Z.leb_le; lia).
  replace ((1 <=? day dt) && (day dt <=? _days_in_month (year dt) (month dt)))
    with true by (symmetry; apply andb_true_iff; rewrite !Z.leb_le; lia).
  cbn [negb]. destruct dt; reflexivity.
Qed.

Lemma replace_year_inv dt y dt' :
  replace_year dt y = Ok dt' ->
  dt' = mkdate y (month dt) (day dt) /\ valid dt'.
Proof. apply date_new_inv. Qed.

Lemma days_before_year_step y :
  _days_before_year (y + 1) = _days_before_year y + 365 + b2z (_is_leap y).
Proof.
  unfold _days_before_year, _is_leap, b2z.
  replace (y + 1 - 1) with y by lia.
  destruct (y mod 4 =? 0) eqn:E4; destruct (y mod 100 =? 0) eqn:E100;
    destruct (y mod 400 =? 0) eqn:E400; cbn [andb orb negb];
    rewrite ?Z.eqb_eq, ?Z.eqb_neq in *; zdm.
Qed.

(** Day of the year of a valid date. *)
Lemma day_of_year_bounds y m d :
  1 <= m <= 12 -> 1 <= d <= _days_in_month y m ->
  1 <= _days_before_month y m + d <= 365 + b2z (_is_leap y).
Proof.
  intros Hm. unfold _days_in_month, _days_before_month.
  assert (Hc : m = 1 \/ m = 2 \/ m = 3 \/ m = 4 \/ m = 5 \/ m = 6 \/ m = 7
               \/ m = 8 \/ m = 9 \/ m = 10 \/ m = 11 \/ m = 12) by lia.
  destruct (_is_leap y);
    repeat (destruct Hc as [-> | Hc]; [table_lookup; cbn [andb b2z]; lia|]);
    subst m; table_lookup; cbn [andb b2z]; lia.
Qed.

Lemma toordinal_bounds dt : valid dt -> 1 <= toordinal dt <= _MAXORDINAL.
Proof.
  intros (Hy & Hm & Hd). unfold MINYEAR, MAXYEAR in Hy.
  pose proof (day_of_year_bounds _ _ _ Hm Hd) as B.
  pose proof (days_before_year_step (year dt)) as S.
  unfold toordinal, _ymd2ord, _MAXORDINAL.
  assert (0 <= _days_before_year (year dt)) by (unfold _days_before_year; zdm).
  assert (_days_before_year (year dt + 1) <= 3652059)
    by (unfold _days_before_year; zdm).
  lia.
Qed.

Lemma month_and_day_table :
  forallb (fun k => month_and_day_ok true (Z.of_nat k)
                    && month_and_day_ok false (Z.of_nat k))
          (seq 0 365) = true.
Proof. vm_compute. reflexivity. Qed.

Lemma month_and_day_spec leap k :
  0 <= k < 365 -> month_and_day_ok leap k = true.
Proof.
  intros Hk.
  pose proof month_and_day_table as T.
  rewrite forallb_forall in T.
  specialize (T (Z.to_nat k)).
  rewrite Z2Nat.id in T by lia.
  assert (In (Z.to_nat k) (seq 0 365)) as Hin by (apply in_seq; lia).
  apply T in Hin. apply andb_true_iff in Hin. destruct leap; tauto.
Qed.

(** [_ord2ymd] finds a date of the calendar, and [_ymd2ord] leads back. *)
Lemma ord2ymd_correct n :
  1 <= n <= _MAXORDINAL ->
  1 <= fst (fst (_ord2ymd n)) <= 9999 /\
  1 <= snd (fst (_ord2ymd n)) <= 12 /\
  1 <= snd (_ord2ymd n)
    <= _days_in_month (fst (fst (_ord2ymd n))) (snd (fst (_ord2ymd n))) /\
  _ymd2ord (fst (fst (_ord2ymd n))) (snd (fst (_ord2ymd n))) (snd (_ord2ymd n)) = n.
Proof.
  intros Hn. unfold _MAXORDINAL in Hn.
  unfold _ord2ymd.
  change _DI400Y with 146097. change _DI100Y with 36524. change _DI4Y with 1461.
  set (N := n - 1).
  set (a := N / 146097). set (r := N mod 146097).
  set (b := r / 36524). set (r2 := r mod 36524).
  set (c := r2 / 1461). set (r3 := r2 mod 1461).
  set (e := r3 / 365). set (r4 := r3 mod 365).
  assert (HN : N = 146097 * a + r /\ 0 <= r < 146097) by (subst a r; zdm).
  assert (Hr : r = 36524 * b + r2 /\ 0 <= r2 < 36524) by (subst b r2; zdm).
  assert (Hr2 : r2 = 1461 * c + r3 /\ 0 <= r3 < 1461) by (subst c r3; zdm).
  assert (Hr3 : r3 = 365 * e + r4 /\ 0 <= r4 < 365) by (subst e r4; zdm).
  assert (Ha : 0 <= a <= 24) by (subst N; lia).
  assert (Hb : 0 <= b <= 4) by lia.
  assert (Hc : 0 <= c <= 24) by lia.
  assert (He : 0 <= e <= 4) by lia.
  clearbody a r b r2 c r3 e r4.
  set (Y := a * 400 + 1 + (b * 100 + c * 4 + e)).
  destruct ((e =? 4) || (b =? 4)) eqn:Esp.
  - (* the last day of a cycle of 4 or of 400 years *)
    cbn [fst snd].
    apply orb_true_iff in Esp. rewrite !Z.eqb_eq in Esp.
    unfold _ymd2ord, _days_in_month, _days_before_month, _days_before_year,
      _is_leap.
    change (item _DAYS_BEFORE_MONTH 12) with 334.
    change (item _DAYS_IN_MONTH 12) with 31.
    change (12 =? 2) with false. change (2 <? 12) with true. cbn [andb].
    assert (H4 : (Y - 1) mod 4 = 0) by (subst Y; destruct Esp; zdm).
    assert (H100 : (Y - 1) mod 100 <> 0 \/ (Y - 1) mod 400 = 0)
      by (subst Y; destruct Esp; zdm).
    apply Z.eqb_eq in H4. rewrite H4. cbn [andb].
    replace (negb ((Y - 1) mod 100 =? 0) || ((Y - 1) mod 400 =? 0)) with true.
    2:{ symmetry. apply orb_true_iff.
        destruct H100 as [H|H];
          [left; apply negb_true_iff, Z.eqb_neq; exact H
          |right; apply Z.eqb_eq; exact H]. }
    unfold b2z. subst Y N. destruct Esp; zdm.
  - apply orb_false_iff in Esp. rewrite !Z.eqb_neq in Esp.
    cbn [fst snd].
    assert (HLeap : ((e =? 3) && (negb (c =? 24) || (b =? 3))) = _is_leap Y).
    { unfold _is_leap. subst Y.
      destruct (e =? 3) eqn:E3; destruct (c =? 24) eqn:E24;
        destruct (b =? 3) eqn:B3;
        rewrite ?Z.eqb_eq, ?Z.eqb_neq in *; cbn [andb orb negb]; symmetry;
        rewrite ?andb_true_iff, ?andb_false_iff, ?orb_true_iff, ?orb_false_iff,
          ?negb_true_iff, ?negb_false_iff, ?Z.eqb_eq, ?Z.eqb_neq; zdm. }
    rewrite HLeap.
    pose proof (month_and_day_spec (_is_leap Y) r4 (proj2 Hr3)) as M.
    unfold month_and_day_ok in M.
    rewrite !andb_true_iff in M.
    destruct M as [[[[M1 M2] M3] M4] M5].
    rewrite ?Z.leb_le, ?Z.eqb_eq in *.
    unfold _ymd2ord, _days_in_month, _days_before_month.
    set (md := month_and_day (_is_leap Y) r4) in *. clearbody md.
    assert (HY : _days_before_year Y = 146097 * a + 36524 * b + 1461 * c + 365 * e)
      by (unfold _days_before_year; subst Y; zdm).
    rewrite HY. subst Y N. repeat split; lia.
Qed.

Lemma fromordinal_spec n :
  1 <= n <= _MAXORDINAL ->
  exists dt, fromordinal n = Ok dt /\ valid dt /\ toordinal dt = n.
Proof.
  intros Hn. destruct (ord2ymd_correct n Hn) as (Hy & Hm & Hd & Ho).
  unfold fromordinal.
  set (ymd := _ord2ymd n) in *. clearbody ymd.
  exists (mkdate (fst (fst ymd)) (snd (fst ymd)) (snd ymd)).
  assert (V : valid (mkdate (fst (fst ymd)) (snd (fst ymd)) (snd ymd)))
    by (unfold valid, MINYEAR, MAXYEAR; cbn [year month day]; lia).
  split; [exact (date_new_valid _ V)|]. split; [exact V|exact Ho].
Qed.

Lemma add_days_spec dt k :
  1 <= toordinal dt + k <= _MAXORDINAL ->
  exists dt', add_days dt k = Ok dt' /\ valid dt'
              /\ toordinal dt' = toordinal dt + k.
Proof.
  intros Hk. unfold add_days.
  replace ((0 <? toordinal dt + k) && (toordinal dt + k <=? _MAXORDINAL))
    with true
    by (symmetry; apply andb_true_iff; rewrite Z.ltb_lt, Z.leb_le; lia).
  apply fromordinal_spec, Hk.
Qed.

Lemma weekday_range dt : 0 <= weekday dt < 7.
Proof. unfold weekday. apply Z.mod_pos_bound. lia. Qed.

End CalendarFacts.

(** ** The birthday query *)

Section UpcomingFacts.

Import Calendar AddressBook.
Local Open Scope list_scope.

Lemma congratulate_on_spec bty :
  valid bty ->
  exists cd,
    congratulate_on bty = Ok cd /\ valid cd /\ 0 <= weekday cd < 5 /\
    (weekday bty < 5 -> cd = bty) /\
    (weekday bty = 5 -> toordinal cd = toordinal bty + 2) /\
    (weekday bty = 6 -> toordinal cd = toordinal bty + 1).
Proof.
  intros V. pose proof (toordinal_bounds bty V) as B.
  pose proof (weekday_range bty) as W.
  unfold congratulate_on.
  destruct (5 <=? weekday bty) eqn:E.
  - apply Z.leb_le in E.
    assert (K : 1 <= toordinal bty + (7 - weekday bty) <= _MAXORDINAL).
    { unfold weekday, _MAXORDINAL in *. zdm. }
    destruct (add_days_spec bty _ K) as (cd & Hcd & Vcd & Ocd).
    exists cd. split; [exact Hcd|]. split; [exact Vcd|].
    unfold weekday in *. rewrite Ocd.
    split; [zdm|]. split; [intros; exfalso; lia|]. split; intros; zdm.
  - apply Z.leb_gt in E. exists bty.
    split; [reflexivity|]. split; [exact V|]. split; [lia|].
    split; [reflexivity|]. split; intros; lia.
Qed.

Lemma birthday_this_year_valid today b bty :
  birthday_this_year today b = Ok bty -> valid bty.
Proof.
  unfold birthday_this_year.
  destruct (Strptime.strptime b) as [bd|]; cbn [bindR]; [|discriminate].
  destruct (replace_year bd (year today)) as [d1|] eqn:E1; cbn [bindR];
    [|discriminate].
  destruct (lt d1 today).
  - intros H. apply replace_year_inv in H. tauto.
  - intros [= <-]. apply replace_year_inv in E1. tauto.
Qed.

Lemma visit_emits today acc r e :
  emits today r e -> visit today acc r = Ok (acc ++ [e]).
Proof.
  intros (b & bty & cd & Hb & Hbty & Hd & Hcd & ->).
  unfold visit. rewrite Hb, Hbty. cbn [bindR].
  replace ((0 <=? sub_days bty today) && (sub_days bty today <=? 7)) with true
    by (symmetry; apply andb_true_iff; rewrite !Z.leb_le; lia).
  rewrite Hcd. reflexivity.
Qed.

Lemma visit_inv today acc r acc' :
  visit today acc r = Ok acc' ->
  acc' = acc \/ exists e, emits today r e /\ acc' = acc ++ [e].
Proof.
  unfold visit, emits.
  destruct (ContactRecord.birthday r) as [b|]; [|intros [= <-]; now left].
  destruct (birthday_this_year today (value b)) as [bty|] eqn:Hbty;
    cbn [bindR]; [|discriminate].
  destruct ((0 <=? sub_days bty today) && (sub_days bty today <=? 7)) eqn:Hd;
    [|intros [= <-]; now left].
  destruct (congratulate_on bty) as [cd|] eqn:Hcd; cbn [bindR]; [|discriminate].
  intros [= <-]. right.
  apply andb_true_iff in Hd. rewrite !Z.leb_le in Hd.
  eexists. split; [|reflexivity].
  exists b, bty, cd. repeat split; try assumption; lia.
Qed.

Lemma for_each_inv today rs :
  forall acc out,
    for_each today acc rs = Ok out ->
    forall e, In e out ->
              In e acc \/ exists r, In r rs /\ emits today r e.
Proof.
  induction rs as [|r rs IH]; cbn [for_each]; intros acc out H e He.
  - injection H as <-. now left.
  - destruct (visit today acc r) as [acc'|] eqn:Hv; cbn [bindR] in H;
      [|discriminate].
    destruct (IH _ _ H e He) as [Hin | (r' & Hr' & Hem)].
    + destruct (visit_inv _ _ _ _ Hv) as [-> | (e' & Hem & ->)].
      * now left.
      * apply in_app_or in Hin. destruct Hin as [Hin | [<- | []]].
        -- now left.
        -- right. exists r. split; [now left | exact Hem].
    + right. exists r'. split; [now right | exact Hem].
Qed.

Lemma for_each_keeps today rs :
  forall acc out,
    for_each today acc rs = Ok out -> forall e, In e acc -> In e out.
Proof.
  induction rs as [|r rs IH]; cbn [for_each]; intros acc out H e He.
  - injection H as <-. exact He.
  - destruct (visit today acc r) as [acc'|] eqn:Hv; cbn [bindR] in H;
      [|discriminate].
    apply (IH _ _ H).
    destruct (visit_inv _ _ _ _ Hv) as [-> | (e' & _ & ->)];
      [exact He | apply in_or_app; now left].
Qed.

Lemma for_each_complete today rs :
  forall acc out,
    for_each today acc rs = Ok out ->
    forall r e, In r rs -> emits today r e -> In e out.
Proof.
  induction rs as [|r0 rs IH]; cbn [for_each]; intros acc out H r e Hr Hem.
  - destruct Hr.
  - destruct (visit today acc r0) as [acc'|] eqn:Hv; cbn [bindR] in H;
      [|discriminate].
    destruct Hr as [-> | Hr].
    + rewrite (visit_emits _ acc _ _ Hem) in Hv. injection Hv as <-.
      apply (for_each_keeps _ _ _ _ H). apply in_or_app. right. now left.
    + exact (IH _ _ H _ _ Hr Hem).
Qed.

(** A record whose birthday is not within the week leaves the list as
    it is. *)
Lemma visit_skips today acc r b bty :
  ContactRecord.birthday r = Some b ->
  birthday_this_year today (value b) = Ok bty ->
  ~ 0 <= sub_days bty today <= 7 ->
  visit today acc r = Ok acc.
Proof.
  intros Hb Hbty Hd. unfold visit. rewrite Hb, Hbty. cbn [bindR].
  destruct ((0 <=? sub_days bty today) && (sub_days bty today <=? 7)) eqn:E;
    [|reflexivity].
  apply andb_true_iff in E. rewrite !Z.leb_le in E. lia.
Qed.

End UpcomingFacts.

(** ** Records and the book *)

Section RecordFacts.

Import ContactRecord.
Local Open Scope list_scope.

Lemma assign_value_app v (a b : list Field) p :
  assign_value (List.length a) v (a ++ p :: b) = a ++ mkField v :: b.
Proof. induction a as [|q a IH]; cbn; [reflexivity | now rewrite IH]. Qed.

Lemma edit_phone_loop_found old new p l2 :
  value p = old ->
  forall l1 pre self,
    phones self = pre ++ l1 ++ p :: l2 ->
    (forall q, In q l1 -> value q <> old) ->
    edit_phone_loop old new (List.length pre) (l1 ++ p :: l2) self
    = (Ok tt, set_phones (pre ++ l1 ++ mkField new :: l2) self).
Proof.
  intros Hp. induction l1 as [|q l1 IH]; intros pre self Hs Hl1.
  - cbn [app edit_phone_loop]. rewrite Hp, String.eqb_refl.
    unfold bind, get, put, ret. cbn [app] in Hs. rewrite Hs.
    now rewrite assign_value_app.
  - cbn [app edit_phone_loop].
    destruct (String.eqb_spec (value q) old) as [E|_].
    + exfalso. apply (Hl1 q); [now left | exact E].
    + specialize (IH (pre ++ [q]) self).
      rewrite length_app, Nat.add_1_r in IH. cbn [List.length] in IH.
      rewrite <- !app_assoc in IH. cbn [app] in IH.
      apply IH; [exact Hs | intros q' Hq'; apply Hl1; now right].
Qed.

Lemma edit_phone_loop_missing old new :
  forall todo i self,
    (forall q, In q todo -> value q <> old) ->
    edit_phone_loop old new i todo self
    = (Raise (ValueError "Phone number not found"), self).
Proof.
  induction todo as [|q todo IH]; intros i self H; cbn [edit_phone_loop].
  - reflexivity.
  - destruct (String.eqb_spec (value q) old) as [E|_].
    + exfalso. apply (H q); [now left | exact E].
    + apply IH. intros q' Hq'. apply H. now right.
Qed.

(** Whatever the outcome, the loop of [edit_phone] raises only on a
    record it has not touched. *)
Lemma edit_phone_loop_raise old new :
  forall todo i self e self',
    edit_phone_loop old new i todo self = (Raise e, self') -> self' = self.
Proof.
  induction todo as [|q todo IH]; intros i self e self'; cbn [edit_phone_loop].
  - unfold raise. now intros [= _ <-].
  - destruct (value q =? old)%string.
    + unfold bind, get, put, ret. discriminate.
    + apply IH.
Qed.

End RecordFacts.

Section BookFacts.

Import AddressBook.
Local Open Scope list_scope.

Lemma getitem_setitem_same k v d : getitem k (setitem k v d) = Some v.
Proof.
  induction d as [|[k' v'] d IH]; cbn [setitem getitem].
  - now rewrite String.eqb_refl.
  - destruct (k' =? k)%string eqn:E; cbn [getitem]; rewrite E; auto.
Qed.

Lemma getitem_setitem_other k k' v d :
  k' <> k -> getitem k' (setitem k v d) = getitem k' d.
Proof.
  intros Hk. induction d as [|[k0 v0] d IH]; cbn [setitem getitem].
  - destruct (String.eqb_spec k k'); [congruence | reflexivity].
  - destruct (String.eqb_spec k0 k) as [->|]; cbn [getitem].
    + destruct (String.eqb_spec k k'); [congruence | reflexivity].
    + now rewrite IH.
Qed.

Lemma getitem_None k d : getitem k d = None -> ~ In k (keys d).
Proof.
  induction d as [|[k0 v0] d IH]; cbn [getitem keys map fst In]; [tauto|].
  destruct (String.eqb_spec k0 k); [discriminate|]. intros H [E|Hin];
    [congruence | exact (IH H Hin)].
Qed.

(** A key that is present keeps its place; a new key goes last. *)
Lemma keys_setitem k v d :
  keys (setitem k v d) = if contains k d then keys d else keys d ++ [k].
Proof.
  unfold contains.
  induction d as [|[k0 v0] d IH]; cbn [setitem getitem keys map fst app];
    [reflexivity|].
  destruct (k0 =? k)%string; cbn [keys map fst]; [reflexivity|].
  fold (keys (setitem k v d)). rewrite IH. fold (keys d).
  destruct (getitem k d); reflexivity.
Qed.

Lemma setitem_NoDup k v d : NoDup (keys d) -> NoDup (keys (setitem k v d)).
Proof.
  intros H. rewrite keys_setitem. unfold contains.
  destruct (getitem k d) eqn:E; [exact H|].
  apply NoDup_app; [exact H | repeat constructor; intros [] | ].
  intros x Hx [<- | []]. exact (getitem_None _ _ E Hx).
Qed.

Lemma setitem_same k v d : getitem k d = Some v -> setitem k v d = d.
Proof.
  induction d as [|[k0 v0] d IH]; cbn [getitem setitem]; [discriminate|].
  destruct (k0 =? k)%string; [now intros [= ->] | intros H; now rewrite IH].
Qed.

Lemma count_occ_NoDup_In (k : string) (l : list string) :
  NoDup l -> In k l -> count_occ string_dec l k = 1%nat.
Proof.
  intros Hn Hin. pose proof (proj1 (NoDup_count_occ string_dec l) Hn k).
  pose proof (proj1 (count_occ_In string_dec l k) Hin). lia.
Qed.

End BookFacts.

(** ** Digits and their texts *)

Section DigitFacts.

Import Calendar PyStr.

Lemma ord_digit_char v : 0 <= v <= 9 -> ord (digit_char v) = 48 + v.
Proof.
  intros Hv. unfold ord, digit_char.
  rewrite N_ascii_embedding by lia. lia.
Qed.

Lemma digit_char_decimal v : 0 <= v <= 9 -> is_decimal (digit_char v) = true.
Proof.
  intros Hv. unfold is_decimal. rewrite (ord_digit_char v Hv).
  apply andb_true_iff. rewrite !Z.leb_le. lia.
Qed.

Lemma digit_value_char v : 0 <= v <= 9 -> digit_value (digit_char v) = v.
Proof. intros Hv. unfold digit_value. rewrite (ord_digit_char v Hv). lia. Qed.

Lemma decimal_range c : is_decimal c = true -> 0 <= digit_value c <= 9.
Proof.
  unfold is_decimal, digit_value. intros H.
  apply andb_true_iff in H. rewrite !Z.leb_le in H. lia.
Qed.

Lemma digit_char_value c :
  is_decimal c = true -> digit_char (digit_value c) = c.
Proof.
  intros H. pose proof (decimal_range c H) as R.
  unfold digit_char, digit_value, ord in *.
  replace (Z.to_N (48 + (Z.of_N (N_of_ascii c) - 48))) with (N_of_ascii c) by lia.
  apply ascii_N_embedding.
Qed.

Lemma digit_char_inj v w :
  0 <= v <= 9 -> 0 <= w <= 9 -> digit_char v = digit_char w -> v = w.
Proof.
  intros Hv Hw E. apply (f_equal ord) in E.
  rewrite !ord_digit_char in E by assumption. lia.
Qed.

Lemma zfill_1 v : zfill 1 v = String (digit_char (v mod 10)) "".
Proof. reflexivity. Qed.

Lemma zfill_2 v :
  zfill 2 v = String (digit_char (v / 10 mod 10)) (String (digit_char (v mod 10)) "").
Proof. reflexivity. Qed.

Lemma zfill_4 v :
  zfill 4 v =
  String (digit_char (v / 10 / 10 / 10 mod 10))
    (String (digit_char (v / 10 / 10 mod 10))
       (String (digit_char (v / 10 mod 10)) (String (digit_char (v mod 10)) ""))).
Proof. reflexivity. Qed.

Lemma append_nil_r s : (s ++ "")%string = s.
Proof. induction s as [|c s IH]; cbn; [reflexivity | now rewrite IH]. Qed.

Lemma append_assoc s1 s2 s3 :
  ((s1 ++ s2) ++ s3)%string = (s1 ++ (s2 ++ s3))%string.
Proof. induction s1 as [|c s1 IH]; cbn; [reflexivity | now rewrite IH]. Qed.

End DigitFacts.

(** ** [strptime] *)

Section StrptimeFacts.

Import Calendar PyStr Strptime Accepted.

Lemma decimal_not_space c : is_decimal c = true -> is_space c = false.
Proof.
  unfold is_decimal, is_space. intros H.
  apply andb_true_iff in H. rewrite !Z.leb_le in H.
  repeat (apply orb_false_iff; split);
    rewrite ?andb_false_iff, ?Z.eqb_neq, ?Z.leb_gt; lia.
Qed.

Lemma in_range_bounds lo hi c :
  in_range lo hi c = true -> ord lo <= ord c <= ord hi.
Proof.
  unfold in_range. intros H. apply andb_true_iff in H.
  rewrite !Z.leb_le in H. exact H.
Qed.

Lemma bounds_decimal c : 48 <= ord c <= 57 -> is_decimal c = true.
Proof.
  intros H. unfold is_decimal. apply andb_true_iff. rewrite !Z.leb_le. exact H.
Qed.

Lemma int_one c :
  is_decimal c = true -> int (String c "") = Ok (digit_value c).
Proof.
  intros H. unfold int. cbn [lstrip]. rewrite (decimal_not_space c H).
  cbn [digits_value]. now rewrite H.
Qed.

Lemma int_two c1 c2 :
  is_decimal c1 = true -> is_decimal c2 = true ->
  int (String c1 (String c2 "")) = Ok (10 * digit_value c1 + digit_value c2).
Proof.
  intros H1 H2. unfold int. cbn [lstrip]. rewrite (decimal_not_space c1 H1).
  cbn [digits_value]. rewrite H1, H2. f_equal. lia.
Qed.

Lemma int_blank_one c :
  is_decimal c = true -> int (String " " (String c "")) = Ok (digit_value c).
Proof.
  intros H. unfold int. cbn [lstrip].
  change (is_space " ") with true. cbn iota. rewrite (decimal_not_space c H).
  cbn [digits_value]. now rewrite H.
Qed.

Lemma int_four c1 c2 c3 c4 :
  is_decimal c1 = true -> is_decimal c2 = true ->
  is_decimal c3 = true -> is_decimal c4 = true ->
  int (String c1 (String c2 (String c3 (String c4 ""))))
  = Ok (1000 * digit_value c1 + 100 * digit_value c2
        + 10 * digit_value c3 + digit_value c4).
Proof.
  intros H1 H2 H3 H4. unfold int. cbn [lstrip].
  rewrite (decimal_not_space c1 H1).
  cbn [digits_value]. rewrite H1, H2, H3, H4. f_equal. lia.
Qed.

Lemma text_one c :
  is_decimal c = true -> String c "" = zfill 1 (digit_value c).
Proof.
  intros H. pose proof (decimal_range c H). rewrite zfill_1.
  replace (digit_value c mod 10) with (digit_value c) by zdm.
  now rewrite digit_char_value.
Qed.

Lemma text_two c1 c2 :
  is_decimal c1 = true -> is_decimal c2 = true ->
  String c1 (String c2 "") = zfill 2 (10 * digit_value c1 + digit_value c2).
Proof.
  intros H1 H2. pose proof (decimal_range c1 H1). pose proof (decimal_range c2 H2).
  rewrite zfill_2.
  replace ((10 * digit_value c1 + digit_value c2) / 10 mod 10)
    with (digit_value c1) by zdm.
  replace ((10 * digit_value c1 + digit_value c2) mod 10)
    with (digit_value c2) by zdm.
  now rewrite !digit_char_value.
Qed.

Lemma text_four c1 c2 c3 c4 :
  is_decimal c1 = true -> is_decimal c2 = true ->
  is_decimal c3 = true -> is_decimal c4 = true ->
  String c1 (String c2 (String c3 (String c4 "")))
  = zfill 4 (1000 * digit_value c1 + 100 * digit_value c2
             + 10 * digit_value c3 + digit_value c4).
Proof.
  intros H1 H2 H3 H4.
  pose proof (decimal_range c1 H1). pose proof (decimal_range c2 H2).
  pose proof (decimal_range c3 H3). pose proof (decimal_range c4 H4).
  rewrite zfill_4.
  set (v := 1000 * digit_value c1 + 100 * digit_value c2
            + 10 * digit_value c3 + digit_value c4).
  replace (v / 10 / 10 / 10 mod 10) with (digit_value c1) by (subst v; zdm).
  replace (v / 10 / 10 mod 10) with (digit_value c2) by (subst v; zdm).
  replace (v / 10 mod 10) with (digit_value c3) by (subst v; zdm).
  replace (v mod 10) with (digit_value c4) by (subst v; zdm).
  now rewrite !digit_char_value.
Qed.

(** What the matcher accepts is matched by the expression. *)
Lemma rmatch_sound {A : Type} r :
  forall s (k : string -> string -> option A) a,
    rmatch r s k = Some a ->
    exists m rest, s = (m ++ rest)%string /\ matches r m /\ k m rest = Some a.
Proof.
  induction r as [c | lo hi | | r1 IH1 r2 IH2 | r1 IH1 r2 IH2];
    intros s k a; cbn [rmatch].
  - unfold one. destruct s as [|c' s]; [discriminate|].
    destruct (Ascii.eqb_spec c c') as [<-|]; [|discriminate].
    intros H. exists (String c ""), s. repeat split; [constructor | exact H].
  - unfold one. destruct s as [|c' s]; [discriminate|].
    destruct (in_range lo hi c') eqn:E; [|discriminate].
    intros H. exists (String c' ""), s.
    repeat split; [now constructor | exact H].
  - unfold one. destruct s as [|c' s]; [discriminate|].
    destruct (is_decimal c') eqn:E; [|discriminate].
    intros H. exists (String c' ""), s.
    repeat split; [now constructor | exact H].
  - intros H. apply IH1 in H. destruct H as (m1 & s1 & -> & M1 & H).
    apply IH2 in H. destruct H as (m2 & s2 & -> & M2 & H).
    exists (m1 ++ m2)%string, s2. rewrite append_assoc.
    repeat split; [now constructor | exact H].
  - destruct (rmatch r1 s k) as [a'|] eqn:E.
    + intros [= <-]. apply IH1 in E. destruct E as (m & rest & -> & M & H).
      exists m, rest. repeat split; [now apply matches_Alt_l | exact H].
    + intros H. apply IH2 in H. destruct H as (m & rest & -> & M & H).
      exists m, rest. repeat split; [now apply matches_Alt_r | exact H].
Qed.

Ltac invert_matches :=
  repeat match goal with
         | H : matches (Alt _ _) _ |- _ => inversion H; clear H; subst
         | H : matches (Seq _ _) _ |- _ => inversion H; clear H; subst
         | H : matches (Lit _) _ |- _ => inversion H; clear H; subst
         | H : matches (Range _ _) _ |- _ => inversion H; clear H; subst
         | H : matches Digit _ |- _ => inversion H; clear H; subst
         end.

Ltac range_facts :=
  repeat match goal with
         | H : in_range _ _ _ = true |- _ =>
             apply in_range_bounds in H;
             change (ord "0") with 48 in H; change (ord "1") with 49 in H;
             change (ord "2") with 50 in H; change (ord "9") with 57 in H
         end.

Lemma matches_re_d t :
  matches re_d t -> exists d, int t = Ok d /\ day_text t d.
Proof.
  unfold re_d, day_text. intros M. invert_matches; range_facts; cbn [append].
  - assert (D : is_decimal c = true) by (apply bounds_decimal; lia).
    exists (10 * digit_value "3" + digit_value c).
    rewrite (int_two "3" c eq_refl D), <- (text_two "3" c eq_refl D).
    change (digit_value "3") with 3. unfold digit_value.
    repeat split; try lia. now left.
  - match goal with
    | Hr : _ <= ord ?c1 <= _, Hd : is_decimal ?c2 = true |- _ =>
        assert (D : is_decimal c1 = true) by (apply bounds_decimal; lia);
        exists (10 * digit_value c1 + digit_value c2);
        rewrite (int_two c1 c2 D Hd), <- (text_two c1 c2 D Hd);
        pose proof (decimal_range c2 Hd)
    end.
    unfold digit_value in *.
    repeat split; try lia. now left.
  - assert (D : is_decimal c = true) by (apply bounds_decimal; lia).
    exists (10 * digit_value "0" + digit_value c).
    rewrite (int_two "0" c eq_refl D), <- (text_two "0" c eq_refl D).
    change (digit_value "0") with 0. unfold digit_value.
    repeat split; try lia. now left.
  - assert (D : is_decimal c = true) by (apply bounds_decimal; lia).
    exists (digit_value c).
    rewrite (int_one c D), <- (text_one c D). unfold digit_value.
    repeat split; try lia. right. split; [lia | now left].
  - assert (D : is_decimal c = true) by (apply bounds_decimal; lia).
    exists (digit_value c).
    rewrite (int_blank_one c D), <- (text_one c D). unfold digit_value.
    repeat split; try lia. right. split; [lia | now right].
Qed.

Lemma matches_re_m t :
  matches re_m t -> exists m, int t = Ok m /\ month_text t m.
Proof.
  unfold re_m, month_text. intros M. invert_matches; range_facts; cbn [append].
  - assert (D : is_decimal c = true) by (apply bounds_decimal; lia).
    exists (10 * digit_value "1" + digit_value c).
    rewrite (int_two "1" c eq_refl D), <- (text_two "1" c eq_refl D).
    change (digit_value "1") with 1. unfold digit_value.
    repeat split; try lia. now left.
  - assert (D : is_decimal c = true) by (apply bounds_decimal; lia).
    exists (10 * digit_value "0" + digit_value c).
    rewrite (int_two "0" c eq_refl D), <- (text_two "0" c eq_refl D).
    change (digit_value "0") with 0. unfold digit_value.
    repeat split; try lia. now left.
  - assert (D : is_decimal c = true) by (apply bounds_decimal; lia).
    exists (digit_value c).
    rewrite (int_one c D), <- (text_one c D). unfold digit_value.
    repeat split; try lia. right. split; [lia | reflexivity].
Qed.

Lemma matches_re_Y t :
  matches re_Y t -> exists y, int t = Ok y /\ year_text t y.
Proof.
  unfold re_Y, year_text. intros M. invert_matches; cbn [append].
  match goal with
  | H1 : is_decimal ?c1 = true, H2 : is_decimal ?c2 = true,
    H3 : is_decimal ?c3 = true, H4 : is_decimal ?c4 = true
    |- context [String ?c1 (String ?c2 (String ?c3 (String ?c4 "")))] =>
      exists (1000 * digit_value c1 + 100 * digit_value c2
              + 10 * digit_value c3 + digit_value c4);
      rewrite (int_four c1 c2 c3 c4 H1 H2 H3 H4),
        <- (text_four c1 c2 c3 c4 H1 H2 H3 H4);
      pose proof (decimal_range c1 H1); pose proof (decimal_range c2 H2);
      pose proof (decimal_range c3 H3); pose proof (decimal_range c4 H4)
  end.
  repeat split; lia.
Qed.

End StrptimeFacts.

Section StrptimeComplete.

Import Calendar PyStr Strptime Accepted.

Ltac texts :=
  repeat match goal with
         | |- context [zfill ?w (Z.pos ?p)] =>
             let v := eval vm_compute in (zfill w (Z.pos p)) in
             change (zfill w (Z.pos p)) with v
         end.

Ltac split_nat n fuel :=
  lazymatch fuel with
  | O => idtac
  | S ?f => destruct n as [|n]; [|split_nat n f]
  end.

(** One case for each value of a number between 0 and 31. *)
Ltac each_of d :=
  let n := fresh "n" in
  let E := fresh "E" in
  remember (Z.to_nat d) as n eqn:E;
  assert (d = Z.of_nat n) by lia; subst d; clear E;
  split_nat n 32%nat; try (exfalso; lia).

Lemma found_day {A : Type} t d rest (k : string -> string -> string -> option A) :
  day_text t d ->
  rmatch re_d (t ++ String "." rest)
         (fun d s1 => rmatch (Lit ".") s1 (k d))
  = k t "." rest
  /\ int t = Ok d.
Proof.
  intros [Hd Ht].
  each_of d;
    (destruct Ht as [-> | [H9 [-> | ->]]]; try (exfalso; lia));
    cbn [Z.of_nat Pos.of_succ_nat Pos.succ]; texts;
    (split; [vm_compute; destruct (k _ _ _); reflexivity | reflexivity]).
Qed.

Lemma found_month {A : Type} t m rest (k : string -> string -> string -> option A) :
  month_text t m ->
  rmatch re_m (t ++ String "." rest)
         (fun m s1 => rmatch (Lit ".") s1 (k m))
  = k t "." rest
  /\ int t = Ok m.
Proof.
  intros [Hm Ht].
  each_of m;
    (destruct Ht as [-> | [H9 ->]]; try (exfalso; lia));
    cbn [Z.of_nat Pos.of_succ_nat Pos.succ]; texts;
    (split; [vm_compute; destruct (k _ _ _); reflexivity | reflexivity]).
Qed.

Lemma found_year {A : Type} t y rest (k : string -> string -> option A) :
  year_text t y ->
  rmatch re_Y (t ++ rest) k = k t rest /\ int t = Ok y.
Proof.
  intros [Hy ->]. rewrite zfill_4.
  set (v1 := y / 10 / 10 / 10 mod 10). set (v2 := y / 10 / 10 mod 10).
  set (v3 := y / 10 mod 10). set (v4 := y mod 10).
  assert (R1 : 0 <= v1 <= 9) by (subst v1; zdm).
  assert (R2 : 0 <= v2 <= 9) by (subst v2; zdm).
  assert (R3 : 0 <= v3 <= 9) by (subst v3; zdm).
  assert (R4 : 0 <= v4 <= 9) by (subst v4; zdm).
  assert (Ey : y = 1000 * v1 + 100 * v2 + 10 * v3 + v4)
    by (subst v1 v2 v3 v4; zdm).
  clearbody v1 v2 v3 v4.
  pose proof (digit_char_decimal v1 R1) as D1.
  pose proof (digit_char_decimal v2 R2) as D2.
  pose proof (digit_char_decimal v3 R3) as D3.
  pose proof (digit_char_decimal v4 R4) as D4.
  split.
  - unfold re_Y. cbn [rmatch one append]. rewrite D1, D2, D3, D4. reflexivity.
  - rewrite (int_four _ _ _ _ D1 D2 D3 D4), !digit_value_char by assumption.
    now rewrite Ey.
Qed.

Lemma found_text dt mt yt d m y :
  day_text dt d -> month_text mt m -> year_text yt y ->
  found (dt ++ "." ++ mt ++ "." ++ yt) = Some (dt, mt, yt, "").
Proof.
  intros Hd Hm Hy. unfold found. cbn [append].
  rewrite (proj1 (found_day dt d _ _ Hd)).
  rewrite (proj1 (found_month mt m _ _ Hm)).
  rewrite <- (append_nil_r yt) at 1.
  rewrite (proj1 (found_year yt y "" _ Hy)). reflexivity.
Qed.

Lemma strptime_complete s dt :
  birthday_text s dt -> strptime s = Ok dt.
Proof.
  intros (d & m & y & -> & Hd & Hm & Hy & V).
  unfold strptime. rewrite (found_text _ _ _ _ _ _ Hd Hm Hy).
  change (negb ("" =? "")%string) with false. cbn iota.
  rewrite (proj2 (found_year _ _ "" (fun _ _ => @None unit) Hy)).
  rewrite (proj2 (found_month _ _ "" (fun _ _ _ => @None unit) Hm)).
  rewrite (proj2 (found_day _ _ "" (fun _ _ _ => @None unit) Hd)).
  cbn [bindR]. exact (date_new_valid dt V).
Qed.

Lemma strptime_sound s dt :
  strptime s = Ok dt -> birthday_text s dt.
Proof.
  unfold strptime.
  destruct (found s) as [[[[d m] y] rest]|] eqn:F; [|discriminate].
  destruct (String.eqb_spec rest "") as [->|]; [|discriminate]. cbn [negb].
  unfold found in F.
  apply rmatch_sound in F. destruct F as (d' & s1 & -> & Md & F).
  apply rmatch_sound in F. destruct F as (p1 & s2 & -> & Mp1 & F).
  apply rmatch_sound in F. destruct F as (m' & s3 & -> & Mm & F).
  apply rmatch_sound in F. destruct F as (p2 & s4 & -> & Mp2 & F).
  apply rmatch_sound in F. destruct F as (y' & s5 & -> & My & F).
  injection F as -> -> -> ->.
  inversion Mp1; subst. inversion Mp2; subst.
  destruct (matches_re_d _ Md) as (dv & Id & Td).
  destruct (matches_re_m _ Mm) as (mv & Im & Tm).
  destruct (matches_re_Y _ My) as (yv & Iy & Ty).
  rewrite Iy, Im, Id. cbn [bindR]. intros H.
  apply date_new_inv in H. destruct H as [-> V].
  exists d, m, y. rewrite append_nil_r. cbn [year month day].
  split; [reflexivity|]. split; [exact Td|]. split; [exact Tm|].
  split; [exact Ty | exact V].
Qed.

Theorem strptime_accepts s dt : strptime s = Ok dt <-> birthday_text s dt.
Proof. split; [apply strptime_sound | apply strptime_complete]. Qed.

Lemma int_raises s e : int s = Raise e -> exists msg, e = ValueError msg.
Proof.
  unfold int. destruct (lstrip s); [intros [= <-]; eauto|].
  destruct (digits_value 0 _); [discriminate | intros [= <-]; eauto].
Qed.

Lemma date_new_raises y m d e :
  date_new y m d = Raise e -> exists msg, e = ValueError msg.
Proof.
  unfold date_new.
  repeat match goal with
         | |- context [if ?b then _ else _] => destruct b
         end; intros [= <-]; eauto.
Qed.

Lemma strptime_raises s e :
  strptime s = Raise e -> exists msg, e = ValueError msg.
Proof.
  unfold strptime.
  destruct (found s) as [[[[d m] y] rest]|]; [|intros [= <-]; eauto].
  destruct (negb (rest =? "")%string); [intros [= <-]; eauto|].
  destruct (int y) as [yv|ey] eqn:Ey; cbn [bindR];
    [|intros [= <-]; exact (int_raises _ _ Ey)].
  destruct (int m) as [mv|em] eqn:Em; cbn [bindR];
    [|intros [= <-]; exact (int_raises _ _ Em)].
  destruct (int d) as [dv|ed] eqn:Ed; cbn [bindR];
    [|intros [= <-]; exact (int_raises _ _ Ed)].
  apply date_new_raises.
Qed.

Lemma validate_true s :
  Birthday.validate s = Ok true <-> exists dt, birthday_text s dt.
Proof.
  unfold Birthday.validate. split.
  - destruct (strptime s) as [dt|[msg|msg]] eqn:E; try discriminate.
    intros _. exists dt. now apply strptime_accepts.
  - intros [dt H]. apply strptime_accepts in H. now rewrite H.
Qed.

Lemma validate_total s :
  Birthday.validate s = Ok true \/ Birthday.validate s = Ok false.
Proof.
  unfold Birthday.validate.
  destruct (strptime s) as [dt|e] eqn:E; [now left|].
  destruct (strptime_raises _ _ E) as [msg ->]. now right.
Qed.

End StrptimeComplete.

(** ** The documented rules against the code *)

Section DocumentedFacts.

Import Calendar PyStr Strptime Accepted.
Local Open Scope list_scope.

Lemma days_in_month_bounds y m :
  1 <= m <= 12 -> 28 <= _days_in_month y m <= 31.
Proof.
  intros Hm. unfold _days_in_month.
  assert (Hc : m = 1 \/ m = 2 \/ m = 3 \/ m = 4 \/ m = 5 \/ m = 6 \/ m = 7
               \/ m = 8 \/ m = 9 \/ m = 10 \/ m = 11 \/ m = 12) by lia.
  destruct (_is_leap y);
    repeat (destruct Hc as [-> | Hc]; [table_lookup; cbn [andb]; lia|]);
    subst m; table_lookup; cbn [andb]; lia.
Qed.

Lemma strftime_inj d d' :
  valid d -> valid d' -> strftime_Ymd d = strftime_Ymd d' -> d = d'.
Proof.
  intros (Hy & Hm & Hd) (Hy' & Hm' & Hd').
  pose proof (days_in_month_bounds (year d) (month d) Hm).
  pose proof (days_in_month_bounds (year d') (month d') Hm').
  unfold MINYEAR, MAXYEAR in *.
  unfold strftime_Ymd. rewrite !zfill_4, !zfill_2. cbn [append].
  intros E. injection E as E1 E2 E3 E4 E5 E6 E7 E8.
  apply digit_char_inj in E1, E2, E3, E4, E5, E6, E7, E8; try zdm.
  destruct d as [y m dd], d' as [y' m' dd']. cbn [year month day] in *.
  f_equal; zdm.
Qed.

Lemma isdigit_forall s :
  isdigit s = true <->
  s <> ""%string /\ forall c, In c (list_ascii_of_string s) -> isdigit_char c = true.
Proof.
  unfold isdigit. destruct s as [|c s].
  - split; [discriminate | intros [H _]; congruence].
  - rewrite forallb_forall. split; [intros H; split; [discriminate | exact H] | tauto].
Qed.

Lemma decimal_isdigit c : is_decimal c = true -> isdigit_char c = true.
Proof. unfold isdigit_char. now intros ->. Qed.

Lemma len_nonempty s : len s = 10 -> s <> ""%string.
Proof. intros H ->. discriminate H. Qed.

Lemma phone_validate_iff s :
  Phone.validate s = true <->
  len s = 10 /\ forall c, In c (list_ascii_of_string s) -> isdigit_char c = true.
Proof.
  unfold Phone.validate. rewrite andb_true_iff, Z.eqb_eq, isdigit_forall.
  split; [tauto|]. intros [H1 H2]. auto using len_nonempty.
Qed.

Lemma documented_birthday s :
  Documented.validate_birthday s = true -> Birthday.validate s = Ok true.
Proof.
  unfold Documented.validate_birthday, Documented.chars.
  do 10 (destruct s as [|? s]; cbn [list_ascii_of_string]; [discriminate|]).
  destruct s; [|discriminate]. cbn [list_ascii_of_string].
  rewrite !andb_true_iff. intros [[[D P1] P2] R].
  cbn [forallb] in D. rewrite !andb_true_iff in D.
  destruct D as (D1 & D2 & D3 & D4 & D5 & D6 & D7 & D8 & _).
  apply Ascii.eqb_eq in P1, P2. subst.
  unfold Documented.real_date in R. rewrite !andb_true_iff, !Z.leb_le in R.
  unfold Documented.number in R. cbn [fold_left] in R.
  apply validate_true.
  match goal with
  | |- context [String ?d1 (String ?d2 (String "." (String ?m1 (String ?m2
         (String "." (String ?y1 (String ?y2 (String ?y3 (String ?y4 "")))))))))] =>
      exists (mkdate (1000 * digit_value y1 + 100 * digit_value y2
                      + 10 * digit_value y3 + digit_value y4)
                     (10 * digit_value m1 + digit_value m2)
                     (10 * digit_value d1 + digit_value d2));
      exists (String d1 (String d2 "")), (String m1 (String m2 "")),
             (String y1 (String y2 (String y3 (String y4 ""))));
      replace ((((0 * 10 + digit_value y1) * 10 + digit_value y2) * 10
                + digit_value y3) * 10 + digit_value y4)
        with (1000 * digit_value y1 + 100 * digit_value y2
              + 10 * digit_value y3 + digit_value y4) in R by lia;
      replace ((0 * 10 + digit_value m1) * 10 + digit_value m2)
        with (10 * digit_value m1 + digit_value m2) in R by lia;
      replace ((0 * 10 + digit_value d1) * 10 + digit_value d2)
        with (10 * digit_value d1 + digit_value d2) in R by lia;
      pose proof (days_in_month_bounds
                    (1000 * digit_value y1 + 100 * digit_value y2
                     + 10 * digit_value y3 + digit_value y4)
                    (10 * digit_value m1 + digit_value m2) ltac:(lia)) as B
  end.
  cbn [year month day].
  split; [reflexivity|].
  split; [split; [lia | left; now apply text_two]|].
  split; [split; [lia | left; now apply text_two]|].
  split; [split; [lia | now apply text_four]|].
  unfold valid, MINYEAR, MAXYEAR. cbn [year month day]. lia.
Qed.

End DocumentedFacts.

(** ** When the query returns *)

Section UpcomingReturns.

Import Calendar AddressBook.
Local Open Scope list_scope.

(** Apart from 29 February, a day of a month exists in every year. *)
Lemma day_in_any_year y y' m d :
1 <= d <= _days_in_month y m -> ~ (m = 2 /\ d = 29) ->
1 <= d <= _days_in_month y' m.
Proof.
unfold _days_in_month.
destruct (Z.eqb_spec m 2) as [->|]; cbn [andb].
- table_lookup. destruct (_is_leap y), (_is_leap y'); lia.
- tauto.
Qed.

Lemma birthday_this_year_returns today b bd :
valid today -> year today < MAXYEAR ->
Strptime.strptime b = Ok bd ->
~ (month bd = 2 /\ day bd = 29) ->
exists bty, birthday_this_year today b = Ok bty.
Proof.
intros (Hy & _) Hmax Hb Hn. unfold birthday_this_year. rewrite Hb.
cbn [bindR].
apply strptime_accepts in Hb. destruct Hb as (_ & _ & _ & _ & _ & _ & _ & V).
destruct V as (_ & Hm & Hd).
assert (V1 : valid (mkdate (year today) (month bd) (day bd))).
{ split; [exact Hy|]. split; [exact Hm|].
  exact (day_in_any_year _ _ _ _ Hd Hn). }
pose proof (date_new_valid _ V1) as E1. cbn [year month day] in E1.
unfold replace_year. rewrite E1. cbn [bindR].
destruct (lt _ today); [|eauto].
cbn [year month day].
assert (V2 : valid (mkdate (year today + 1) (month bd) (day bd))).
{ unfold valid, MINYEAR, MAXYEAR in *. split; [cbn [year]; lia|].
  split; [exact Hm|]. exact (day_in_any_year _ _ _ _ Hd Hn). }
pose proof (date_new_valid _ V2) as E2. cbn [year month day] in E2.
rewrite E2. eauto.
Qed.

Lemma visit_returns today upcoming r :
valid today -> year today < MAXYEAR ->
(forall b, ContactRecord.birthday r = Some b ->
           exists bd, Strptime.strptime (value b) = Ok bd
                      /\ ~ (month bd = 2 /\ day bd = 29)) ->
exists upcoming', visit today upcoming r = Ok upcoming'.
Proof.
intros V Hmax Hr. unfold visit.
destruct (ContactRecord.birthday r) as [b|]; [|eauto].
destruct (Hr b eq_refl) as (bd & Hb & Hn).
destruct (birthday_this_year_returns today _ bd V Hmax Hb Hn) as [bty Hbty].
rewrite Hbty. cbn [bindR].
destruct ((0 <=? sub_days bty today) && (sub_days bty today <=? 7)); [|eauto].
destruct (congratulate_on_spec bty (birthday_this_year_valid _ _ _ Hbty))
  as (cd & Hcd & _).
rewrite Hcd. cbn [bindR]. eauto.
Qed.

(** X14.  The query returns a list on every day before year 9999 when no birthday
  in the book is a 29 February. *)
Lemma upcoming_returns_without_leap_day today book :
valid today -> year today < MAXYEAR ->
(forall r b, In r (values book) -> ContactRecord.birthday r = Some b ->
             exists bd, Strptime.strptime (value b) = Ok bd
                        /\ ~ (month bd = 2 /\ day bd = 29)) ->
exists out, get_upcoming_birthdays today book = Ok out.
Proof.
intros V Hmax. unfold get_upcoming_birthdays.
generalize (@nil entry). induction (values book) as [|r rs IH];
  intros upcoming H; cbn [for_each]; [eauto|].
destruct (visit_returns today upcoming r V Hmax) as [upcoming' Hv].
{ intros b Hb. apply (H r b); [now left | exact Hb]. }
rewrite Hv. cbn [bindR]. apply IH.
intros r' b Hr'. apply H. now right.
Qed.

End UpcomingReturns.

(** * [strptime] on texts of any characters *)

Section WideFacts.

Variable decimal_above : Z -> option Z.
Variable space_above : Z -> bool.
Hypothesis tables : Wide.tables_ok decimal_above space_above.

Local Open Scope list_scope.

Local Abbreviation decimal := (Wide.decimal decimal_above).
Local Abbreviation isdecimal := (Wide.isdecimal decimal_above).
Local Abbreviation isspace := (Wide.isspace space_above).
Local Abbreviation wmatch := (Wide.rmatch decimal_above).
Local Abbreviation wint := (Wide.int decimal_above space_above).
Local Abbreviation digit := (Wide.digit decimal_above).

Lemma decimal_ascii c : 48 <= c <= 57 -> decimal c = Some (c - 48).
Proof.
  intros H. unfold Wide.decimal.
  replace (c <? 256) with true by (symmetry; apply Z.ltb_lt; lia).
  replace ((48 <=? c) && (c <=? 57)) with true
    by (symmetry; apply andb_true_iff; rewrite !Z.leb_le; lia).
  reflexivity.
Qed.

Lemma ascii_is_digit c v : Wide.ascii_digit c v -> digit c v.
Proof.
  intros [Hv ->]. unfold Wide.digit. rewrite decimal_ascii by lia.
  f_equal. lia.
Qed.

Lemma digit_range c v : digit c v -> 0 <= v <= 9.
Proof.
  unfold Wide.digit, Wide.decimal. destruct (c <? 256).
  - destruct ((48 <=? c) && (c <=? 57)) eqn:E; [|discriminate].
    apply andb_true_iff in E. rewrite !Z.leb_le in E. intros [= <-]. lia.
  - apply (proj1 tables).
Qed.

Lemma digit_not_space c v : digit c v -> isspace c = false.
Proof.
  unfold Wide.digit, Wide.decimal, Wide.isspace. destruct (c <? 256).
  - destruct ((48 <=? c) && (c <=? 57)) eqn:E; [|discriminate].
    apply andb_true_iff in E. rewrite !Z.leb_le in E. intros _.
    repeat (apply orb_false_iff; split);
      rewrite ?andb_false_iff, ?Z.eqb_neq, ?Z.leb_gt; lia.
  - apply (proj2 tables).
Qed.

Lemma digit_below c v : digit c v -> c < 256 -> Wide.ascii_digit c v.
Proof.
  unfold Wide.digit, Wide.decimal. intros H Hc.
  replace (c <? 256) with true in H by (symmetry; apply Z.ltb_lt; lia).
  destruct ((48 <=? c) && (c <=? 57)) eqn:E; [|discriminate].
  apply andb_true_iff in E. rewrite !Z.leb_le in E. injection H as <-.
  split; lia.
Qed.

Lemma digit_isdecimal c v : digit c v -> isdecimal c = true.
Proof. unfold Wide.digit, Wide.isdecimal. now intros ->. Qed.

Lemma wide_int_digits t :
  forall c v, digit c v ->
  wint (c :: t) =
  match Wide.digits_value decimal_above v t with
  | Some n => Ok n
  | None => Raise (ValueError "invalid literal for int() with base 10")
  end.
Proof.
  intros c v H. unfold Wide.int. cbn [Wide.lstrip].
  rewrite (digit_not_space c v H). cbn [Wide.digits_value].
  unfold Wide.digit in H. rewrite H. reflexivity.
Qed.

Lemma wide_int_one c v : digit c v -> wint [c] = Ok v.
Proof. intros H. now rewrite (wide_int_digits [] c v H). Qed.

Lemma wide_int_two c1 c2 v1 v2 :
  digit c1 v1 -> digit c2 v2 -> wint [c1; c2] = Ok (10 * v1 + v2).
Proof.
  intros H1 H2. rewrite (wide_int_digits _ c1 v1 H1). cbn [Wide.digits_value].
  unfold Wide.digit in H2. rewrite H2. f_equal. lia.
Qed.

Lemma wide_int_blank_one c v : digit c v -> wint [32; c] = Ok v.
Proof.
  intros H. unfold Wide.int. cbn [Wide.lstrip].
  change (isspace 32) with true. cbv iota.
  rewrite (digit_not_space c v H). cbn [Wide.digits_value].
  unfold Wide.digit in H. now rewrite H.
Qed.

Lemma wide_int_four c1 c2 c3 c4 v1 v2 v3 v4 :
  digit c1 v1 -> digit c2 v2 -> digit c3 v3 -> digit c4 v4 ->
  wint [c1; c2; c3; c4] = Ok (1000 * v1 + 100 * v2 + 10 * v3 + v4).
Proof.
  intros H1 H2 H3 H4. rewrite (wide_int_digits _ c1 v1 H1). cbn [Wide.digits_value].
  unfold Wide.digit in *. rewrite H2, H3, H4. f_equal. lia.
Qed.

Lemma wmatch_sound {A : Type} r :
  forall s (k : Wide.text -> Wide.text -> option A) a,
    wmatch r s k = Some a ->
    exists m rest, s = m ++ rest /\ Wide.matches decimal_above r m
                   /\ k m rest = Some a.
Proof.
  induction r as [c | lo hi | | r1 IH1 r2 IH2 | r1 IH1 r2 IH2];
    intros s k a; cbn [Wide.rmatch].
  - unfold Wide.one. destruct s as [|c' s]; [discriminate|].
    destruct (Z.eqb_spec (PyStr.ord c) c') as [<-|]; [|discriminate].
    intros H. exists [PyStr.ord c], s. repeat split; [constructor | exact H].
  - unfold Wide.one. destruct s as [|c' s]; [discriminate|].
    destruct ((PyStr.ord lo <=? c') && (c' <=? PyStr.ord hi)) eqn:E;
      [|discriminate].
    apply andb_true_iff in E. rewrite !Z.leb_le in E.
    intros H. exists [c'], s. repeat split; [now constructor | exact H].
  - unfold Wide.one, Wide.isdecimal. destruct s as [|c' s]; [discriminate|].
    destruct (decimal c') as [v|] eqn:E; [|discriminate].
    intros H. exists [c'], s. repeat split; [now apply (Wide.matches_Digit _ c' v) | exact H].
  - intros H. apply IH1 in H. destruct H as (m1 & s1 & -> & M1 & H).
    apply IH2 in H. destruct H as (m2 & s2 & -> & M2 & H).
    exists (m1 ++ m2), s2. rewrite app_assoc.
    repeat split; [now constructor | exact H].
  - destruct (wmatch r1 s k) as [a'|] eqn:E.
    + intros [= <-]. apply IH1 in E. destruct E as (m & rest & -> & M & H).
      exists m, rest. repeat split; [now apply Wide.matches_Alt_l | exact H].
    + intros H. apply IH2 in H. destruct H as (m & rest & -> & M & H).
      exists m, rest. repeat split; [now apply Wide.matches_Alt_r | exact H].
Qed.

Ltac invert_wide :=
  repeat match goal with
         | H : Wide.matches _ (Strptime.Alt _ _) _ |- _ => inversion H; clear H; subst
         | H : Wide.matches _ (Strptime.Seq _ _) _ |- _ => inversion H; clear H; subst
         | H : Wide.matches _ (Strptime.Lit _) _ |- _ => inversion H; clear H; subst
         | H : Wide.matches _ (Strptime.Range _ _) _ |- _ => inversion H; clear H; subst
         | H : Wide.matches _ Strptime.Digit _ |- _ => inversion H; clear H; subst
         end.

Ltac ords :=
  change (PyStr.ord "0") with 48 in *; change (PyStr.ord "1") with 49 in *;
  change (PyStr.ord "2") with 50 in *; change (PyStr.ord "3") with 51 in *;
  change (PyStr.ord "9") with 57 in *; change (PyStr.ord " ") with 32 in *;
  change (PyStr.ord ".") with 46 in *.

Lemma matches_re_d_wide t :
  Wide.matches decimal_above Strptime.re_d t ->
  exists d, wint t = Ok d /\ Wide.day_text decimal_above t d.
Proof.
  unfold Strptime.re_d, Wide.day_text. intros M. invert_wide; ords; cbn [app].
  - (* 3[0-1] *)
    exists (10 * 3 + (c - 48)).
    rewrite (wide_int_two 51 c 3 (c - 48) eq_refl (decimal_ascii c ltac:(lia))).
    split; [reflexivity|]. split; [lia|]. left. exists 51, c.
    split; [reflexivity|]. split; [split; zdm|]. right. split; zdm.
  - (* [1-2]\d *)
    match goal with
    | Hr : _ <= ?c1 <= _, Hd : decimal ?c2 = Some ?v |- _ =>
        pose proof (digit_range c2 v Hd) as R;
        exists (10 * (c1 - 48) + v);
        rewrite (wide_int_two c1 c2 (c1 - 48) v (decimal_ascii c1 ltac:(lia)) Hd);
        split; [reflexivity|]; split; [lia|]; left; exists c1, c2;
        split; [reflexivity|]; split; [split; zdm|]; left; split; [lia|];
        unfold Wide.digit; rewrite Hd; f_equal; zdm
    end.
  - (* 0[1-9] *)
    exists (10 * 0 + (c - 48)).
    rewrite (wide_int_two 48 c 0 (c - 48) eq_refl (decimal_ascii c ltac:(lia))).
    split; [reflexivity|]. split; [lia|]. left. exists 48, c.
    split; [reflexivity|]. split; [split; zdm|]. right. split; zdm.
  - (* [1-9] *)
    exists (c - 48). rewrite (wide_int_one c (c - 48) (decimal_ascii c ltac:(lia))).
    split; [reflexivity|]. split; [lia|]. right. split; [lia|]. left.
    f_equal. lia.
  - (* blank and [1-9] *)
    exists (c - 48).
    rewrite (wide_int_blank_one c (c - 48) (decimal_ascii c ltac:(lia))).
    split; [reflexivity|]. split; [lia|]. right. split; [lia|]. right.
    f_equal. f_equal. lia.
Qed.

Lemma matches_re_m_wide t :
  Wide.matches decimal_above Strptime.re_m t ->
  exists m, wint t = Ok m /\ Wide.month_text t m.
Proof.
  unfold Strptime.re_m, Wide.month_text. intros M. invert_wide; ords; cbn [app].
  - exists (10 * 1 + (c - 48)).
    rewrite (wide_int_two 49 c 1 (c - 48) eq_refl (decimal_ascii c ltac:(lia))).
    split; [reflexivity|]. split; [lia|]. left. f_equal; [|f_equal]; zdm.
  - exists (10 * 0 + (c - 48)).
    rewrite (wide_int_two 48 c 0 (c - 48) eq_refl (decimal_ascii c ltac:(lia))).
    split; [reflexivity|]. split; [lia|]. left. f_equal; [|f_equal]; zdm.
  - exists (c - 48). rewrite (wide_int_one c (c - 48) (decimal_ascii c ltac:(lia))).
    split; [reflexivity|]. split; [lia|]. right. split; [lia|]. f_equal. lia.
Qed.

Lemma matches_re_Y_wide t :
  Wide.matches decimal_above Strptime.re_Y t ->
  exists y, wint t = Ok y /\ Wide.year_text decimal_above t y.
Proof.
  unfold Strptime.re_Y, Wide.year_text. intros M. invert_wide; cbn [app].
  match goal with
  | H1 : decimal ?c1 = Some ?v1, H2 : decimal ?c2 = Some ?v2,
    H3 : decimal ?c3 = Some ?v3, H4 : decimal ?c4 = Some ?v4
    |- context [[?c1; ?c2; ?c3; ?c4]] =>
      exists (1000 * v1 + 100 * v2 + 10 * v3 + v4);
      rewrite (wide_int_four c1 c2 c3 c4 v1 v2 v3 v4 H1 H2 H3 H4);
      split; [reflexivity|];
      exists c1, c2, c3, c4, v1, v2, v3, v4
  end.
  repeat split; assumption.
Qed.

Ltac split_nat n fuel :=
  lazymatch fuel with
  | O => idtac
  | S ?f => destruct n as [|n]; [|split_nat n f]
  end.

(** One case for each value of a number between 0 and 31. *)
Ltac each_of d :=
  let n := fresh "n" in
  let E := fresh "E" in
  remember (Z.to_nat d) as n eqn:E;
  assert (d = Z.of_nat n) by lia; subst d; clear E;
  split_nat n 32%nat; try (exfalso; lia).

Lemma one_hit {A : Type} (p : Z -> bool) c s (k : Wide.text -> Wide.text -> option A) :
  p c = true -> Wide.one p (c :: s) k = k [c] s.
Proof. unfold Wide.one. now intros ->. Qed.

Lemma one_miss {A : Type} (p : Z -> bool) c s (k : Wide.text -> Wide.text -> option A) :
  p c = false -> Wide.one p (c :: s) k = None.
Proof. unfold Wide.one. now intros ->. Qed.

Lemma digit_not_dot c v : digit c v -> (PyStr.ord "." =? c) = false.
Proof.
  intros H. apply Z.eqb_neq. intros <-. discriminate H.
Qed.

(** The day of 10 to 29 whose second digit is any decimal digit. *)
Lemma found_day_any {A : Type} c1 c2 v rest
      (k : Wide.text -> Wide.text -> Wide.text -> option A) :
  c1 = 49 \/ c1 = 50 -> digit c2 v ->
  wmatch Strptime.re_d ([c1; c2] ++ 46 :: rest)
         (fun d s1 => wmatch (Strptime.Lit ".") s1 (k d))
  = k [c1; c2] [46] rest.
Proof.
  intros H1 H2. pose proof (digit_isdecimal c2 v H2) as D.
  pose proof (digit_not_dot c2 v H2) as N.
  unfold Strptime.re_d. cbn [Wide.rmatch app].
  destruct H1 as [-> | ->].
  - rewrite (one_miss (Z.eqb (PyStr.ord "3"))) by reflexivity.
    rewrite (one_hit (fun c => (PyStr.ord "1" <=? c) && (c <=? PyStr.ord "2")))
      by reflexivity.
    rewrite (one_hit isdecimal) by exact D.
    rewrite (one_hit (Z.eqb (PyStr.ord "."))) by reflexivity.
    rewrite (one_miss (Z.eqb (PyStr.ord "0"))) by reflexivity.
    rewrite (one_hit (fun c => (PyStr.ord "1" <=? c) && (c <=? PyStr.ord "9")))
      by reflexivity.
    rewrite (one_miss (Z.eqb (PyStr.ord "."))) by exact N.
    rewrite (one_miss (Z.eqb (PyStr.ord " "))) by reflexivity.
    cbn [app]. now destruct (k _ _ _).
  - rewrite (one_miss (Z.eqb (PyStr.ord "3"))) by reflexivity.
    rewrite (one_hit (fun c => (PyStr.ord "1" <=? c) && (c <=? PyStr.ord "2")))
      by reflexivity.
    rewrite (one_hit isdecimal) by exact D.
    rewrite (one_hit (Z.eqb (PyStr.ord "."))) by reflexivity.
    rewrite (one_miss (Z.eqb (PyStr.ord "0"))) by reflexivity.
    rewrite (one_hit (fun c => (PyStr.ord "1" <=? c) && (c <=? PyStr.ord "9")))
      by reflexivity.
    rewrite (one_miss (Z.eqb (PyStr.ord "."))) by exact N.
    rewrite (one_miss (Z.eqb (PyStr.ord " "))) by reflexivity.
    cbn [app]. now destruct (k _ _ _).
Qed.

Lemma found_day_wide {A : Type} t d rest
      (k : Wide.text -> Wide.text -> Wide.text -> option A) :
  Wide.day_text decimal_above t d ->
  wmatch Strptime.re_d (t ++ 46 :: rest)
         (fun d s1 => wmatch (Strptime.Lit ".") s1 (k d))
  = k t [46] rest
  /\ wint t = Ok d.
Proof.
  intros [Hd [(c1 & c2 & -> & [R1 ->] & [[R D] | [R2 ->]]) | [H9 [-> | ->]]]].
  - split.
    + apply (found_day_any _ _ (d mod 10)); [zdm | exact D].
    + rewrite (wide_int_two (48 + d / 10) c2 (d / 10) (d mod 10)
                 (ascii_is_digit _ _ (conj R1 eq_refl)) D).
      f_equal. zdm.
  - each_of d; cbn [Z.of_nat Pos.of_succ_nat Pos.succ];
      (split; [vm_compute; destruct (k _ _ _); reflexivity | reflexivity]).
  - each_of d; cbn [Z.of_nat Pos.of_succ_nat Pos.succ];
      (split; [vm_compute; destruct (k _ _ _); reflexivity | reflexivity]).
  - each_of d; cbn [Z.of_nat Pos.of_succ_nat Pos.succ];
      (split; [vm_compute; destruct (k _ _ _); reflexivity | reflexivity]).
Qed.

Lemma found_month_wide {A : Type} t m rest
      (k : Wide.text -> Wide.text -> Wide.text -> option A) :
  Wide.month_text t m ->
  wmatch Strptime.re_m (t ++ 46 :: rest)
         (fun m s1 => wmatch (Strptime.Lit ".") s1 (k m))
  = k t [46] rest
  /\ wint t = Ok m.
Proof.
  intros [Hm Ht].
  each_of m;
    (destruct Ht as [-> | [H9 ->]]; try (exfalso; lia));
    cbn [Z.of_nat Pos.of_succ_nat Pos.succ];
    (split; [vm_compute; destruct (k _ _ _); reflexivity | reflexivity]).
Qed.

Lemma found_year_wide {A : Type} t y rest (k : Wide.text -> Wide.text -> option A) :
  Wide.year_text decimal_above t y ->
  wmatch Strptime.re_Y (t ++ rest) k = k t rest /\ wint t = Ok y.
Proof.
  intros (c1 & c2 & c3 & c4 & v1 & v2 & v3 & v4 & -> & D1 & D2 & D3 & D4 & ->).
  split.
  - unfold Strptime.re_Y. cbn [Wide.rmatch app].
    rewrite !(one_hit isdecimal) by (eapply digit_isdecimal; eassumption).
    reflexivity.
  - exact (wide_int_four _ _ _ _ _ _ _ _ D1 D2 D3 D4).
Qed.

Lemma found_text_wide dt mt yt d m y :
  Wide.day_text decimal_above dt d -> Wide.month_text mt m ->
  Wide.year_text decimal_above yt y ->
  Wide.found decimal_above (dt ++ [46] ++ mt ++ [46] ++ yt)
  = Some (dt, mt, yt, []).
Proof.
  intros Hd Hm Hy. unfold Wide.found. cbn [app].
  rewrite (proj1 (found_day_wide dt d _ _ Hd)).
  rewrite (proj1 (found_month_wide mt m _ _ Hm)).
  rewrite <- (app_nil_r yt) at 1.
  rewrite (proj1 (found_year_wide yt y [] _ Hy)). reflexivity.
Qed.

Lemma strptime_complete_wide s dt :
  Wide.birthday_text decimal_above s dt ->
  Wide.strptime decimal_above space_above s = Ok dt.
Proof.
  intros (d & m & y & -> & Hd & Hm & Hy & V).
  unfold Wide.strptime. rewrite (found_text_wide _ _ _ _ _ _ Hd Hm Hy).
  rewrite (proj2 (found_year_wide _ _ [] (fun _ _ => @None unit) Hy)).
  rewrite (proj2 (found_month_wide _ _ [] (fun _ _ _ => @None unit) Hm)).
  rewrite (proj2 (found_day_wide _ _ [] (fun _ _ _ => @None unit) Hd)).
  cbn [bindR]. exact (date_new_valid dt V).
Qed.

Lemma strptime_sound_wide s dt :
  Wide.strptime decimal_above space_above s = Ok dt ->
  Wide.birthday_text decimal_above s dt.
Proof.
  unfold Wide.strptime.
  destruct (Wide.found decimal_above s) as [[[[d m] y] rest]|] eqn:F;
    [|discriminate].
  destruct rest as [|c rest]; [|discriminate].
  unfold Wide.found in F.
  apply wmatch_sound in F. destruct F as (d' & s1 & -> & Md & F).
  apply wmatch_sound in F. destruct F as (p1 & s2 & -> & Mp1 & F).
  apply wmatch_sound in F. destruct F as (m' & s3 & -> & Mm & F).
  apply wmatch_sound in F. destruct F as (p2 & s4 & -> & Mp2 & F).
  apply wmatch_sound in F. destruct F as (y' & s5 & -> & My & F).
  injection F as -> -> -> ->.
  inversion Mp1; subst. inversion Mp2; subst.
  destruct (matches_re_d_wide _ Md) as (dv & Id & Td).
  destruct (matches_re_m_wide _ Mm) as (mv & Im & Tm).
  destruct (matches_re_Y_wide _ My) as (yv & Iy & Ty).
  rewrite Iy, Im, Id. cbn [bindR]. intros H.
  apply date_new_inv in H. destruct H as [-> V].
  exists d, m, y. rewrite app_nil_r. cbn [Calendar.year Calendar.month Calendar.day].
  split; [reflexivity|]. split; [exact Td|]. split; [exact Tm|].
  split; [exact Ty | exact V].
Qed.

Lemma int_raises_wide s e :
  wint s = Raise e -> exists msg, e = ValueError msg.
Proof.
  unfold Wide.int. destruct (Wide.lstrip space_above s); [intros [= <-]; eauto|].
  destruct (Wide.digits_value _ 0 _); [discriminate | intros [= <-]; eauto].
Qed.

Lemma strptime_raises_wide s e :
  Wide.strptime decimal_above space_above s = Raise e ->
  exists msg, e = ValueError msg.
Proof.
  unfold Wide.strptime.
  destruct (Wide.found decimal_above s) as [[[[d m] y] rest]|];
    [|intros [= <-]; eauto].
  destruct rest; [|intros [= <-]; eauto].
  destruct (wint y) as [yv|e1] eqn:Ey;
    [|cbn [bindR]; intros [= <-]; exact (int_raises_wide _ _ Ey)].
  destruct (wint m) as [mv|e2] eqn:Em;
    [|cbn [bindR]; intros [= <-]; exact (int_raises_wide _ _ Em)].
  destruct (wint d) as [dv|e3] eqn:Ed;
    [|cbn [bindR]; intros [= <-]; exact (int_raises_wide _ _ Ed)].
  cbn [bindR]. apply date_new_raises.
Qed.

Lemma validate_true_wide s :
  Wide.validate decimal_above space_above s = Ok true
  <-> exists dt, Wide.birthday_text decimal_above s dt.
Proof.
  unfold Wide.validate. split.
  - destruct (Wide.strptime decimal_above space_above s) as [dt|[msg|msg]] eqn:E;
      try discriminate.
    intros _. exists dt. now apply strptime_sound_wide.
  - intros [dt H]. now rewrite (strptime_complete_wide _ _ H).
Qed.

Lemma validate_total_wide s :
  Wide.validate decimal_above space_above s = Ok true
  \/ Wide.validate decimal_above space_above s = Ok false.
Proof.
  unfold Wide.validate.
  destruct (Wide.strptime decimal_above space_above s) as [dt|e] eqn:E;
    [now left|].
  destruct (strptime_raises_wide _ _ E) as [msg ->]. now right.
Qed.

(** The digits U+0660 to U+0669 make tables of the kind assumed. *)
Lemma arabic_indic_tables : Wide.tables_ok Wide.arabic_indic Wide.no_space.
Proof.
  split; [|reflexivity].
  intros c v. unfold Wide.arabic_indic.
  destruct ((1632 <=? c) && (c <=? 1641)) eqn:E; [|discriminate].
  apply andb_true_iff in E. rewrite !Z.leb_le in E. intros [= <-]. lia.
Qed.

End WideFacts.

(** * The strings of the model are the texts below U+0100 *)

Section Latin1.

Variable decimal_above : Z -> option Z.
Variable space_above : Z -> bool.

Local Open Scope list_scope.

Lemma ord_below c : 0 <= PyStr.ord c < 256.
Proof. destruct c as [[] [] [] [] [] [] [] []]; vm_compute; split; congruence. Qed.

Lemma ord_eqb c0 c : (PyStr.ord c0 =? PyStr.ord c) = Ascii.eqb c0 c.
Proof.
  destruct (Ascii.eqb_spec c0 c) as [->|N]; [apply Z.eqb_refl|].
  apply Z.eqb_neq. intros E. apply N.
  rewrite <- (ascii_N_embedding c0), <- (ascii_N_embedding c).
  f_equal. unfold PyStr.ord in E. lia.
Qed.

Lemma decimal_ord c :
  Wide.decimal decimal_above (PyStr.ord c)
  = if PyStr.is_decimal c then Some (PyStr.digit_value c) else None.
Proof.
  unfold Wide.decimal, PyStr.is_decimal, PyStr.digit_value.
  pose proof (ord_below c) as B.
  replace (PyStr.ord c <? 256) with true by (symmetry; apply Z.ltb_lt; lia).
  reflexivity.
Qed.

Lemma isdecimal_ord c :
  Wide.isdecimal decimal_above (PyStr.ord c) = PyStr.is_decimal c.
Proof.
  unfold Wide.isdecimal. rewrite decimal_ord. now destruct (PyStr.is_decimal c).
Qed.

Lemma isspace_ord c :
  Wide.isspace space_above (PyStr.ord c) = Strptime.is_space c.
Proof.
  unfold Wide.isspace, Strptime.is_space.
  pose proof (ord_below c) as B.
  replace (PyStr.ord c <? 256) with true by (symmetry; apply Z.ltb_lt; lia).
  reflexivity.
Qed.

Lemma of_string_app s1 s2 :
  Wide.of_string (s1 ++ s2)%string = Wide.of_string s1 ++ Wide.of_string s2.
Proof.
  unfold Wide.of_string. induction s1 as [|c s1 IH]; [reflexivity|].
  cbn [append list_ascii_of_string map app]. now rewrite IH.
Qed.

Lemma of_string_cons c s :
  Wide.of_string (String c s) = PyStr.ord c :: Wide.of_string s.
Proof. reflexivity. Qed.

Lemma of_string_nil s : Wide.of_string s = [] -> s = ""%string.
Proof. destruct s; [reflexivity | discriminate]. Qed.

Lemma one_of_string {A B : Type} (f : A -> B) (p : ascii -> bool) (q : Z -> bool) s
      (k : string -> string -> option A) (k' : Wide.text -> Wide.text -> option B) :
  (forall c, q (PyStr.ord c) = p c) ->
  (forall m rest, k' (Wide.of_string m) (Wide.of_string rest) = option_map f (k m rest)) ->
  Wide.one q (Wide.of_string s) k' = option_map f (Strptime.one p s k).
Proof.
  intros Hp Hk. destruct s as [|c s]; [reflexivity|].
  rewrite of_string_cons. unfold Wide.one, Strptime.one. rewrite Hp.
  destruct (p c); [|reflexivity].
  exact (Hk (String c "") s).
Qed.

(** Matching a string as a text is matching it as a string. *)
Lemma rmatch_of_string {A B : Type} (f : A -> B) r :
  forall s (k : string -> string -> option A)
         (k' : Wide.text -> Wide.text -> option B),
    (forall m rest,
        k' (Wide.of_string m) (Wide.of_string rest) = option_map f (k m rest)) ->
    Wide.rmatch decimal_above r (Wide.of_string s) k'
    = option_map f (Strptime.rmatch r s k).
Proof.
  induction r as [c | lo hi | | r1 IH1 r2 IH2 | r1 IH1 r2 IH2];
    intros s k k' Hk; cbn [Wide.rmatch Strptime.rmatch].
  - apply one_of_string; [intros c0; apply ord_eqb | exact Hk].
  - apply one_of_string; [reflexivity | exact Hk].
  - apply one_of_string; [apply isdecimal_ord | exact Hk].
  - apply IH1. intros m1 s1. apply IH2. intros m2 s2.
    rewrite <- of_string_app. apply Hk.
  - rewrite (IH1 s k k' Hk), (IH2 s k k' Hk).
    now destruct (Strptime.rmatch r1 s k).
Qed.

Lemma found_of_string s :
  Wide.found decimal_above (Wide.of_string s)
  = option_map (fun g : string * string * string * string =>
                  let '(d, m, y, rest) := g in
                  (Wide.of_string d, Wide.of_string m, Wide.of_string y,
                   Wide.of_string rest))
               (Strptime.found s).
Proof.
  unfold Wide.found, Strptime.found.
  apply rmatch_of_string. intros d s1.
  apply rmatch_of_string. intros p1 s2.
  apply rmatch_of_string. intros m s3.
  apply rmatch_of_string. intros p2 s4.
  apply rmatch_of_string. intros y rest. reflexivity.
Qed.

Lemma lstrip_of_string s :
  Wide.lstrip space_above (Wide.of_string s) = Wide.of_string (Strptime.lstrip s).
Proof.
  induction s as [|c s IH]; [reflexivity|].
  rewrite of_string_cons. cbn [Wide.lstrip Strptime.lstrip].
  rewrite isspace_ord. now destruct (Strptime.is_space c).
Qed.

Lemma digits_value_of_string s :
  forall acc,
    Wide.digits_value decimal_above acc (Wide.of_string s)
    = Strptime.digits_value acc s.
Proof.
  induction s as [|c s IH]; intros acc; [reflexivity|].
  rewrite of_string_cons. cbn [Wide.digits_value Strptime.digits_value].
  rewrite decimal_ord. destruct (PyStr.is_decimal c); [apply IH | reflexivity].
Qed.

Lemma int_of_string s :
  Wide.int decimal_above space_above (Wide.of_string s) = Strptime.int s.
Proof.
  unfold Wide.int, Strptime.int. rewrite lstrip_of_string.
  destruct (Strptime.lstrip s) as [|c t]; [reflexivity|].
  rewrite of_string_cons, <- of_string_cons. now rewrite digits_value_of_string.
Qed.

(** On a string, [strptime] over texts returns the date [strptime] over
    strings returns, and raises when that raises. *)
Lemma strptime_of_string s :
  match Strptime.strptime s with
  | Ok d => Wide.strptime decimal_above space_above (Wide.of_string s) = Ok d
  | Raise _ =>
      exists msg,
        Wide.strptime decimal_above space_above (Wide.of_string s)
        = Raise (ValueError msg)
  end.
Proof.
  unfold Wide.strptime, Strptime.strptime. rewrite found_of_string.
  destruct (Strptime.found s) as [[[[d m] y] rest]|]; cbn [option_map];
    [|eauto].
  destruct rest as [|c rest]; [|cbn; eauto].
  change (Wide.of_string "") with (@nil Z). cbn [negb String.eqb].
  rewrite !int_of_string.
  destruct (Strptime.int y) as [yv|e1] eqn:Ey; cbn [bindR];
    [|destruct (int_raises _ _ Ey) as [msg ->]; eauto].
  destruct (Strptime.int m) as [mv|e2] eqn:Em; cbn [bindR];
    [|destruct (int_raises _ _ Em) as [msg ->]; eauto].
  destruct (Strptime.int d) as [dv|e3] eqn:Ed; cbn [bindR];
    [|destruct (int_raises _ _ Ed) as [msg ->]; eauto].
  destruct (Calendar.date_new yv mv dv) as [dt|e4] eqn:En; [reflexivity|].
  destruct (date_new_raises _ _ _ _ En) as [msg ->]. eauto.
Qed.

Lemma validate_of_string s :
  Wide.validate decimal_above space_above (Wide.of_string s)
  = Birthday.validate s.
Proof.
  unfold Wide.validate, Birthday.validate.
  pose proof (strptime_of_string s) as H.
  destruct (Strptime.strptime s) as [d|e] eqn:E.
  - now rewrite H.
  - destruct H as [msg ->].
    destruct (strptime_raises _ _ E) as [msg' ->]. reflexivity.
Qed.

End Latin1.

(** * The birthday the query works with *)

Section RecurrenceFacts.

Import Calendar AddressBook.
Local Open Scope list_scope.

Lemma lt_irrefl d : lt d d = false.
Proof. unfold lt, _cmp. now rewrite !Z.compare_refl. Qed.

(** The order of dates is the order of the tuples (year, month, day). *)
Lemma lt_tuple d1 d2 :
  lt d1 d2 = true <->
  year d1 < year d2 \/
  (year d1 = year d2 /\
   (month d1 < month d2 \/ (month d1 = month d2 /\ day d1 < day d2))).
Proof.
  unfold lt, _cmp.
  destruct (Z.compare_spec (year d1) (year d2));
    destruct (Z.compare_spec (month d1) (month d2));
    destruct (Z.compare_spec (day d1) (day d2));
    split; intros; try discriminate; try reflexivity; try lia.
Qed.

(** The recurrence the query works with has the day and the month of the
    stored date; its year is the year of [today], or the next when that
    day and month come before [today] in the year. *)
Lemma birthday_this_year_stored today b bd bty :
  Strptime.strptime b = Ok bd ->
  birthday_this_year today b = Ok bty ->
  month bty = month bd /\ day bty = day bd /\
  ((year bty = year today /\
    ~ (month bd < month today \/ (month bd = month today /\ day bd < day today)))
   \/
   (year bty = year today + 1 /\
    (month bd < month today \/ (month bd = month today /\ day bd < day today)))).
Proof.
  intros P. unfold birthday_this_year. rewrite P. cbn [bindR].
  destruct (replace_year bd (year today)) as [d1|] eqn:E1; cbn [bindR];
    [|discriminate].
  apply replace_year_inv in E1. destruct E1 as [-> V1].
  destruct (lt _ today) eqn:L.
  - apply lt_tuple in L. cbn [year month day] in L.
    intros H. apply replace_year_inv in H. destruct H as [-> _].
    cbn [year month day]. split; [reflexivity|]. split; [reflexivity|].
    right. split; [reflexivity | lia].
  - intros [= <-]. cbn [year month day].
    split; [reflexivity|]. split; [reflexivity|]. left. split; [reflexivity|].
    intros B.
    assert (T : lt (mkdate (year today) (month bd) (day bd)) today = true)
      by (apply lt_tuple; cbn [year month day]; lia).
    rewrite T in L. discriminate L.
Qed.

(** A stored date with the day and the month of [today] recurs on
    [today]. *)
Lemma birthday_on_today today b bd bty :
  Strptime.strptime b = Ok bd ->
  month bd = month today -> day bd = day today ->
  birthday_this_year today b = Ok bty -> bty = today.
Proof.
  intros P Hm Hd H.
  destruct (birthday_this_year_stored _ _ _ _ P H) as (Em & Ed & [[Ey _] | [_ B]]).
  - destruct bty, today. cbn [year month day] in *. congruence.
  - exfalso. lia.
Qed.

(** A query that returns has gone through every record of the book. *)
Lemma for_each_visits today rs :
  forall acc out,
    for_each today acc rs = Ok out ->
    forall r, In r rs -> exists acc0 acc1, visit today acc0 r = Ok acc1.
Proof.
  induction rs as [|r0 rs IH]; cbn [for_each]; intros acc out H r Hr.
  - destruct Hr.
  - destruct (visit today acc r0) as [acc'|] eqn:Hv; cbn [bindR] in H;
      [|discriminate].
    destruct Hr as [<- | Hr]; [now exists acc, acc'|].
    exact (IH _ _ H r Hr).
Qed.

Lemma visit_parses today acc r acc' b :
  visit today acc r = Ok acc' ->
  ContactRecord.birthday r = Some b ->
  exists bd bty,
    Strptime.strptime (value b) = Ok bd /\
    birthday_this_year today (value b) = Ok bty.
Proof.
  unfold visit. intros H Hb. rewrite Hb in H.
  destruct (birthday_this_year today (value b)) as [bty|] eqn:E;
    cbn [bindR] in H; [|discriminate].
  unfold birthday_this_year in E.
  destruct (Strptime.strptime (value b)) as [bd|]; [|discriminate].
  now exists bd, bty.
Qed.

End RecurrenceFacts.

(** * The documented behaviour *)

Section Behaviour.

Import Calendar.
Local Open Scope list_scope.

(** What [edit_phone] does when the old number is there, whatever the new
    text is. *)
Lemma edit_phone_found self old new l1 p l2 :
  ContactRecord.phones self = l1 ++ p :: l2 ->
  value p = old ->
  (forall q, In q l1 -> value q <> old) ->
  ContactRecord.edit_phone old new self
  = (Ok tt, ContactRecord.set_phones (l1 ++ mkField new :: l2) self).
Proof.
  intros Hs Hp Hl1. unfold ContactRecord.edit_phone, bind, get.
  rewrite Hs.
  exact (edit_phone_loop_found old new p l2 Hp l1 [] self Hs Hl1).
Qed.

Lemma edit_phone_missing self old new :
  (forall q, In q (ContactRecord.phones self) -> value q <> old) ->
  ContactRecord.edit_phone old new self
  = (Raise (ValueError "Phone number not found"), self).
Proof.
  intros H. unfold ContactRecord.edit_phone, bind, get.
  now apply edit_phone_loop_missing.
Qed.

Lemma run_raise op self e self' :
  run op self = (Raise e, self') -> self' = self.
Proof.
  destruct op as [n | b | old new]; cbn [run].
  - unfold ContactRecord.add_phone, bind, eval, get, put.
    destruct (Phone.init n); [discriminate | now intros [= _ <-]].
  - unfold ContactRecord.add_birthday, bind, eval, get, put.
    destruct (Birthday.init b); [discriminate | now intros [= _ <-]].
  - unfold ContactRecord.edit_phone, bind, get.
    apply edit_phone_loop_raise.
Qed.

(** The operations fail on the inputs the documentation names. *)
Lemma invalid_input_raises self :
  (forall n, Phone.validate n = false ->
             run (AddPhone n) self = (Raise Phone.invalid_phone, self)) /\
  (forall b, Birthday.validate b = Ok false ->
             run (AddBirthday b) self = (Raise Birthday.invalid_date, self)) /\
  (forall old new,
      (forall q, In q (ContactRecord.phones self) -> value q <> old) ->
      run (EditPhone old new) self
      = (Raise (ValueError "Phone number not found"), self)).
Proof.
  split; [|split]; cbn [run].
  - intros n H. unfold ContactRecord.add_phone, bind, eval, Phone.init.
    now rewrite H.
  - intros b H. unfold ContactRecord.add_birthday, bind, eval, Birthday.init.
    now rewrite H.
  - intros old new. apply edit_phone_missing.
Qed.

(** C1.  The documentation has [edit_phone] validate the new number and
    fail on an invalid one.  The code assigns the text as it comes: on a
    record holding 1234567890, replacing it by "abc", which [Phone] itself
    refuses, succeeds and leaves "abc" in the list of phones. *)
Theorem edit_phone_stores_unvalidated :
  Phone.validate "abc" = false /\
  Phone.init "abc" = Raise Phone.invalid_phone /\
  ContactRecord.phones Example.ann = [mkField "1234567890"] /\
  ContactRecord.edit_phone "1234567890" "abc" Example.ann
  = (Ok tt, ContactRecord.set_phones [mkField "abc"] Example.ann).
Proof. repeat split. Qed.

(** C2.  The documentation wants the query to return for every validated
    birthday and every day.  The code does not: a birthday on 29 February
    passes validation, and on 1 January 2025 the query raises the
    [ValueError] of [date.replace], 2025 having no 29 February. *)
Theorem leap_day_birthday_raises :
  Birthday.init "29.02.2020" = Ok (mkField "29.02.2020") /\
  AddressBook.values Example.leap_book = [Example.lea] /\
  AddressBook.get_upcoming_birthdays Example.new_year Example.leap_book
  = Raise (ValueError "day is out of range for month").
Proof. repeat split. Qed.

(** C3, as the documentation states it, fails: the text "1.1.2020" has a
    one-digit day and month, and the validation accepts it. *)
Lemma birthday_validation_not_strict :
  ~ (forall s, Birthday.validate s = Ok true
               <-> Documented.validate_birthday s = true).
Proof.
  intros H. specialize (H "1.1.2020"%string).
  assert (E : Birthday.validate "1.1.2020" = Ok true) by reflexivity.
  apply H in E. discriminate E.
Qed.

(** C3, amended.  A text is any sequence of characters, each given by its
    code point; which characters from U+0100 on are decimal digits, with
    what value, and which are white space is left to two tables, of which
    only this is used: a decimal digit has a value from 0 to 9 and is not
    white space.  The validation of a birthday answers true exactly for the
    texts D.M.YYYY where D is a day from 1 to 31 in two digits or, up to 9,
    in one digit with or without a blank before it, M a month from 1 to 12
    in two digits or, up to 9, in one digit, YYYY a year in four digits,
    and the three make a date of the calendar from year 1 on; the four
    digits of the year, and the second digit of a day from 10 to 29, are
    decimal digits of any script, every other digit is one of 0 to 9.  The
    construction of a [Birthday] succeeds on these texts and raises the
    [ValueError] "Invalid date format" on all others.  On a text of
    characters below U+0100 this is the validation over strings, and every
    text of the strict form DD.MM.YYYY that is a real date is accepted. *)
Theorem birthday_validation decimal_above space_above (s : Wide.text) :
  Wide.tables_ok decimal_above space_above ->
  (Wide.validate decimal_above space_above s = Ok true
   <-> exists dt, Wide.birthday_text decimal_above s dt) /\
  (Wide.validate decimal_above space_above s = Ok true ->
   Wide.init decimal_above space_above s = Ok (Wide.mkfield s)) /\
  (Wide.validate decimal_above space_above s <> Ok true ->
   Wide.validate decimal_above space_above s = Ok false /\
   Wide.init decimal_above space_above s = Raise Birthday.invalid_date) /\
  (forall s8 : string,
     s = Wide.of_string s8 ->
     Birthday.validate s8 = Wide.validate decimal_above space_above s /\
     Birthday.init s8
     = match Wide.init decimal_above space_above s with
       | Ok _ => Ok (mkField s8)
       | Raise e => Raise e
       end /\
     (Documented.validate_birthday s8 = true ->
      Wide.validate decimal_above space_above s = Ok true)).
Proof.
  intros T.
  split; [apply (validate_true_wide _ _ T)|].
  unfold Wide.init. split; [|split].
  - now intros ->.
  - intros H. destruct (validate_total_wide decimal_above space_above s) as [E|E];
      [contradiction|].
    now rewrite E.
  - intros s8 ->. rewrite validate_of_string.
    split; [reflexivity|]. split.
    + unfold Birthday.init. destruct (validate_total s8) as [E|E]; now rewrite E.
    + apply documented_birthday.
Qed.

Lemma birthday_validation_witness :
  Wide.tables_ok Wide.arabic_indic Wide.no_space /\
  (exists dt, Wide.birthday_text Wide.arabic_indic Wide.year_in_arabic dt) /\
  Wide.init Wide.arabic_indic Wide.no_space Wide.year_in_arabic
  = Ok (Wide.mkfield Wide.year_in_arabic) /\
  Wide.init Wide.arabic_indic Wide.no_space Wide.day_in_arabic
  = Ok (Wide.mkfield Wide.day_in_arabic) /\
  Wide.validate Wide.arabic_indic Wide.no_space Wide.month_in_arabic <> Ok true /\
  Wide.init Wide.arabic_indic Wide.no_space Wide.month_in_arabic
  = Raise Birthday.invalid_date /\
  Documented.validate_birthday "01.06.2020" = true /\
  Wide.validate Wide.arabic_indic Wide.no_space (Wide.of_string "01.06.2020")
  = Ok true /\
  Birthday.init "01.06.2020" = Ok (mkField "01.06.2020") /\
  Birthday.init "01.13.2020" = Raise Birthday.invalid_date /\
  Birthday.init "30.02.2020" = Raise Birthday.invalid_date /\
  Birthday.init "ab.cd.efgh" = Raise Birthday.invalid_date /\
  Birthday.init "01.06.20" = Raise Birthday.invalid_date.
Proof.
  pose (at_text := fun s => birthday_validation Wide.arabic_indic Wide.no_space
                              s arabic_indic_tables).
  assert (N : forall s, Wide.validate Wide.arabic_indic Wide.no_space s = Ok false ->
                        Wide.validate Wide.arabic_indic Wide.no_space s <> Ok true)
    by (intros s E; rewrite E; discriminate).
  pose (at_string := fun s8 =>
          proj1 (proj2 (proj2 (proj2 (proj2 (at_text (Wide.of_string s8))))
                              s8 eq_refl))).
  split; [exact arabic_indic_tables|].
  split; [exact (proj1 (proj1 (at_text Wide.year_in_arabic)) eq_refl)|].
  split; [exact (proj1 (proj2 (at_text Wide.year_in_arabic)) eq_refl)|].
  split; [exact (proj1 (proj2 (at_text Wide.day_in_arabic)) eq_refl)|].
  split; [exact (N Wide.month_in_arabic eq_refl)|].
  split; [exact (proj2 (proj1 (proj2 (proj2 (at_text Wide.month_in_arabic)))
                         (N Wide.month_in_arabic eq_refl)))|].
  split; [reflexivity|].
  split; [exact (proj2 (proj2 (proj2 (proj2 (proj2
                   (at_text (Wide.of_string "01.06.2020"))))
                   "01.06.2020"%string eq_refl)) eq_refl)|].
  split; [exact (at_string "01.06.2020"%string)|].
  split; [exact (at_string "01.13.2020"%string)|].
  split; [exact (at_string "30.02.2020"%string)|].
  split; [exact (at_string "ab.cd.efgh"%string)|].
  exact (at_string "01.06.20"%string).
Defined.

(** C4, read with "digit" as one of 0 to 9, fails: ten times the character
    SUPERSCRIPT TWO is no string of decimal digits, and the construction of
    a [Phone] accepts it, [str.isdigit] being true of it. *)
Lemma phone_superscript_digits :
  ~ (forall s,
        (PyStr.len s <> 10 \/
         exists c, In c (Documented.chars s) /\ PyStr.is_decimal c = false) ->
        Phone.init s = Raise Phone.invalid_phone).
Proof.
  intros H. specialize (H Example.superscripts).
  assert (E : Phone.init Example.superscripts = Ok (mkField Example.superscripts))
    by reflexivity.
  rewrite H in E; [discriminate E|].
  right. exists (ascii_of_N 178). split; [now left | reflexivity].
Qed.

(** C4, amended.  The construction of a [Phone] fails with the
    [ValueError] of the class on every string whose length is not 10 or
    that holds a character [str.isdigit] refuses; it succeeds on every
    string of 10 characters [str.isdigit] accepts, so on every string of 10
    decimal digits, and the value made converts back to the string. *)
Theorem phone_construction s :
  ((PyStr.len s <> 10 \/
    exists c, In c (Documented.chars s) /\ PyStr.isdigit_char c = false) ->
   Phone.init s = Raise Phone.invalid_phone) /\
  ((PyStr.len s = 10 /\
    forall c, In c (Documented.chars s) -> PyStr.isdigit_char c = true) ->
   Phone.init s = Ok (mkField s) /\ FieldM.str (mkField s) = s) /\
  (Documented.validate_phone s = true ->
   Phone.init s = Ok (mkField s) /\ FieldM.str (mkField s) = s).
Proof.
  unfold Phone.init, Documented.chars.
  pose proof (phone_validate_iff s) as V.
  split; [|split].
  - intros H. destruct (Phone.validate s); [|reflexivity].
    destruct (proj1 V eq_refl) as [L D].
    destruct H as [H | (c & Hc & Hn)]; [contradiction|].
    rewrite (D c Hc) in Hn. discriminate Hn.
  - intros H. rewrite (proj2 V H). split; reflexivity.
  - unfold Documented.validate_phone, Documented.chars.
    rewrite andb_true_iff, Z.eqb_eq, forallb_forall. intros [L D].
    rewrite (proj2 V (conj L (fun c Hc => decimal_isdigit c (D c Hc)))).
    split; reflexivity.
Qed.

Lemma phone_construction_witness :
  Documented.validate_phone "0501234567" = true /\
  Phone.init "0501234567" = Ok (mkField "0501234567") /\
  FieldM.str (mkField "0501234567") = "0501234567"%string /\
  PyStr.len "050123456" <> 10 /\
  Phone.init "050123456" = Raise Phone.invalid_phone /\
  PyStr.isdigit_char "a" = false /\
  Phone.init "05012a4567" = Raise Phone.invalid_phone.
Proof.
  assert (L : PyStr.len "050123456" <> 10) by (vm_compute; discriminate).
  split; [reflexivity|].
  split; [exact (proj1 (proj2 (proj2 (phone_construction "0501234567")) eq_refl))|].
  split; [exact (proj2 (proj2 (proj2 (phone_construction "0501234567")) eq_refl))|].
  split; [exact L|].
  split; [exact (proj1 (phone_construction "050123456") (or_introl L))|].
  split; [reflexivity|].
  apply (proj1 (phone_construction "05012a4567")).
  right. exists "a"%char. split; [|reflexivity].
  vm_compute. do 5 right. left. reflexivity.
Defined.


(** C5.  When the query returns, every entry it returns comes from a record
    of the book whose birthday, moved to this year or else to the next,
    lies from 0 to 7 days after [today].  A record whose birthday falls on
    [today] has an entry, and a record whose birthday is more than 7
    days away adds nothing to the list.  The birthday the query works with
    has the day and the month of the date the record stores, in the year of
    [today] unless that day and month come before [today] in the year, and
    then in the next year: so a record whose stored day and month are those
    of [today] has its birthday on [today] and has an entry, and a record
    whose birthday is at most 7 days away has an entry. *)
Theorem upcoming_within_a_week today book out :
  AddressBook.get_upcoming_birthdays today book = Ok out ->
  (forall e, In e out ->
     exists r b bty,
       In r (AddressBook.values book) /\
       ContactRecord.birthday r = Some b /\
       AddressBook.birthday_this_year today (value b) = Ok bty /\
       AddressBook.entry_name e = value (ContactRecord.name r) /\
       0 <= sub_days bty today <= 7) /\
  (forall r b bty,
     In r (AddressBook.values book) ->
     ContactRecord.birthday r = Some b ->
     AddressBook.birthday_this_year today (value b) = Ok bty ->
     (bty = today ->
      exists e, In e out
                /\ AddressBook.entry_name e = value (ContactRecord.name r)) /\
     (7 < sub_days bty today ->
      forall upcoming, AddressBook.visit today upcoming r = Ok upcoming)) /\
  (forall r b,
     In r (AddressBook.values book) ->
     ContactRecord.birthday r = Some b ->
     exists bd bty,
       Strptime.strptime (value b) = Ok bd /\
       AddressBook.birthday_this_year today (value b) = Ok bty /\
       month bty = month bd /\ day bty = day bd /\
       ((year bty = year today /\
         ~ (month bd < month today
            \/ (month bd = month today /\ day bd < day today)))
        \/
        (year bty = year today + 1 /\
         (month bd < month today
          \/ (month bd = month today /\ day bd < day today)))) /\
       (month bd = month today -> day bd = day today ->
        bty = today /\
        exists e, In e out
                  /\ AddressBook.entry_name e = value (ContactRecord.name r)) /\
       (0 <= sub_days bty today <= 7 ->
        exists e, In e out
                  /\ AddressBook.entry_name e = value (ContactRecord.name r)) /\
       (~ 0 <= sub_days bty today <= 7 ->
        forall upcoming, AddressBook.visit today upcoming r = Ok upcoming)).
Proof.
  unfold AddressBook.get_upcoming_birthdays. intros H.
  assert (W : forall r b bty,
             In r (AddressBook.values book) ->
             ContactRecord.birthday r = Some b ->
             AddressBook.birthday_this_year today (value b) = Ok bty ->
             0 <= sub_days bty today <= 7 ->
             exists e, In e out
                       /\ AddressBook.entry_name e = value (ContactRecord.name r)).
  { intros r b bty Hr Hb Hbty Hd.
    destruct (congratulate_on_spec bty
                (birthday_this_year_valid _ _ _ Hbty)) as (cd & Hcd & _).
    exists (AddressBook.mkentry (value (ContactRecord.name r)) (strftime_Ymd cd)).
    split; [|reflexivity].
    apply (for_each_complete _ _ _ _ H r); [exact Hr|].
    exists b, bty, cd. repeat split; try assumption; lia. }
  split; [|split].
  - intros e He.
    destruct (for_each_inv _ _ _ _ H e He) as [[] | (r & Hr & Hem)].
    destruct Hem as (b & bty & cd & Hb & Hbty & Hd & _ & ->).
    exists r, b, bty. cbn [AddressBook.entry_name]. auto.
  - intros r b bty Hr Hb Hbty. split.
    + intros ->. apply (W r b today Hr Hb Hbty). unfold sub_days. lia.
    + intros Hd upcoming.
      apply (visit_skips today upcoming r b bty Hb Hbty). lia.
  - intros r b Hr Hb.
    destruct (for_each_visits _ _ _ _ H r Hr) as (acc0 & acc1 & Hv).
    destruct (visit_parses _ _ _ _ _ Hv Hb) as (bd & bty & P & Hbty).
    exists bd, bty. split; [exact P|]. split; [exact Hbty|].
    destruct (birthday_this_year_stored _ _ _ _ P Hbty) as (Em & Ed & Ey).
    split; [exact Em|]. split; [exact Ed|]. split; [exact Ey|].
    split; [|split].
    + intros Hm Hd.
      pose proof (birthday_on_today _ _ _ _ P Hm Hd Hbty) as E.
      split; [exact E|]. subst bty.
      apply (W r b today Hr Hb Hbty). unfold sub_days. lia.
    + exact (W r b bty Hr Hb Hbty).
    + intros Hd upcoming.
      exact (visit_skips today upcoming r b bty Hb Hbty Hd).
Qed.

Lemma upcoming_within_a_week_witness :
  AddressBook.get_upcoming_birthdays Example.friday Sample.week_book
  = Ok [AddressBook.mkentry "Alice" "2025.06.02";
        AddressBook.mkentry "Mia" "2025.05.30"] /\
  (forall e, In e [AddressBook.mkentry "Alice" "2025.06.02";
                   AddressBook.mkentry "Mia" "2025.05.30"] ->
     exists r b bty,
       In r (AddressBook.values Sample.week_book) /\
       ContactRecord.birthday r = Some b /\
       AddressBook.birthday_this_year Example.friday (value b) = Ok bty /\
       AddressBook.entry_name e = value (ContactRecord.name r) /\
       0 <= sub_days bty Example.friday <= 7) /\
  (exists bd bty,
     Strptime.strptime "30.05.1995" = Ok bd /\
     AddressBook.birthday_this_year Example.friday "30.05.1995" = Ok bty /\
     bty = Example.friday /\
     exists e, In e [AddressBook.mkentry "Alice" "2025.06.02";
                     AddressBook.mkentry "Mia" "2025.05.30"]
               /\ AddressBook.entry_name e = "Mia"%string) /\
  (exists bd bty,
     Strptime.strptime "29.05.2001" = Ok bd /\
     AddressBook.birthday_this_year Example.friday "29.05.2001" = Ok bty /\
     year bty = 2026 /\
     forall upcoming,
       AddressBook.visit Example.friday upcoming Sample.dan = Ok upcoming).
Proof.
  pose proof (upcoming_within_a_week Example.friday Sample.week_book _ eq_refl)
    as (H1 & _ & H3).
  split; [reflexivity|]. split; [exact H1|]. split.
  - destruct (H3 Sample.mia (mkField "30.05.1995")
                 ltac:(vm_compute; tauto) eq_refl)
      as (bd & bty & P & B & _ & _ & _ & T & _).
    exists bd, bty. split; [exact P|]. split; [exact B|].
    assert (E : Ok bd = Ok (mkdate 1995 5 30)) by (rewrite <- P; reflexivity).
    injection E as ->.
    exact (T eq_refl eq_refl).
  - destruct (H3 Sample.dan (mkField "29.05.2001")
                 ltac:(vm_compute; tauto) eq_refl)
      as (bd & bty & P & B & _ & _ & Y & _ & _ & S).
    exists bd, bty. split; [exact P|]. split; [exact B|].
    assert (E : Ok bd = Ok (mkdate 2001 5 29)) by (rewrite <- P; reflexivity).
    injection E as ->. cbn [year month day Example.friday] in Y.
    split; [lia|]. apply S.
    assert (E : Ok bty = Ok (mkdate 2026 5 29)) by (rewrite <- B; reflexivity).
    injection E as ->. vm_compute. intros [_ C]. apply C. reflexivity.
Defined.



(** C7.  With a valid new number, [edit_phone] on a record that holds the
    old number changes the first phone equal to it and nothing else: the
    phones before it, the phones after it, later copies of the old number
    among them, the name and the birthday stay.  On a record that does not
    hold the old number it raises the [ValueError] "Phone number not
    found". *)
Theorem edit_phone_first_match self old new :
  Phone.validate new = true ->
  (forall l1 p l2,
     ContactRecord.phones self = l1 ++ p :: l2 ->
     value p = old ->
     (forall q, In q l1 -> value q <> old) ->
     ContactRecord.edit_phone old new self
     = (Ok tt, ContactRecord.mk (ContactRecord.name self)
                                (l1 ++ mkField new :: l2)
                                (ContactRecord.birthday self))) /\
  ((forall q, In q (ContactRecord.phones self) -> value q <> old) ->
   ContactRecord.edit_phone old new self
   = (Raise (ValueError "Phone number not found"), self)).
Proof.
  intros _. split.
  - intros l1 p l2. apply edit_phone_found.
  - apply edit_phone_missing.
Qed.

Lemma edit_phone_first_match_witness :
  ContactRecord.phones Example.ann_twice
  = [mkField "1234567890"; mkField "0987654321"; mkField "1234567890"] /\
  ContactRecord.edit_phone "1234567890" "5555555555" Example.ann_twice
  = (Ok tt,
     ContactRecord.mk (mkField "Ann")
       [mkField "5555555555"; mkField "0987654321"; mkField "1234567890"]
       None) /\
  ContactRecord.edit_phone "0000000000" "5555555555" Example.ann_twice
  = (Raise (ValueError "Phone number not found"), Example.ann_twice).
Proof.
  split; [reflexivity|]. split.
  - apply (proj1 (edit_phone_first_match Example.ann_twice "1234567890"
                    "5555555555" eq_refl)
             [] (mkField "1234567890")
             [mkField "0987654321"; mkField "1234567890"]).
    + reflexivity.
    + reflexivity.
    + intros q [].
  - apply (proj2 (edit_phone_first_match Example.ann_twice "0000000000"
                    "5555555555" eq_refl)).
    intros q [<- | [<- | [<- | []]]]; vm_compute; discriminate.
Defined.

(** C8.  In a book, adding a record and then another record of the same
    name leaves one entry under that name, and it is the second record as
    it was given; the entries under other names are what they were, and
    the second call changes neither the keys nor their order. *)
Theorem add_record_replaces book r1 r2 :
  NoDup (AddressBook.keys book) ->
  value (ContactRecord.name r1) = value (ContactRecord.name r2) ->
  let n := value (ContactRecord.name r2) in
  let book1 := snd (AddressBook.add_record r1 book) in
  let book2 := snd (AddressBook.add_record r2 book1) in
  fst (AddressBook.add_record r1 book) = Ok tt /\
  fst (AddressBook.add_record r2 book1) = Ok tt /\
  AddressBook.find n book2 = Some r2 /\
  count_occ string_dec (AddressBook.keys book2) n = 1%nat /\
  AddressBook.keys book2 = AddressBook.keys book1 /\
  (forall k, k <> n -> AddressBook.find k book2 = AddressBook.find k book).
Proof.
  intros Hn Hname. cbv zeta.
  unfold AddressBook.add_record, bind, get, put. cbn [fst snd].
  rewrite Hname.
  set (n := value (ContactRecord.name r2)).
  set (book1 := AddressBook.setitem n r1 book).
  set (book2 := AddressBook.setitem n r2 book1).
  assert (Hin : AddressBook.contains n book1 = true).
  { unfold AddressBook.contains. subst book1.
    now rewrite getitem_setitem_same. }
  assert (Hk : AddressBook.keys book2 = AddressBook.keys book1).
  { subst book2. now rewrite keys_setitem, Hin. }
  split; [reflexivity|]. split; [reflexivity|].
  split; [apply getitem_setitem_same|].
  split; [|split; [exact Hk|]].
  - rewrite Hk. apply count_occ_NoDup_In.
    + subst book1. now apply setitem_NoDup.
    + unfold AddressBook.contains in Hin.
      destruct (AddressBook.getitem n book1) eqn:E; [|discriminate].
      destruct (in_dec string_dec n (AddressBook.keys book1)) as [I|I];
        [exact I|].
      exfalso. clear - E I. induction book1 as [|[k v] d IH];
        cbn [AddressBook.getitem AddressBook.keys map fst In] in *;
        [discriminate|].
      destruct (String.eqb_spec k n); [tauto|]. apply IH; tauto.
  - intros k Hkn. unfold AddressBook.find. subst book2 book1.
    now rewrite !getitem_setitem_other.
Qed.

Lemma add_record_replaces_witness :
  NoDup (AddressBook.keys Example.book) /\
  AddressBook.find "Alice"
    (snd (AddressBook.add_record (ContactRecord.init "Alice")
            (snd (AddressBook.add_record Example.alice Example.book))))
  = Some (ContactRecord.init "Alice") /\
  AddressBook.keys
    (snd (AddressBook.add_record (ContactRecord.init "Alice")
            (snd (AddressBook.add_record Example.alice Example.book))))
  = ["Alice"; "Bob"]%string.
Proof.
  assert (N : NoDup (AddressBook.keys Example.book)).
  { vm_compute. repeat constructor; cbn; intuition discriminate. }
  split; [exact N|].
  pose proof (add_record_replaces Example.book Example.alice
                (ContactRecord.init "Alice") N eq_refl) as H.
  cbv zeta in H. split; [exact (proj1 (proj2 (proj2 H)))|].
  rewrite (proj1 (proj2 (proj2 (proj2 (proj2 H))))). reflexivity.
Defined.

(** C9.  An operation on a record that raises, be it [add_phone],
    [add_birthday] or [edit_phone], leaves the record as it was before the
    call, and the book that holds the record as it was too. *)
Theorem failed_operation_keeps_state op self e self' :
  run op self = (Raise e, self') ->
  self' = self /\
  (forall n book absent,
     AddressBook.find n book = Some self ->
     AddressBook.with_record n (run op) absent book = (Raise e, book)).
Proof.
  intros H. pose proof (run_raise _ _ _ _ H) as ->. split; [reflexivity|].
  intros n book absent Hf. unfold AddressBook.with_record.
  rewrite Hf, H. now rewrite (setitem_same _ _ _ Hf).
Qed.

Lemma failed_operation_keeps_state_witness :
  run (AddPhone "12345") Example.ann = (Raise Phone.invalid_phone, Example.ann) /\
  run (AddBirthday "31.04.2021") Example.ann
  = (Raise Birthday.invalid_date, Example.ann) /\
  run (EditPhone "0000000000" "1111111111") Example.ann
  = (Raise (ValueError "Phone number not found"), Example.ann) /\
  Example.ann = Example.ann.
Proof.
  split; [reflexivity|]. split; [reflexivity|]. split; [reflexivity|].
  exact (proj1 (failed_operation_keeps_state (AddPhone "12345") Example.ann
                  Phone.invalid_phone Example.ann eq_refl)).
Defined.

(** C10.  When the query returns, the date written in every entry is that
    of a Monday, Tuesday, Wednesday, Thursday or Friday, and of no other
    day. *)
Theorem congratulation_on_working_day today book out e :
  AddressBook.get_upcoming_birthdays today book = Ok out ->
  In e out ->
  exists cd,
    valid cd /\
    AddressBook.congratulation_date e = strftime_Ymd cd /\
    0 <= weekday cd < 5 /\
    (forall d, valid d -> strftime_Ymd d = AddressBook.congratulation_date e ->
               d = cd).
Proof.
  unfold AddressBook.get_upcoming_birthdays. intros H He.
  destruct (for_each_inv _ _ _ _ H e He) as [[] | (r & Hr & Hem)].
  destruct Hem as (b & bty & cd & Hb & Hbty & Hd & Hcd & ->).
  destruct (congratulate_on_spec bty (birthday_this_year_valid _ _ _ Hbty))
    as (cd' & Hcd' & Vcd & Wcd & _).
  rewrite Hcd in Hcd'. injection Hcd' as <-.
  exists cd. cbn [AddressBook.congratulation_date].
  split; [exact Vcd|]. split; [reflexivity|]. split; [exact Wcd|].
  intros d Vd E. now apply strftime_inj.
Qed.

Lemma congratulation_on_working_day_witness :
  exists cd,
    valid cd /\
    "2025.06.02"%string = strftime_Ymd cd /\
    0 <= weekday cd < 5 /\
    (forall d, valid d -> strftime_Ymd d = "2025.06.02"%string -> d = cd).
Proof.
  apply (congratulation_on_working_day Example.friday Example.book
           [AddressBook.mkentry "Alice" "2025.06.02"]
           (AddressBook.mkentry "Alice" "2025.06.02")).
  - reflexivity.
  - left. reflexivity.
Defined.



End Behaviour.

(** * More on records *)

Section RecordMore.

Import ContactRecord.
Local Open Scope list_scope.

Lemma field_eta (p : Field) : mkField (value p) = p.
Proof. now destruct p. Qed.

Lemma find_phone_loop_none n l :
  find_phone_loop n l = None <-> forall q, In q l -> value q <> n.
Proof.
  induction l as [|p l IH]; cbn [find_phone_loop In]; [tauto|].
  destruct (String.eqb_spec (value p) n) as [E|E].
  - split; [discriminate | intros H; exfalso; exact (H p (or_introl eq_refl) E)].
  - rewrite IH. split.
    + intros H q [<- | Hq]; [exact E | exact (H q Hq)].
    + intros H q Hq. apply H. now right.
Qed.

Lemma find_phone_loop_first n l1 p l2 :
  value p = n -> (forall q, In q l1 -> value q <> n) ->
  find_phone_loop n (l1 ++ p :: l2) = Some p.
Proof.
  intros Hp. induction l1 as [|q l1 IH]; intros H; cbn [app find_phone_loop].
  - now rewrite Hp, String.eqb_refl.
  - destruct (String.eqb_spec (value q) n) as [E|_].
    + exfalso. exact (H q (or_introl eq_refl) E).
    + apply IH. intros q' Hq'. apply H. now right.
Qed.

Lemma find_phone_loop_some n l p :
  find_phone_loop n l = Some p ->
  exists l1 l2, l = l1 ++ p :: l2 /\ value p = n
                /\ forall q, In q l1 -> value q <> n.
Proof.
  induction l as [|q l IH]; cbn [find_phone_loop]; [discriminate|].
  destruct (String.eqb_spec (value q) n) as [E|E].
  - intros [= <-]. exists [], l. repeat split; [exact E | intros q' []].
  - intros H. destruct (IH H) as (l1 & l2 & -> & Hp & Hl1).
    exists (q :: l1), l2. repeat split; [exact Hp|].
    intros q' [<- | Hq']; [exact E | exact (Hl1 q' Hq')].
Qed.

Lemma find_phone_loop_filter n m l :
  m <> n ->
  find_phone_loop m (filter (fun phone => negb (value phone =? n)%string) l)
  = find_phone_loop m l.
Proof.
  intros Hm. induction l as [|p l IH]; cbn [filter find_phone_loop];
    [reflexivity|].
  destruct (String.eqb_spec (value p) n) as [E|E]; cbn [negb find_phone_loop].
  - destruct (String.eqb_spec (value p) m) as [E'|_]; [congruence | exact IH].
  - now rewrite IH.
Qed.

Lemma filter_all_kept {A : Type} (f : A -> bool) (l : list A) :
  (forall x, In x l -> f x = true) -> filter f l = l.
Proof.
  induction l as [|x l IH]; cbn [filter]; intros H; [reflexivity|].
  rewrite (H x (or_introl eq_refl)), IH; [reflexivity|].
  intros y Hy. apply H. now right.
Qed.

Lemma find_phone_none n self :
  find_phone n self = None -> forall q, In q (phones self) -> value q <> n.
Proof. apply find_phone_loop_none. Qed.

Lemma find_phone_some n self p :
  find_phone n self = Some p ->
  exists l1 l2, phones self = l1 ++ p :: l2 /\ value p = n
                /\ forall q, In q l1 -> value q <> n.
Proof. apply find_phone_loop_some. Qed.

(** X1.  [find_phone] gives the first phone equal to the number, and [None]
    exactly when the record holds no such phone. *)
Theorem find_phone_first_match n self :
  (find_phone n self = None <->
   forall q, In q (phones self) -> value q <> n) /\
  (forall p, find_phone n self = Some p <->
             exists l1 l2, phones self = l1 ++ p :: l2 /\ value p = n
                           /\ forall q, In q l1 -> value q <> n).
Proof.
  unfold find_phone. split; [apply find_phone_loop_none|].
  intros p. split; [apply find_phone_loop_some|].
  intros (l1 & l2 & -> & Hp & Hl1). now apply find_phone_loop_first.
Qed.

(** X2.  [remove_phone] never raises; afterwards no phone equals the number,
    and the phones that are left are exactly those that differ from it,
    each as often as before and in the old order: the list is the old one
    with the phones equal to the number struck out.  Name and birthday are
    the same.  A number the record does not hold leaves the record as it
    is. *)
Theorem remove_phone_removes_all n self :
  fst (remove_phone n self) = Ok tt /\
  name (snd (remove_phone n self)) = name self /\
  birthday (snd (remove_phone n self)) = birthday self /\
  find_phone n (snd (remove_phone n self)) = None /\
  phones (snd (remove_phone n self))
  = filter (fun phone => negb (value phone =? n)%string) (phones self) /\
  (forall l1 p l2,
     phones self = l1 ++ p :: l2 ->
     phones (snd (remove_phone n self))
     = phones (snd (remove_phone n (set_phones l1 self)))
       ++ (if (value p =? n)%string then [] else [p])
       ++ phones (snd (remove_phone n (set_phones l2 self)))) /\
  (forall p, In p (phones (snd (remove_phone n self)))
             <-> In p (phones self) /\ value p <> n) /\
  (forall m, m <> n ->
             find_phone m (snd (remove_phone n self)) = find_phone m self) /\
  ((forall q, In q (phones self) -> value q <> n) ->
   snd (remove_phone n self) = self).
Proof.
  unfold remove_phone, bind, get, put, find_phone. cbn [fst snd].
  unfold set_phones. cbn [name birthday phones].
  split; [reflexivity|]. split; [reflexivity|]. split; [reflexivity|].
  split; [|split; [|split; [|split; [|split]]]].
  - apply find_phone_loop_none. intros q Hq. apply filter_In in Hq.
    destruct Hq as [_ Hq]. apply negb_true_iff in Hq.
    now apply String.eqb_neq.
  - reflexivity.
  - intros l1 p l2 ->. rewrite filter_app. cbn [filter].
    now destruct (value p =? n)%string.
  - intros p. rewrite filter_In, negb_true_iff, String.eqb_neq. tauto.
  - intros m Hm. now apply find_phone_loop_filter.
  - intros H. rewrite filter_all_kept; [now destruct self|].
    intros q Hq. apply negb_true_iff, String.eqb_neq. exact (H q Hq).
Qed.

(** X3.  [add_phone] with a valid number puts it last and keeps what was there,
    copies of the same number included: the list grows by one, the number
    is found afterwards, and the first phone found for any other number is
    the one found before. *)
Theorem add_phone_keeps_duplicates n self :
  Phone.validate n = true ->
  fst (add_phone n self) = Ok tt /\
  phones (snd (add_phone n self)) = phones self ++ [mkField n] /\
  List.length (phones (snd (add_phone n self))) = S (List.length (phones self)) /\
  (exists p, find_phone n (snd (add_phone n self)) = Some p /\ value p = n) /\
  (forall m, m <> n ->
             find_phone m (snd (add_phone n self)) = find_phone m self).
Proof.
  intros V. unfold add_phone, bind, eval, get, put, Phone.init, FieldM.init.
  rewrite V. cbn [negb fst snd]. unfold set_phones, find_phone.
  cbn [phones].
  split; [reflexivity|]. split; [reflexivity|].
  split; [rewrite length_app; cbn [List.length]; lia|].
  split.
  - destruct (find_phone_loop n (phones self ++ [mkField n])) as [p|] eqn:E.
    + exists p. split; [reflexivity|].
      destruct (find_phone_loop_some _ _ _ E) as (_ & _ & _ & Hp & _). exact Hp.
    + exfalso. rewrite find_phone_loop_none in E.
      apply (E (mkField n)); [apply in_or_app; right; now left | reflexivity].
  - intros m Hm. induction (phones self) as [|q l IH];
      cbn [app find_phone_loop value].
    + destruct (String.eqb_spec n m); [congruence | reflexivity].
    + now rewrite IH.
Qed.

Lemma add_phone_keeps_duplicates_witness :
  phones (snd (add_phone "1234567890" Example.ann))
  = [mkField "1234567890"; mkField "1234567890"].
Proof.
  exact (proj1 (proj2 (add_phone_keeps_duplicates "1234567890" Example.ann
                         eq_refl))).
Defined.

(** X4.  Changing a number to one the record does not hold and then changing it
    back gives the record of before. *)
Theorem edit_phone_there_and_back old new self :
  (exists p, In p (phones self) /\ value p = old) ->
  (forall q, In q (phones self) -> value q <> new) ->
  exists self',
    edit_phone old new self = (Ok tt, self') /\
    edit_phone new old self' = (Ok tt, self).
Proof.
  intros (p0 & Hin & Hp0) Hnew.
  assert (F : find_phone old self <> None).
  { intros E. exact (find_phone_none _ _ E p0 Hin Hp0). }
  destruct (find_phone old self) as [p|] eqn:E; [clear F | congruence].
  apply find_phone_some in E.
  destruct E as (l1 & l2 & Hs & Hp & Hl1).
  exists (set_phones (l1 ++ mkField new :: l2) self).
  split; [exact (edit_phone_found self old new l1 p l2 Hs Hp Hl1)|].
  rewrite (edit_phone_found (set_phones (l1 ++ mkField new :: l2) self)
             new old l1 (mkField new) l2 eq_refl eq_refl).
  - unfold set_phones. cbn [name birthday].
    rewrite <- Hp, field_eta, <- Hs. now destruct self.
  - intros q Hq. apply Hnew. rewrite Hs. apply in_or_app. now left.
Qed.

Lemma edit_phone_there_and_back_witness :
  exists self',
    edit_phone "1234567890" "5555555555" Example.ann_twice = (Ok tt, self') /\
    edit_phone "5555555555" "1234567890" self' = (Ok tt, Example.ann_twice).
Proof.
  apply edit_phone_there_and_back.
  - exists (mkField "1234567890"). split; [now left | reflexivity].
  - intros q [<- | [<- | [<- | []]]]; vm_compute; discriminate.
Defined.

Lemma perform_keeps_sound a self :
  sound_record self -> edits_to_valid a -> sound_record (snd (perform a self)).
Proof.
  intros [Hp Hb] Ha. destruct a as [[n | b | old new] | n]; cbn [perform run].
  - unfold add_phone, bind, eval, get, put, Phone.init, FieldM.init.
    destruct (Phone.validate n) eqn:V; cbn [negb snd]; [|now split].
    split; [|exact Hb]. cbn [set_phones phones]. intros p Hin.
    apply in_app_or in Hin. destruct Hin as [Hin | [<- | []]];
      [exact (Hp p Hin) | exact V].
  - unfold add_birthday, bind, eval, get, put, Birthday.init, FieldM.init.
    destruct (Birthday.validate b) as [[|]|e] eqn:V; cbn [bindR negb snd];
      try now split.
    split; [exact Hp|]. cbn [set_birthday birthday]. now intros b' [= <-].
  - cbn [edits_to_valid] in Ha.
    destruct (find_phone old self) as [p|] eqn:E.
    + apply find_phone_some in E.
      destruct E as (l1 & l2 & Hs & Hv & Hl1).
      rewrite (edit_phone_found self old new l1 p l2 Hs Hv Hl1). cbn [snd].
      split; [|exact Hb]. cbn [set_phones phones]. intros q Hin.
      rewrite Hs in Hp.
      apply in_app_or in Hin. destruct Hin as [Hin | [<- | Hin]].
      * apply Hp. apply in_or_app. now left.
      * exact Ha.
      * apply Hp. apply in_or_app. right. now right.
    + pose proof (find_phone_none _ _ E) as E'.
      rewrite (edit_phone_missing self old new E'). now split.
  - unfold remove_phone, bind, get, put. cbn [snd]. split; [|exact Hb].
    cbn [set_phones phones]. intros p Hq. apply filter_In in Hq.
    apply Hp. tauto.
Qed.

(** X5.  A record made by [Record(name)] and changed only through [add_phone],
    [remove_phone], [add_birthday] and [edit_phone] holds nothing but
    phones and a birthday that pass validation, provided every new number
    given to [edit_phone] is valid; calls that raise do no harm. *)
Theorem record_stays_sound actions name0 :
  Forall edits_to_valid actions ->
  sound_record (perform_all actions (init name0)).
Proof.
  intros H.
  assert (S0 : sound_record (init name0)) by (split; [intros p [] | discriminate]).
  revert S0. generalize (init name0).
  induction H as [|a l Ha _ IH]; intros self S0; cbn [perform_all];
    [exact S0|].
  apply IH. now apply perform_keeps_sound.
Qed.

Lemma record_stays_sound_witness :
  sound_record
    (perform_all [Do (AddPhone "1234567890"); Do (AddPhone "12");
                  Do (EditPhone "1234567890" "5555555555");
                  RemovePhone "0000000000"; Do (AddBirthday "1.6.2020")]
                 (init "Ann")).
Proof.
  apply record_stays_sound.
  repeat constructor.
Defined.

End RecordMore.

(** * More on the book *)

Section BookMore.

Import AddressBook.
Local Open Scope list_scope.

Lemma getitem_In k d r : getitem k d = Some r -> In (k, r) d.
Proof.
  induction d as [|[k0 v0] d IH]; cbn [getitem In]; [discriminate|].
  destruct (String.eqb_spec k0 k) as [->|]; [intros [= ->]; now left|].
  intros H. right. exact (IH H).
Qed.

Lemma getitem_Some_key k d r : getitem k d = Some r -> In k (keys d).
Proof.
  intros H. apply getitem_In in H. exact (in_map fst _ _ H).
Qed.

Lemma getitem_absent k d : ~ In k (keys d) -> getitem k d = None.
Proof.
  intros H. destruct (getitem k d) eqn:E; [|reflexivity].
  exfalso. exact (H (getitem_Some_key _ _ _ E)).
Qed.

Lemma getitem_delitem_same k d :
  NoDup (keys d) -> getitem k (delitem k d) = None.
Proof.
  induction d as [|[k0 v0] d IH]; cbn [keys map fst delitem getitem];
    intros N; [reflexivity|].
  inversion N as [|? ? Hk0 N']; subst.
  destruct (String.eqb_spec k0 k) as [->|E].
  - now apply getitem_absent.
  - cbn [getitem]. destruct (String.eqb_spec k0 k); [contradiction|].
    exact (IH N').
Qed.

Lemma getitem_delitem_other k k' d :
  k' <> k -> getitem k' (delitem k d) = getitem k' d.
Proof.
  intros Hk. induction d as [|[k0 v0] d IH]; cbn [delitem getitem];
    [reflexivity|].
  destruct (String.eqb_spec k0 k) as [->|E].
  - destruct (String.eqb_spec k k'); [congruence | reflexivity].
  - cbn [getitem]. now rewrite IH.
Qed.

Lemma keys_delitem k d :
  NoDup (keys d) -> keys (delitem k d) = List.remove string_dec k (keys d).
Proof.
  induction d as [|[k0 v0] d IH]; cbn [keys map fst delitem List.remove];
    intros N; [reflexivity|].
  inversion N as [|? ? Hk0 N']; subst.
  destruct (String.eqb_spec k0 k) as [->|E].
  - destruct (string_dec k k); [|congruence].
    symmetry. apply notin_remove. exact Hk0.
  - destruct (string_dec k k0); [congruence|].
    cbn [keys map fst]. f_equal. exact (IH N').
Qed.

Lemma delitem_absent k d : getitem k d = None -> delitem k d = d.
Proof.
  induction d as [|[k0 v0] d IH]; cbn [getitem delitem]; [reflexivity|].
  destruct (k0 =? k)%string; [discriminate | intros H; now rewrite IH].
Qed.

Lemma delitem_setitem k v d : getitem k d = None -> delitem k (setitem k v d) = d.
Proof.
  induction d as [|[k0 v0] d IH]; cbn [getitem setitem delitem].
  - now rewrite String.eqb_refl.
  - destruct (k0 =? k)%string eqn:E; [discriminate|].
    cbn [delitem]. rewrite E. intros H. now rewrite IH.
Qed.

Lemma setitem_absent k v d : getitem k d = None -> setitem k v d = d ++ [(k, v)].
Proof.
  induction d as [|[k0 v0] d IH]; cbn [getitem setitem app]; [reflexivity|].
  destruct (k0 =? k)%string; [discriminate | intros H; now rewrite IH].
Qed.

Lemma setitem_present k v d r :
  getitem k d = Some r ->
  exists d1 d2, d = d1 ++ (k, r) :: d2 /\ setitem k v d = d1 ++ (k, v) :: d2
                /\ ~ In k (keys d1).
Proof.
  induction d as [|[k0 v0] d IH]; cbn [getitem setitem]; [discriminate|].
  destruct (String.eqb_spec k0 k) as [->|E].
  - intros [= ->]. exists [], d. repeat split. intros [].
  - intros H. destruct (IH H) as (d1 & d2 & -> & -> & Hn).
    exists ((k0, v0) :: d1), d2. repeat split.
    cbn [keys map fst In]. intros [?|?]; [congruence | exact (Hn H0)].
Qed.

Lemma In_setitem k v d k' r' :
  In (k', r') (setitem k v d) -> (k' = k /\ r' = v) \/ In (k', r') d.
Proof.
  induction d as [|[k0 v0] d IH]; cbn [setitem In].
  - intros [[= <- <-] | []]. now left.
  - destruct (String.eqb_spec k0 k) as [->|E]; cbn [In].
    + intros [[= <- <-] | H]; [now left | right; now right].
    + intros [H | H]; [right; now left|].
      destruct (IH H) as [?|?]; [now left | right; now right].
Qed.

Lemma In_delitem k d x : In x (delitem k d) -> In x d.
Proof.
  induction d as [|[k0 v0] d IH]; cbn [delitem In]; [tauto|].
  destruct (k0 =? k)%string; cbn [In]; [tauto|].
  intros [H | H]; [now left | right; exact (IH H)].
Qed.

Lemma delitem_NoDup k d : NoDup (keys d) -> NoDup (keys (delitem k d)).
Proof.
  induction d as [|[k0 v0] d IH]; cbn [keys map fst delitem]; intros N;
    [exact N|].
  inversion N as [|? ? Hk0 N']; subst.
  destruct (k0 =? k)%string; [exact N'|].
  cbn [keys map fst]. constructor; [|exact (IH N')].
  intros H. apply Hk0. apply in_map_iff in H. destruct H as ([k1 v1] & <- & H).
  apply In_delitem in H. exact (in_map fst _ _ H).
Qed.

(** X6.  [delete] never raises.  Afterwards the name is not found, every other
    name is found as before, the other keys keep their order, and a name
    that was not in the book leaves the book as it is. *)
Theorem delete_removes_entry n book :
  NoDup (keys book) ->
  fst (delete n book) = Ok tt /\
  find n (snd (delete n book)) = None /\
  (forall k, k <> n -> find k (snd (delete n book)) = find k book) /\
  keys (snd (delete n book)) = List.remove string_dec n (keys book) /\
  (find n book = None -> snd (delete n book) = book).
Proof.
  intros N. unfold delete, bind, get, put, ret, contains, find.
  destruct (getitem n book) as [r|] eqn:E; cbn [fst snd].
  - split; [reflexivity|]. split; [now apply getitem_delitem_same|].
    split; [intros k Hk; now apply getitem_delitem_other|].
    split; [now apply keys_delitem | discriminate].
  - split; [reflexivity|]. split; [exact E|]. split; [reflexivity|].
    split; [|reflexivity].
    symmetry. apply notin_remove. now apply getitem_None.
Qed.

Lemma delete_removes_entry_witness :
  find "Alice" (snd (delete "Alice" Example.book)) = None /\
  keys (snd (delete "Alice" Example.book)) = ["Bob"%string].
Proof.
  assert (N : NoDup (keys Example.book)).
  { vm_compute. repeat constructor; cbn; intuition discriminate. }
  split.
  - exact (proj1 (proj2 (delete_removes_entry "Alice" Example.book N))).
  - rewrite (proj1 (proj2 (proj2 (proj2
               (delete_removes_entry "Alice" Example.book N))))).
    reflexivity.
Defined.

(** X7.  Adding a record under a name the book does not have and deleting that
    name gives the book of before. *)
Theorem add_record_then_delete record book :
  find (value (ContactRecord.name record)) book = None ->
  snd (delete (value (ContactRecord.name record))
              (snd (add_record record book))) = book.
Proof.
  intros H. unfold delete, add_record, bind, get, put, ret, contains.
  cbn [snd]. rewrite getitem_setitem_same. cbn [snd].
  now apply delitem_setitem.
Qed.

Lemma add_record_then_delete_witness :
  snd (delete "Ann" (snd (add_record Example.ann Example.book))) = Example.book.
Proof. exact (add_record_then_delete Example.ann Example.book eq_refl). Defined.

(** X8.  Where [add_record] puts a record in the order of iteration: a new name
    goes last; a name already there keeps its place and only its record
    changes. *)
Theorem add_record_place record book :
  let n := value (ContactRecord.name record) in
  (find n book = None ->
   snd (add_record record book) = book ++ [(n, record)]) /\
  (forall old, find n book = Some old ->
     exists before after,
       book = before ++ (n, old) :: after /\
       snd (add_record record book) = before ++ (n, record) :: after /\
       ~ In n (keys before)).
Proof.
  cbv zeta. unfold add_record, bind, get, put, find. cbn [snd]. split.
  - apply setitem_absent.
  - intros old. apply setitem_present.
Qed.

(** X9.  [add_record] and [delete] keep the keys distinct and every record
    under its own name. *)
Theorem book_stays_keyed book :
  keyed book ->
  (forall record, keyed (snd (add_record record book))) /\
  (forall n, keyed (snd (delete n book))).
Proof.
  intros [N K]. split.
  - intros record. unfold add_record, bind, get, put. cbn [snd]. split.
    + now apply setitem_NoDup.
    + intros k r H. apply In_setitem in H.
      destruct H as [[-> ->] | H]; [reflexivity | exact (K k r H)].
  - intros n. unfold delete, bind, get, put, ret.
    destruct (contains n book); cbn [snd]; [|now split]. split.
    + now apply delitem_NoDup.
    + intros k r H. apply In_delitem in H. exact (K k r H).
Qed.

Lemma book_stays_keyed_witness :
  keyed Example.book /\
  keyed (snd (add_record Example.ann Example.book)) /\
  keyed (snd (delete "Bob" Example.book)).
Proof.
  assert (K : keyed Example.book).
  { split.
    - vm_compute. repeat constructor; cbn; intuition discriminate.
    - intros k r [[= <- <-] | [[= <- <-] | []]]; reflexivity. }
  split; [exact K|]. split.
  - exact (proj1 (book_stays_keyed Example.book K) Example.ann).
  - exact (proj2 (book_stays_keyed Example.book K) "Bob"%string).
Defined.

End BookMore.

(** * More on the birthday query *)

Section QueryMore.

Import Calendar AddressBook.
Local Open Scope list_scope.

Lemma days_before_year_mono y y' :
  y <= y' -> _days_before_year y <= _days_before_year y'.
Proof. intros H. unfold _days_before_year. zdm. Qed.

Lemma days_before_month_next y m m' :
  1 <= m -> m < m' -> m' <= 12 ->
  _days_before_month y m + _days_in_month y m <= _days_before_month y m'.
Proof.
  intros H1 H2 H3. unfold _days_before_month, _days_in_month.
  assert (Hm : m = 1 \/ m = 2 \/ m = 3 \/ m = 4 \/ m = 5 \/ m = 6 \/ m = 7
               \/ m = 8 \/ m = 9 \/ m = 10 \/ m = 11) by lia.
  assert (Hm' : m' = 2 \/ m' = 3 \/ m' = 4 \/ m' = 5 \/ m' = 6 \/ m' = 7
                \/ m' = 8 \/ m' = 9 \/ m' = 10 \/ m' = 11 \/ m' = 12) by lia.
  destruct (_is_leap y);
    repeat (destruct Hm as [-> | Hm]);
    try subst m;
    repeat (destruct Hm' as [-> | Hm']);
    try subst m';
    try (exfalso; lia);
    table_lookup; cbn [andb b2z]; lia.
Qed.

(** The order of dates is the order of their ordinals. *)
Lemma cmp_ordinal d1 d2 :
  valid d1 -> valid d2 ->
  match _cmp d1 d2 with
  | Lt => toordinal d1 < toordinal d2
  | Eq => toordinal d1 = toordinal d2
  | Gt => toordinal d2 < toordinal d1
  end.
Proof.
  intros (Hy1 & Hm1 & Hd1) (Hy2 & Hm2 & Hd2).
  pose proof (day_of_year_bounds _ _ _ Hm1 Hd1) as B1.
  pose proof (day_of_year_bounds _ _ _ Hm2 Hd2) as B2.
  unfold _cmp, toordinal, _ymd2ord.
  destruct (Z.compare_spec (year d1) (year d2)) as [Ey | Ly | Ly].
  - rewrite Ey in *.
    destruct (Z.compare_spec (month d1) (month d2)) as [Em | Lm | Lm].
    + rewrite Em in *.
      destruct (Z.compare_spec (day d1) (day d2)); lia.
    + pose proof (days_before_month_next (year d2) (month d1) (month d2)
                    ltac:(lia) Lm ltac:(lia)). lia.
    + pose proof (days_before_month_next (year d2) (month d2) (month d1)
                    ltac:(lia) Lm ltac:(lia)). lia.
  - pose proof (days_before_year_step (year d1)).
    pose proof (days_before_year_mono (year d1 + 1) (year d2) ltac:(lia)). lia.
  - pose proof (days_before_year_step (year d2)).
    pose proof (days_before_year_mono (year d2 + 1) (year d1) ltac:(lia)). lia.
Qed.

Lemma leap_years_apart y : _is_leap y = true -> _is_leap (y + 1) = false.
Proof.
  unfold _is_leap. rewrite andb_true_iff, andb_false_iff, !Z.eqb_eq, Z.eqb_neq.
  intros [H _]. left. zdm.
Qed.

(** X10.  The recurrence of a birthday that the query works with is never before
    [today] and never more than 365 days after it. *)
Theorem recurrence_within_a_year today b bty :
  valid today ->
  birthday_this_year today b = Ok bty ->
  0 <= sub_days bty today <= 365.
Proof.
  intros V. unfold birthday_this_year.
  destruct (Strptime.strptime b) as [bd|]; cbn [bindR]; [|discriminate].
  destruct (replace_year bd (year today)) as [d1|] eqn:E1; cbn [bindR];
    [|discriminate].
  apply replace_year_inv in E1. destruct E1 as [-> V1].
  pose proof (cmp_ordinal _ _ V1 V) as C. unfold sub_days.
  destruct V as (Hy & Hm & Hd).
  pose proof (day_of_year_bounds _ _ _ Hm Hd) as Bt.
  pose proof V1 as (_ & Hm1 & Hd1). cbn [year month day] in Hm1, Hd1.
  pose proof (day_of_year_bounds _ _ _ Hm1 Hd1) as B1.
  unfold lt. destruct (_cmp _ today) eqn:Ec.
  - intros [= <-]. lia.
  - intros H. apply replace_year_inv in H. destruct H as [-> V2].
    cbn [month day] in V2 |- *.
    pose proof V2 as (_ & _ & Hd2). cbn [year month day] in Hd2.
    pose proof (day_of_year_bounds _ _ _ Hm1 Hd2) as B2.
    pose proof (days_before_year_step (year today)) as S.
    unfold toordinal, _ymd2ord in *. cbn [year month day] in *.
    unfold _days_before_month in *.
    destruct (_is_leap (year today)) eqn:L.
    + rewrite (leap_years_apart _ L) in *.
      rewrite !andb_false_r in *. destruct (2 <? month bd); cbn [andb b2z] in *; lia.
    + rewrite !andb_false_r in *.
      destruct ((2 <? month bd) && _is_leap (year today + 1));
        cbn [b2z] in *; lia.
  - intros [= <-]. unfold toordinal, _ymd2ord in *. cbn [year month day] in *.
    destruct (_is_leap (year today)); cbn [b2z] in *; lia.
Qed.

Lemma recurrence_within_a_year_witness :
  0 <= sub_days (mkdate 2025 6 1) Example.friday <= 365.
Proof.
  apply (recurrence_within_a_year Example.friday "01.06.2020").
  - vm_compute. repeat split; discriminate.
  - reflexivity.
Defined.

Lemma emits_functional today r e e' :
  emits today r e -> emits today r e' -> e = e'.
Proof.
  intros (b & bty & cd & Hb & Hbty & _ & Hcd & ->)
         (b' & bty' & cd' & Hb' & Hbty' & _ & Hcd' & ->).
  rewrite Hb in Hb'. injection Hb' as <-.
  rewrite Hbty in Hbty'. injection Hbty' as <-.
  rewrite Hcd in Hcd'. injection Hcd' as <-. reflexivity.
Qed.

Lemma visit_no_entry today acc r acc' :
  visit today acc r = Ok acc' -> (forall e, ~ emits today r e) -> acc' = acc.
Proof.
  intros H N. destruct (visit_inv _ _ _ _ H) as [-> | (e & He & _)];
    [reflexivity | exfalso; exact (N e He)].
Qed.

Lemma visit_not_emitting today acc r :
  visit today acc r = Ok acc -> forall e, ~ emits today r e.
Proof.
  intros H e He. rewrite (visit_emits _ acc _ _ He) in H.
  injection H as H. apply (f_equal (@List.length _)) in H.
  rewrite length_app in H. cbn [List.length] in H. lia.
Qed.

Lemma for_each_listed today rs :
  forall acc out,
    for_each today acc rs = Ok out ->
    exists out', out = acc ++ out' /\ listed today rs out'.
Proof.
  induction rs as [|r rs IH]; cbn [for_each]; intros acc out H.
  - injection H as <-. exists []. rewrite app_nil_r. split; [reflexivity | constructor].
  - destruct (visit today acc r) as [acc'|] eqn:Hv; cbn [bindR] in H;
      [|discriminate].
    destruct (IH _ _ H) as (out' & -> & L).
    destruct (visit_inv _ _ _ _ Hv) as [-> | (e & He & ->)].
    + exists out'. split; [reflexivity|].
      apply listed_skip; [exact (visit_not_emitting _ _ _ Hv) | exact L].
    + exists (e :: out'). rewrite <- app_assoc. split; [reflexivity|].
      now apply listed_emit.
Qed.

(** X11.  When the query returns, its list follows the order in which the book
    holds the records: each record whose birthday is within the week gives
    one entry, the others give none, and nothing else is in the list. *)
Theorem upcoming_in_book_order today book out :
  get_upcoming_birthdays today book = Ok out ->
  listed today (values book) out /\
(List.length out <= List.length (values book))%nat /\
  (forall r, In r (values book) -> ContactRecord.birthday r = None ->
             forall e, ~ emits today r e).
Proof.
  unfold get_upcoming_birthdays. intros H.
  destruct (for_each_listed _ _ _ _ H) as (out' & -> & L). cbn [app].
  split; [exact L|]. split.
  - clear H. induction L; cbn [List.length]; lia.
  - intros r _ Hb e (b & _ & _ & Hb' & _). congruence.
Qed.

Lemma upcoming_in_book_order_witness :
  listed Example.friday (values Example.book)
         [mkentry "Alice" "2025.06.02"].
Proof.
  exact (proj1 (upcoming_in_book_order Example.friday Example.book _ eq_refl)).
Defined.

(** X12.  Every date the query gives lies from 0 to 9 days after [today]: the
    birthday is at most 7 days away and the move off a weekend adds at
    most 2. *)
Theorem congratulation_within_nine_days today book out e :
  get_upcoming_birthdays today book = Ok out ->
  In e out ->
  exists cd,
    valid cd /\ congratulation_date e = strftime_Ymd cd /\
    0 <= sub_days cd today <= 9.
Proof.
  unfold get_upcoming_birthdays. intros H He.
  destruct (for_each_inv _ _ _ _ H e He) as [[] | (r & Hr & Hem)].
  destruct Hem as (b & bty & cd & Hb & Hbty & Hd & Hcd & ->).
  destruct (congratulate_on_spec bty (birthday_this_year_valid _ _ _ Hbty))
    as (cd' & Hcd' & Vcd & _ & Hwk & Hsat & Hsun).
  rewrite Hcd in Hcd'. injection Hcd' as <-.
  exists cd. cbn [congratulation_date].
  split; [exact Vcd|]. split; [reflexivity|].
  pose proof (weekday_range bty) as W. unfold sub_days in *.
  assert (C : weekday bty < 5 \/ weekday bty = 5 \/ weekday bty = 6) by lia.
  destruct C as [C | [C | C]].
  - rewrite (Hwk C). lia.
  - rewrite (Hsat C). lia.
  - rewrite (Hsun C). lia.
Qed.

Lemma congratulation_within_nine_days_witness :
  exists cd,
    valid cd /\ "2025.06.02"%string = strftime_Ymd cd /\
    0 <= sub_days cd Example.friday <= 9.
Proof.
  apply (congratulation_within_nine_days Example.friday Example.book
           [mkentry "Alice" "2025.06.02"] (mkentry "Alice" "2025.06.02")).
  - reflexivity.
  - left. reflexivity.
Defined.

Lemma for_each_raises today rs :
  forall acc r,
    In r rs -> (forall acc', exists e, visit today acc' r = Raise e) ->
    exists e, for_each today acc rs = Raise e.
Proof.
  induction rs as [|r0 rs IH]; intros acc r Hr Hv; [destruct Hr|].
  cbn [for_each]. destruct Hr as [-> | Hr].
  - destruct (Hv acc) as [e ->]. cbn [bindR]. eauto.
  - destruct (visit today acc r0) as [acc'|e]; cbn [bindR]; [|eauto].
    exact (IH acc' r Hr Hv).
Qed.

(** X13.  In a year that is not a leap year the query raises as soon as the book
    holds a birthday on 29 February, whatever else is in the book. *)
Theorem leap_day_in_common_year_raises today book r b bd :
  valid today ->
  _is_leap (year today) = false ->
  In r (values book) ->
  ContactRecord.birthday r = Some b ->
  Strptime.strptime (value b) = Ok bd ->
  month bd = 2 -> day bd = 29 ->
  exists e, get_upcoming_birthdays today book = Raise e.
Proof.
  intros (Hy & _) L Hr Hb Hbd Hm Hd. unfold get_upcoming_birthdays.
  apply (for_each_raises today (values book) [] r Hr).
  intros acc'. unfold visit, birthday_this_year. rewrite Hb, Hbd.
  cbn [bindR]. unfold replace_year, date_new. rewrite Hm, Hd.
  unfold MINYEAR, MAXYEAR in *.
  replace ((1 <=? year today) && (year today <=? 9999)) with true
    by (symmetry; apply andb_true_iff; rewrite !Z.leb_le; lia).
  cbn [negb]. change ((1 <=? 2) && (2 <=? 12)) with true. cbn [negb].
  unfold _days_in_month. rewrite L. cbn [andb].
  change (2 =? 2) with true. cbn [andb]. table_lookup.
  change ((1 <=? 29) && (29 <=? 28)) with false. cbn [negb bindR]. eauto.
Qed.

Lemma leap_day_in_common_year_raises_witness :
  exists e, get_upcoming_birthdays Example.new_year Example.leap_book = Raise e.
Proof.
  apply (leap_day_in_common_year_raises Example.new_year Example.leap_book
           Example.lea (mkField "29.02.2020") (mkdate 2020 2 29)).
  - vm_compute. repeat split; discriminate.
  - reflexivity.
  - left. reflexivity.
  - reflexivity.
  - reflexivity.
  - reflexivity.
  - reflexivity.
Defined.

Lemma upcoming_returns_without_leap_day_witness :
  exists out, get_upcoming_birthdays Example.friday Example.book = Ok out.
Proof.
  apply upcoming_returns_without_leap_day.
  - vm_compute. repeat split; discriminate.
  - vm_compute. reflexivity.
  - intros r b [<- | [<- | []]] [= <-].
    + exists (mkdate 2020 6 1). split; [reflexivity|].
      cbn [month day]. intros [H _]. discriminate H.
    + exists (mkdate 1990 6 15). split; [reflexivity|].
      cbn [month day]. intros [H _]. discriminate H.
Defined.

End QueryMore.

(** * The commands *)

Section CommandFacts.

Import AddressBook Commands.
Local Open Scope list_scope.

Lemma run_keeps_name op self :
  ContactRecord.name (snd (run op self)) = ContactRecord.name self.
Proof.
  destruct op as [n | b | old new]; cbn [run].
  - unfold ContactRecord.add_phone, bind, eval, get, put.
    destruct (Phone.init n); reflexivity.
  - unfold ContactRecord.add_birthday, bind, eval, get, put.
    destruct (Birthday.init b); reflexivity.
  - destruct (ContactRecord.find_phone old self) as [p|] eqn:E.
    + apply find_phone_some in E. destruct E as (l1 & l2 & Hs & Hv & Hl1).
      now rewrite (edit_phone_found self old new l1 p l2 Hs Hv Hl1).
    + now rewrite (edit_phone_missing self old new (find_phone_none _ _ E)).
Qed.

Lemma add_phone_valid n self :
  Phone.validate n = true ->
  ContactRecord.add_phone n self
  = (Ok tt, ContactRecord.set_phones (ContactRecord.phones self ++ [mkField n]) self).
Proof.
  intros V. unfold ContactRecord.add_phone, bind, eval, get, put, Phone.init.
  now rewrite V.
Qed.

Lemma add_phone_invalid n self :
  Phone.validate n = false ->
  ContactRecord.add_phone n self = (Raise Phone.invalid_phone, self).
Proof.
  intros V. unfold ContactRecord.add_phone, bind, eval, Phone.init.
  now rewrite V.
Qed.

Lemma add_contact_new name phone book :
  Phone.validate phone = true -> find name book = None ->
  add_contact [name; phone] book
  = ("Contact added."%string,
     setitem name (ContactRecord.mk (mkField name) [mkField phone] None) book).
Proof.
  intros V H. unfold add_contact, input_error, add_contact_body.
  rewrite H, (add_phone_valid phone _ V). reflexivity.
Qed.

Lemma add_contact_known name phone book r :
  Phone.validate phone = true -> find name book = Some r ->
  add_contact [name; phone] book
  = ("Phone added."%string,
     setitem name
       (ContactRecord.set_phones (ContactRecord.phones r ++ [mkField phone]) r)
       book).
Proof.
  intros V H. unfold add_contact, input_error, add_contact_body, on_record.
  rewrite H, (add_phone_valid phone _ V). reflexivity.
Qed.

(** X15.  [add_contact] with a valid number.  For a name the book does not have
    the answer is "Contact added." and the book gains, in last place, a
    record of that name with this one phone and no birthday.  For a name
    it has the answer is "Phone added." and the number goes last among the
    phones of that record.  The records under other names are the same. *)
Theorem add_contact_adds name phone book :
  Phone.validate phone = true ->
  (find name book = None ->
   add_contact [name; phone] book
   = ("Contact added."%string,
      book ++ [(name, ContactRecord.mk (mkField name) [mkField phone] None)])) /\
  (forall r, find name book = Some r ->
     fst (add_contact [name; phone] book) = "Phone added."%string /\
     find name (snd (add_contact [name; phone] book))
     = Some (ContactRecord.mk (ContactRecord.name r)
               (ContactRecord.phones r ++ [mkField phone])
               (ContactRecord.birthday r)) /\
     keys (snd (add_contact [name; phone] book)) = keys book) /\
  (forall k, k <> name ->
     find k (snd (add_contact [name; phone] book)) = find k book).
Proof.
  intros V. unfold add_contact, input_error, add_contact_body, on_record.
  unfold find. split; [|split].
  - intros H. rewrite H, (add_phone_valid phone _ V).
    unfold add_record, bind, get, put. cbn [snd ContactRecord.name
      ContactRecord.init ContactRecord.set_phones value ContactRecord.phones
      ContactRecord.birthday app].
    now rewrite (setitem_absent _ _ _ H).
  - intros r H. rewrite H, (add_phone_valid phone _ V). cbn [fst snd].
    split; [reflexivity|]. split; [apply getitem_setitem_same|].
    rewrite keys_setitem. unfold contains. now rewrite H.
  - intros k Hk. destruct (getitem name book) as [r|] eqn:H.
    + rewrite (add_phone_valid phone _ V). cbn [snd].
      now apply getitem_setitem_other.
    + rewrite (add_phone_valid phone _ V).
      unfold add_record, bind, get, put. cbn [snd ContactRecord.name
        ContactRecord.init ContactRecord.set_phones value].
      now apply getitem_setitem_other.
Qed.

Lemma add_contact_adds_witness :
  add_contact ["Ann"; "1234567890"] Example.book
  = ("Contact added."%string,
     Example.book
     ++ [("Ann"%string,
          ContactRecord.mk (mkField "Ann") [mkField "1234567890"] None)]).
Proof.
  exact (proj1 (add_contact_adds "Ann" "1234567890" Example.book eq_refl)
           eq_refl).
Defined.

(** X16.  [add_contact] with a number that [Phone] refuses answers with the
    text of that refusal and leaves the book as it is: no record is made
    for a new name, and the record of a known name keeps its phones. *)
Theorem add_contact_invalid_phone name phone book :
  Phone.validate phone = false ->
  add_contact [name; phone] book
  = ("Invalid phone number format. Should start from 0 and be 10 digits"%string,
     book).
Proof.
  intros V. unfold add_contact, input_error, add_contact_body, on_record, find.
  destruct (getitem name book) as [r|] eqn:H;
    rewrite (add_phone_invalid phone _ V).
  - now rewrite (setitem_same _ _ _ H).
  - reflexivity.
Qed.

Lemma add_contact_invalid_phone_witness :
  add_contact ["Alice"; "12345"] Example.book
  = ("Invalid phone number format. Should start from 0 and be 10 digits"%string,
     Example.book).
Proof. exact (add_contact_invalid_phone "Alice" "12345" Example.book eq_refl). Defined.

(** X17.  A command given the wrong number of words answers with its reminder
    and leaves the book as it is. *)
Theorem wrong_number_of_words args book :
  (List.length args <> 2%nat ->
   add_contact args book = ("Give me name and phone please."%string, book) /\
   add_birthday args book = ("Give me name and birthday please."%string, book)) /\
  (List.length args <> 3%nat ->
   change_contact args book
   = ("Give me name, old phone and new phone please."%string, book)) /\
  (List.length args <> 1%nat ->
   show_phone args book = ("Enter user name"%string, book) /\
   show_birthday args book = ("Enter user name"%string, book)).
Proof.
  split; [|split]; intros H.
  - destruct args as [|a [|b [|c args]]]; cbn [List.length] in H;
      try (exfalso; lia); split; reflexivity.
  - destruct args as [|a [|b [|c [|d args]]]]; cbn [List.length] in H;
      try (exfalso; lia); reflexivity.
  - destruct args as [|a [|b args]]; cbn [List.length] in H;
      try (exfalso; lia); split; reflexivity.
Qed.

Lemma wrong_number_of_words_witness :
  add_contact ["Ann"] Example.book
  = ("Give me name and phone please."%string, Example.book) /\
  change_contact [] Example.book
  = ("Give me name, old phone and new phone please."%string, Example.book) /\
  show_phone ["Ann"; "Bob"] Example.book
  = ("Enter user name"%string, Example.book).
Proof.
  split; [|split].
  - apply (proj1 (wrong_number_of_words ["Ann"%string] Example.book)).
    cbn. lia.
  - apply (proj1 (proj2 (wrong_number_of_words [] Example.book))). cbn. lia.
  - apply (proj2 (proj2 (wrong_number_of_words ["Ann"; "Bob"]%string
                           Example.book))). cbn. lia.
Defined.

(** A text of printable characters without apostrophe, double quote or
    backslash is written by [repr] between two apostrophes. *)
Lemma repr_plain s :
  (forall c, In c (list_ascii_of_string s) ->
             isprintable_char c = true /\ c <> apostrophe
             /\ c <> double_quote /\ c <> backslash) ->
  repr s = String apostrophe (s ++ String apostrophe "")%string.
Proof.
  intros H. unfold repr.
  assert (Hq : has_char apostrophe s = false).
  { unfold has_char. apply not_true_is_false. intros E.
    apply existsb_exists in E. destruct E as (c & Hc & E).
    apply Ascii.eqb_eq in E. subst c. destruct (H _ Hc) as (_ & N & _).
    now apply N. }
  rewrite Hq. cbn [andb]. f_equal. f_equal.
  induction s as [|c s IH]; [reflexivity|].
  cbn [list_ascii_of_string map String.concat].
  assert (Hc : repr_char apostrophe c = String c "").
  { destruct (H c (or_introl eq_refl)) as (P & N1 & _ & N3).
    unfold repr_char.
    destruct (Ascii.eqb_spec c apostrophe); [contradiction|].
    destruct (Ascii.eqb_spec c backslash); [contradiction|]. cbn [orb].
    unfold isprintable_char in P.
    destruct (Z.eqb_spec (PyStr.ord c) 9) as [E|_];
      [rewrite E in P; discriminate P|].
    destruct (Z.eqb_spec (PyStr.ord c) 10) as [E|_];
      [rewrite E in P; discriminate P|].
    destruct (Z.eqb_spec (PyStr.ord c) 13) as [E|_];
      [rewrite E in P; discriminate P|].
    unfold isprintable_char. now rewrite P. }
  assert (IH' : String.concat "" (map (repr_char apostrophe) (list_ascii_of_string s)) = s).
  { apply IH.
    - intros c' Hc'. apply H. now right.
    - unfold has_char in *. cbn [list_ascii_of_string existsb] in Hq.
      apply orb_false_iff in Hq. tauto. }
  destruct s as [|c' s'].
  - cbn [list_ascii_of_string map String.concat]. exact Hc.
  - cbn [list_ascii_of_string map String.concat] in *.
    rewrite Hc. cbn [append]. f_equal. exact IH'.
Qed.

(** X18.  A command that needs a contact and is given a name the book does not
    have answers "Contact ... not found.", the name written as [repr]
    writes it, and leaves the book as it is. *)
Theorem unknown_contact name book :
  find name book = None ->
  (forall old new,
     change_contact [name; old; new] book
     = ("Contact " ++ repr name ++ " not found.", book)%string) /\
  show_phone [name] book = ("Contact " ++ repr name ++ " not found.", book)%string /\
  (forall b,
     add_birthday [name; b] book
     = ("Contact " ++ repr name ++ " not found.", book)%string) /\
  show_birthday [name] book
  = ("Contact " ++ repr name ++ " not found.", book)%string.
Proof.
  intros H.
  unfold change_contact, show_phone, add_birthday, show_birthday, input_error,
    change_contact_body, show_phone_body, add_birthday_body, show_birthday_body.
  rewrite H. repeat split.
Qed.

Lemma unknown_contact_witness :
  show_phone ["Ann"] Example.book = ("Contact 'Ann' not found."%string, Example.book).
Proof.
  exact (proj1 (proj2 (unknown_contact "Ann" Example.book eq_refl))).
Defined.

(** X19.  After [add_contact] with a valid number, [show_phone] for that name
    answers with the numbers the contact had before, if any, and the new
    one last, joined by "; ". *)
Theorem add_contact_then_show_phone name phone book :
  Phone.validate phone = true ->
  fst (show_phone [name] (snd (add_contact [name; phone] book)))
  = PyStr.join "; "
      (match find name book with
       | Some r => map value (ContactRecord.phones r)
       | None => []
       end ++ [phone]).
Proof.
  intros V. unfold show_phone, input_error, show_phone_body.
  destruct (find name book) as [r|] eqn:H.
  - rewrite (add_contact_known name phone book r V H). cbn [snd].
    unfold find. rewrite getitem_setitem_same.
    cbn [fst ContactRecord.phones ContactRecord.set_phones].
    now rewrite map_app.
  - rewrite (add_contact_new name phone book V H). cbn [snd].
    unfold find. rewrite getitem_setitem_same. reflexivity.
Qed.

Lemma add_contact_then_show_phone_witness :
  fst (show_phone ["Ann"]
         (snd (add_contact ["Ann"; "5555555555"] Sample.ann_book)))
  = "1234567890; 5555555555"%string.
Proof.
  exact (add_contact_then_show_phone "Ann" "5555555555" Sample.ann_book eq_refl).
Defined.

End CommandFacts.

Section CommandFacts2.

Import AddressBook Commands.
Local Open Scope list_scope.

Lemma add_birthday_valid b self :
  Birthday.validate b = Ok true ->
  ContactRecord.add_birthday b self
  = (Ok tt, ContactRecord.set_birthday (Some (mkField b)) self).
Proof.
  intros V. unfold ContactRecord.add_birthday, bind, eval, get, put, Birthday.init.
  now rewrite V.
Qed.

Lemma add_birthday_invalid b self :
  Birthday.validate b <> Ok true ->
  ContactRecord.add_birthday b self = (Raise Birthday.invalid_date, self).
Proof.
  intros V. unfold ContactRecord.add_birthday, bind, eval, Birthday.init.
  destruct (validate_total b) as [E|E]; [contradiction | now rewrite E].
Qed.

(** X20.  [add_birthday] for a contact of the book.  A text that passes the
    validation is stored, replacing the birthday there was, the answer is
    "Birthday added." and [show_birthday] then answers with that very
    text; any other text is answered with "Invalid date format. Use
    DD.MM.YYYY" and the book stays as it is. *)
Theorem add_birthday_then_show name b book r :
  find name book = Some r ->
  (Birthday.validate b = Ok true ->
   fst (add_birthday [name; b] book) = "Birthday added."%string /\
   find name (snd (add_birthday [name; b] book))
   = Some (ContactRecord.mk (ContactRecord.name r) (ContactRecord.phones r)
                            (Some (mkField b))) /\
   fst (show_birthday [name] (snd (add_birthday [name; b] book)))
   = (name ++ String apostrophe "s birthday: " ++ b)%string) /\
  (Birthday.validate b <> Ok true ->
   add_birthday [name; b] book
   = ("Invalid date format. Use DD.MM.YYYY"%string, book)).
Proof.
  intros H. unfold add_birthday, input_error, add_birthday_body, on_record.
  rewrite H. split; intros V.
  - rewrite (add_birthday_valid b r V). cbn [fst snd].
    split; [reflexivity|]. split; [apply getitem_setitem_same|].
    unfold show_birthday, input_error, show_birthday_body, find.
    rewrite getitem_setitem_same. reflexivity.
  - rewrite (add_birthday_invalid b r V). now rewrite (setitem_same _ _ _ H).
Qed.

Lemma add_birthday_then_show_witness :
  fst (show_birthday ["Bob"] (snd (add_birthday ["Bob"; "2.3.2001"] Example.book)))
  = "Bob's birthday: 2.3.2001"%string /\
  add_birthday ["Bob"; "31.04.2001"] Example.book
  = ("Invalid date format. Use DD.MM.YYYY"%string, Example.book).
Proof.
  pose proof (add_birthday_then_show "Bob" "2.3.2001" Example.book Example.bob
                eq_refl) as H1.
  pose proof (add_birthday_then_show "Bob" "31.04.2001" Example.book Example.bob
                eq_refl) as H2.
  split.
  - exact (proj2 (proj2 (proj1 H1 eq_refl))).
  - apply (proj2 H2). vm_compute. discriminate.
Defined.

(** [show_birthday] for a contact without a birthday says so. *)
Theorem show_birthday_unset name book r :
  find name book = Some r -> ContactRecord.birthday r = None ->
  show_birthday [name] book = ((name ++ " has no birthday set.")%string, book).
Proof.
  intros H Hb. unfold show_birthday, input_error, show_birthday_body.
  now rewrite H, Hb.
Qed.

(** X21.  [change_contact] for a contact of the book.  When the contact has the
    old number, its first phone equal to it takes the new text, whatever
    that text is, the other phones stay and the answer is "Phone updated.";
    when it has not, the answer is "Phone number not found" and the book
    stays as it is. *)
Theorem change_contact_edits name old new book r :
  find name book = Some r ->
  (forall l1 p l2,
     ContactRecord.phones r = l1 ++ p :: l2 -> value p = old ->
     (forall q, In q l1 -> value q <> old) ->
     fst (change_contact [name; old; new] book) = "Phone updated."%string /\
     find name (snd (change_contact [name; old; new] book))
     = Some (ContactRecord.mk (ContactRecord.name r)
               (l1 ++ mkField new :: l2) (ContactRecord.birthday r)) /\
     (forall k, k <> name ->
        find k (snd (change_contact [name; old; new] book)) = find k book)) /\
  ((forall q, In q (ContactRecord.phones r) -> value q <> old) ->
   change_contact [name; old; new] book = ("Phone number not found"%string, book)).
Proof.
  intros H. unfold change_contact, input_error, change_contact_body, on_record.
  rewrite H. split.
  - intros l1 p l2 Hs Hv Hl1.
    rewrite (edit_phone_found r old new l1 p l2 Hs Hv Hl1). cbn [fst snd].
    split; [reflexivity|]. split; [apply getitem_setitem_same|].
    intros k Hk. now apply getitem_setitem_other.
  - intros Hn. rewrite (edit_phone_missing r old new Hn).
    now rewrite (setitem_same _ _ _ H).
Qed.

Lemma change_contact_edits_witness :
  fst (change_contact ["Ann"; "1234567890"; "5555555555"] Sample.ann_book)
  = "Phone updated."%string /\
  change_contact ["Ann"; "0000000000"; "5555555555"] Sample.ann_book
  = ("Phone number not found"%string, Sample.ann_book).
Proof.
  pose proof (change_contact_edits "Ann" "1234567890" "5555555555"
                Sample.ann_book Example.ann eq_refl) as H1.
  pose proof (change_contact_edits "Ann" "0000000000" "5555555555"
                Sample.ann_book Example.ann eq_refl) as H2.
  split.
  - apply (proj1 (proj1 H1 [] (mkField "1234567890") [] eq_refl eq_refl
                    (fun q (H : In q []) => False_ind _ H))).
  - apply (proj2 H2). intros q [<- | []]. vm_compute. discriminate.
Defined.

Lemma values_setitem k v d r :
  In r (values (setitem k v d)) -> r = v \/ In r (values d).
Proof.
  unfold values. intros H. apply in_map_iff in H.
  destruct H as ([k' r'] & <- & H). apply In_setitem in H.
  destruct H as [[_ ->] | H]; [now left | right].
  exact (in_map snd _ _ H).
Qed.

Lemma getitem_value k d r : getitem k d = Some r -> In r (values d).
Proof. intros H. apply getitem_In in H. exact (in_map snd _ _ H). Qed.

Lemma keyed_setitem k v d :
  keyed d -> value (ContactRecord.name v) = k -> keyed (setitem k v d).
Proof.
  intros [N K] Hv. split; [now apply setitem_NoDup|].
  intros k' r' H. apply In_setitem in H.
  destruct H as [[-> ->] | H]; [exact Hv | exact (K _ _ H)].
Qed.

Lemma keyed_on_record op name r book :
  keyed book -> find name book = Some r ->
  keyed (setitem name (snd (run op r)) book).
Proof.
  intros K H. apply keyed_setitem; [exact K|].
  rewrite run_keeps_name. destruct K as [_ K]. apply K.
  now apply getitem_In.
Qed.

Lemma add_contact_keyed args book :
  keyed book -> keyed (snd (add_contact args book)).
Proof.
  intros K. unfold add_contact, input_error, add_contact_body, on_record.
  destruct args as [|name [|phone [|? ?]]]; try exact K.
  destruct (find name book) as [r|] eqn:H.
  - pose proof (keyed_on_record (AddPhone phone) name r book K H) as R.
    cbn [run] in R.
    destruct (ContactRecord.add_phone phone r) as [[[]|[msg|msg]] r'];
      exact R.
  - destruct (Phone.validate phone) eqn:V.
    + rewrite (add_phone_valid phone _ V).
      unfold add_record, bind, get, put. cbn [snd].
      apply keyed_setitem; [exact K | reflexivity].
    + rewrite (add_phone_invalid phone _ V). exact K.
Qed.

Lemma change_contact_keyed args book :
  keyed book -> keyed (snd (change_contact args book)).
Proof.
  intros K. unfold change_contact, input_error, change_contact_body, on_record.
  destruct args as [|name [|old [|new [|? ?]]]]; try exact K.
  destruct (find name book) as [r|] eqn:H; [|exact K].
  pose proof (keyed_on_record (EditPhone old new) name r book K H) as R.
  cbn [run] in R.
  destruct (ContactRecord.edit_phone old new r) as [[[]|[msg|msg]] r'];
    exact R.
Qed.

Lemma add_birthday_keyed args book :
  keyed book -> keyed (snd (add_birthday args book)).
Proof.
  intros K. unfold add_birthday, input_error, add_birthday_body, on_record.
  destruct args as [|name [|b [|? ?]]]; try exact K.
  destruct (find name book) as [r|] eqn:H; [|exact K].
  pose proof (keyed_on_record (AddBirthday b) name r book K H) as R.
  cbn [run] in R.
  destruct (ContactRecord.add_birthday b r) as [[[]|[msg|msg]] r'];
    exact R.
Qed.

Lemma show_phone_same args book : snd (show_phone args book) = book.
Proof.
  unfold show_phone, input_error, show_phone_body.
  destruct args as [|name [|? ?]]; try reflexivity.
  destruct (find name book); reflexivity.
Qed.

Lemma show_birthday_same args book : snd (show_birthday args book) = book.
Proof.
  unfold show_birthday, input_error, show_birthday_body.
  destruct args as [|name [|? ?]]; try reflexivity.
  destruct (find name book) as [r|]; [|reflexivity].
  destruct (ContactRecord.birthday r); reflexivity.
Qed.

Lemma birthdays_same today book : snd (birthdays today book) = book.
Proof.
  unfold birthdays, input_error, birthdays_body.
  destruct (get_upcoming_birthdays today book) as [[|e out]|[msg|msg]];
    reflexivity.
Qed.

(** X22.  The commands keep the keys of the book distinct and every record under
    its own name; the commands that only show something leave the book as
    it is. *)
Theorem commands_keep_keyed args book today :
  keyed book ->
  keyed (snd (add_contact args book)) /\
  keyed (snd (change_contact args book)) /\
  keyed (snd (add_birthday args book)) /\
  snd (show_phone args book) = book /\
  snd (show_all book) = book /\
  snd (show_birthday args book) = book /\
  snd (birthdays today book) = book.
Proof.
  intros K.
  split; [now apply add_contact_keyed|].
  split; [now apply change_contact_keyed|].
  split; [now apply add_birthday_keyed|].
  split; [apply show_phone_same|].
  split; [reflexivity|].
  split; [apply show_birthday_same | apply birthdays_same].
Qed.

Lemma commands_keep_keyed_witness :
  keyed (snd (add_contact ["Ann"; "1234567890"] [])).
Proof.
  apply (proj1 (commands_keep_keyed ["Ann"; "1234567890"]%string []
                  Example.friday
                  (conj (NoDup_nil string)
                        (fun k r (H : In (k, r) []) => False_ind _ H)))).
Defined.

(** X23.  The commands keep every stored phone and birthday valid, [add_contact]
    and [add_birthday] always, [change_contact] when the new number is
    valid. *)
Theorem commands_keep_sound args book :
  sound_book book ->
  sound_book (snd (add_contact args book)) /\
  sound_book (snd (add_birthday args book)) /\
  (forall name old new,
     args = [name; old; new] -> Phone.validate new = true ->
     sound_book (snd (change_contact args book))).
Proof.
  intros S.
  assert (R : forall a name r,
             find name book = Some r -> edits_to_valid a ->
             sound_book (setitem name (snd (perform a r)) book)).
  { intros a name r H Ha r' Hr'. apply values_setitem in Hr'.
    destruct Hr' as [-> | Hr']; [|exact (S r' Hr')].
    apply perform_keeps_sound; [|exact Ha].
    apply S. exact (getitem_value _ _ _ H). }
  split; [|split].
  - unfold add_contact, input_error, add_contact_body, on_record.
    destruct args as [|name [|phone [|? ?]]]; try exact S.
    destruct (find name book) as [r|] eqn:H.
    + specialize (R (Do (AddPhone phone)) name r H I). cbn [perform run] in R.
      destruct (ContactRecord.add_phone phone r) as [[[]|[msg|msg]] r'];
        exact R.
    + destruct (Phone.validate phone) eqn:V.
      * rewrite (add_phone_valid phone _ V).
        unfold add_record, bind, get, put. cbn [snd].
        intros r' Hr'. apply values_setitem in Hr'.
        destruct Hr' as [-> | Hr']; [|exact (S r' Hr')].
        split; [|discriminate]. cbn. intros p [<- | []]. exact V.
      * rewrite (add_phone_invalid phone _ V). exact S.
  - unfold add_birthday, input_error, add_birthday_body, on_record.
    destruct args as [|name [|b [|? ?]]]; try exact S.
    destruct (find name book) as [r|] eqn:H; [|exact S].
    specialize (R (Do (AddBirthday b)) name r H I). cbn [perform run] in R.
    destruct (ContactRecord.add_birthday b r) as [[[]|[msg|msg]] r'];
      exact R.
  - intros name old new -> V.
    unfold change_contact, input_error, change_contact_body, on_record.
    destruct (find name book) as [r|] eqn:H; [|exact S].
    specialize (R (Do (EditPhone old new)) name r H V). cbn [perform run] in R.
    destruct (ContactRecord.edit_phone old new r) as [[[]|[msg|msg]] r'];
      exact R.
Qed.

Lemma commands_keep_sound_witness :
  sound_book (snd (add_contact ["Ann"; "1234567890"] [])).
Proof.
  apply (proj1 (commands_keep_sound ["Ann"; "1234567890"]%string []
                  (fun r (H : In r (values [])) => False_ind _ H))).
Defined.

End CommandFacts2.

Section BirthdaysCommand.

Import Calendar AddressBook Commands.
Local Open Scope list_scope.

Lemma date_new_day_error y m d e :
  MINYEAR <= y <= MAXYEAR -> 1 <= m <= 12 ->
  date_new y m d = Raise e -> e = day_error.
Proof.
  intros Hy Hm. unfold date_new.
  replace ((MINYEAR <=? y) && (y <=? MAXYEAR)) with true
    by (symmetry; apply andb_true_iff; rewrite !Z.leb_le; lia).
  replace ((1 <=? m) && (m <=? 12)) with true
    by (symmetry; apply andb_true_iff; rewrite !Z.leb_le; lia).
  cbn [negb]. destruct (negb _); [now intros [= <-] | discriminate].
Qed.

Lemma birthday_this_year_error today b e :
  valid today -> year today < MAXYEAR ->
  Birthday.validate b = Ok true ->
  birthday_this_year today b = Raise e -> e = day_error.
Proof.
  intros (Hy & _) Hmax V. apply validate_true in V. destruct V as [bd V].
  pose proof V as (_ & _ & _ & _ & _ & _ & _ & (_ & Hm & _)).
  apply strptime_accepts in V.
  unfold birthday_this_year. rewrite V. cbn [bindR].
  unfold replace_year.
  destruct (date_new (year today) (month bd) (day bd)) as [d1|e1] eqn:E1;
    cbn [bindR].
  - apply date_new_inv in E1. destruct E1 as [-> _]. cbn [year month day].
    destruct (lt _ today); [|discriminate].
    apply date_new_day_error; [unfold MINYEAR, MAXYEAR in *; lia | exact Hm].
  - intros [= <-]. exact (date_new_day_error _ _ _ _ Hy Hm E1).
Qed.

Lemma visit_error today acc r e :
  valid today -> year today < MAXYEAR -> sound_record r ->
  visit today acc r = Raise e -> e = day_error.
Proof.
  intros V Hmax [_ Sb]. unfold visit.
  destruct (ContactRecord.birthday r) as [b|]; [|discriminate].
  specialize (Sb b eq_refl).
  destruct (birthday_this_year today (value b)) as [bty|e1] eqn:E1;
    cbn [bindR].
  - destruct ((0 <=? sub_days bty today) && (sub_days bty today <=? 7));
      [|discriminate].
    destruct (congratulate_on_spec bty (birthday_this_year_valid _ _ _ E1))
      as (cd & -> & _). discriminate.
  - intros [= <-]. exact (birthday_this_year_error _ _ _ V Hmax Sb E1).
Qed.

Lemma for_each_error today rs :
  valid today -> year today < MAXYEAR ->
  (forall r, In r rs -> sound_record r) ->
  forall acc e, for_each today acc rs = Raise e -> e = day_error.
Proof.
  intros V Hmax. induction rs as [|r rs IH]; intros S acc e; cbn [for_each];
    [discriminate|].
  destruct (visit today acc r) as [acc'|e1] eqn:E1; cbn [bindR].
  - apply IH. intros r' Hr'. apply S. now right.
  - intros [= <-]. apply (visit_error _ _ _ _ V Hmax (S r (or_introl eq_refl)) E1).
Qed.

(** X24.  What the command [birthdays] answers on a day before year 9999, the
    phones and birthdays of the book being valid.  When the query gives an
    empty list: "No upcoming birthdays in the next week."; when it gives
    entries: one line "name: date" for each, in the order of the list;
    when it raises, which a birthday on 29 February brings about: the bare
    text "day is out of range for month" and no birthday at all. *)
Theorem birthdays_answers today book :
  valid today -> year today < MAXYEAR -> sound_book book ->
  (get_upcoming_birthdays today book = Ok [] ->
   fst (birthdays today book) = "No upcoming birthdays in the next week."%string) /\
  (forall e out,
     get_upcoming_birthdays today book = Ok (e :: out) ->
     fst (birthdays today book)
     = PyStr.join newline (map birthday_line (e :: out))) /\
  (forall e,
     get_upcoming_birthdays today book = Raise e ->
     fst (birthdays today book) = "day is out of range for month"%string).
Proof.
  intros V Hmax S. unfold birthdays, input_error, birthdays_body.
  split; [|split].
  - now intros ->.
  - now intros e out ->.
  - intros e H. rewrite H.
    unfold get_upcoming_birthdays in H.
    now rewrite (for_each_error today _ V Hmax S _ _ H).
Qed.

Lemma birthdays_answers_witness :
  fst (birthdays Example.new_year Example.leap_book)
  = "day is out of range for month"%string /\
  fst (birthdays Example.friday Example.book) = "Alice: 2025.06.02"%string.
Proof.
  assert (V1 : valid Example.new_year) by (vm_compute; repeat split; discriminate).
  assert (V2 : valid Example.friday) by (vm_compute; repeat split; discriminate).
  assert (S1 : sound_book Example.leap_book).
  { intros r [<- | []]. split; [intros p [] | now intros b [= <-]]. }
  assert (S2 : sound_book Example.book).
  { intros r [<- | [<- | []]]; (split; [intros p [] | now intros b [= <-]]). }
  split.
  - exact (proj2 (proj2 (birthdays_answers Example.new_year Example.leap_book
                           V1 eq_refl S1))
             (ValueError "day is out of range for month") eq_refl).
  - exact (proj1 (proj2 (birthdays_answers Example.friday Example.book
                           V2 eq_refl S2))
             (mkentry "Alice" "2025.06.02") [] eq_refl).
Defined.

End BirthdaysCommand.

(** * The console *)

Section ConsoleFacts.

Import AddressBook Commands Console.
Local Open Scope list_scope.

Lemma rest_of_refl w : rest_of w w.
Proof. now exists []. Qed.

Lemma rest_of_trans w1 w2 w3 : rest_of w1 w2 -> rest_of w2 w3 -> rest_of w1 w3.
Proof.
  intros [r1 H1] [r2 H2]. exists (r1 ++ r2). now rewrite H1, H2, app_assoc.
Qed.

Lemma rest_of_In w w' l : rest_of w w' -> In l (stdin w') -> In l (stdin w).
Proof. intros [r ->] H. apply in_or_app. now right. Qed.

Lemma rest_of_length w w' :
  rest_of w w' -> (List.length (stdin w') <= List.length (stdin w))%nat.
Proof. intros [r ->]. rewrite length_app. lia. Qed.

Lemma print_stdin text w : stdin (print text w) = stdin w.
Proof. reflexivity. Qed.

Lemma display_contacts_stdin book w : stdin (display_contacts book w) = stdin w.
Proof.
  unfold display_contacts. revert w.
  induction (values book) as [|r rs IH]; intros w; cbn [fold_left];
    [reflexivity | now rewrite IH].
Qed.

Lemma display_commands_stdin w : stdin (display_commands w) = stdin w.
Proof. reflexivity. Qed.

Lemma input_some prompt w line w1 :
  input prompt w = (Some line, w1) ->
  stdin w = line :: stdin w1.
Proof.
  unfold input. destruct (stdin w) as [|l rest]; [discriminate|].
  now intros [= -> <-].
Qed.

Lemma input_rest prompt w a w1 : input prompt w = (a, w1) -> rest_of w w1.
Proof.
  unfold input. destruct (stdin w) as [|l rest] eqn:E; intros [= <- <-].
  - exists []. now rewrite E.
  - exists [l]. now rewrite E.
Qed.

Lemma ask1_rest p1 command book w a w' :
  ask1 p1 command book w = (a, w') -> rest_of w w'.
Proof.
  unfold ask1. destruct (input p1 w) as [[a1|] w1] eqn:E1; intros [= <- <-];
    exact (input_rest _ _ _ _ E1).
Qed.

Lemma ask2_rest p1 p2 command book w a w' :
  ask2 p1 p2 command book w = (a, w') -> rest_of w w'.
Proof.
  unfold ask2. destruct (input p1 w) as [[a1|] w1] eqn:E1;
    [|intros [= <- <-]; exact (input_rest _ _ _ _ E1)].
  destruct (input p2 w1) as [[a2|] w2] eqn:E2; intros [= <- <-];
    exact (rest_of_trans _ _ _ (input_rest _ _ _ _ E1) (input_rest _ _ _ _ E2)).
Qed.

Lemma ask3_rest p1 p2 p3 command book w a w' :
  ask3 p1 p2 p3 command book w = (a, w') -> rest_of w w'.
Proof.
  unfold ask3. destruct (input p1 w) as [[a1|] w1] eqn:E1;
    [|intros [= <- <-]; exact (input_rest _ _ _ _ E1)].
  destruct (input p2 w1) as [[a2|] w2] eqn:E2;
    [|intros [= <- <-];
      exact (rest_of_trans _ _ _ (input_rest _ _ _ _ E1) (input_rest _ _ _ _ E2))].
  destruct (input p3 w2) as [[a3|] w3] eqn:E3; intros [= <- <-];
    exact (rest_of_trans _ _ _ (input_rest _ _ _ _ E1)
             (rest_of_trans _ _ _ (input_rest _ _ _ _ E2)
                (input_rest _ _ _ _ E3))).
Qed.

(** What the methods behind the words do: they read on, and they leave a
    keyed book keyed. *)
Lemma method_of_spec today command m book w a w' :
  method_of today command = Some m ->
  m book w = (a, w') ->
  rest_of w w' /\
  (forall result book', a = Some (result, book') -> keyed book -> keyed book').
Proof.
  unfold method_of.
  repeat match goal with
         | |- context [if ?b then _ else _] => destruct b
         end; intros [= <-] H.
  - split; [exact (ask2_rest _ _ _ _ _ _ _ H)|].
    intros result book' -> K. unfold add_contact_interface, ask2 in H.
    destruct (input _ w) as [[a1|] w1]; [|discriminate].
    destruct (input _ w1) as [[a2|] w2]; [|discriminate].
    injection H as H _. apply (f_equal snd) in H. cbn [snd] in H. subst book'.
    now apply add_contact_keyed.
  - split; [exact (ask3_rest _ _ _ _ _ _ _ _ H)|].
    intros result book' -> K. unfold change_contact_interface, ask3 in H.
    destruct (input _ w) as [[a1|] w1]; [|discriminate].
    destruct (input _ w1) as [[a2|] w2]; [|discriminate].
    destruct (input _ w2) as [[a3|] w3]; [|discriminate].
    injection H as H _. apply (f_equal snd) in H. cbn [snd] in H. subst book'.
    now apply change_contact_keyed.
  - split; [exact (ask1_rest _ _ _ _ _ _ H)|].
    intros result book' -> K. unfold show_phone_interface, ask1 in H.
    destruct (input _ w) as [[a1|] w1]; [|discriminate].
    injection H as H _. apply (f_equal snd) in H. cbn [snd] in H. subst book'.
    now rewrite show_phone_same.
  - split; [exact (ask2_rest _ _ _ _ _ _ _ H)|].
    intros result book' -> K. unfold add_birthday_interface, ask2 in H.
    destruct (input _ w) as [[a1|] w1]; [|discriminate].
    destruct (input _ w1) as [[a2|] w2]; [|discriminate].
    injection H as H _. apply (f_equal snd) in H. cbn [snd] in H. subst book'.
    now apply add_birthday_keyed.
  - split; [exact (ask1_rest _ _ _ _ _ _ H)|].
    intros result book' -> K. unfold show_birthday_interface, ask1 in H.
    destruct (input _ w) as [[a1|] w1]; [|discriminate].
    injection H as H _. apply (f_equal snd) in H. cbn [snd] in H. subst book'.
    now rewrite show_birthday_same.
  - unfold show_upcoming_birthdays_interface in H. injection H as <- <-.
    split; [apply rest_of_refl|].
    intros result book' [= E] K. apply (f_equal snd) in E. cbn [snd] in E.
    subst book'. now rewrite birthdays_same.
Qed.

(** One round of the loop: it stops for want of a line, or it stops on a
    word that quits and hands over the book, or it goes on with the lines
    that are left and a book that is keyed if the book was. *)
Lemma loop_round rounds today book w :
  match input "Enter a command: " w with
  | (None, _) => fst (loop (S rounds) today book w) = Interrupted
  | (Some command, w1) =>
      if is_quit (strip (lower command)) then
        loop (S rounds) today book w = (Saved book, print "Good bye!" w1)
      else
        fst (loop (S rounds) today book w) = Interrupted \/
        exists book' w',
          loop (S rounds) today book w = loop rounds today book' w' /\
          rest_of w1 w' /\ (keyed book -> keyed book')
  end.
Proof.
  cbn [loop].
  destruct (input "Enter a command: " w) as [[command|] w1] eqn:E1;
    [|reflexivity].
  cbv zeta.
  destruct (is_quit (strip (lower command))) eqn:Q; [reflexivity|].
  destruct (strip (lower command) =? "hello")%string.
  { right. eexists _, _. split; [reflexivity|]. split; [now exists [] | auto]. }
  destruct (strip (lower command) =? "all")%string.
  { right. eexists _, _. split; [reflexivity|].
    split; [exists []; now rewrite display_contacts_stdin | auto]. }
  destruct (strip (lower command) =? "help")%string.
  { right. eexists _, _. split; [reflexivity|]. split; [now exists [] | auto]. }
  destruct (method_of today (strip (lower command))) as [m|] eqn:M.
  - destruct (m book w1) as [[[result book']|] w2] eqn:E2; [|now left].
    destruct (method_of_spec _ _ _ _ _ _ _ M E2) as [R K].
    right. eexists _, _. split; [reflexivity|]. split.
    + destruct R as [read R]. exists read. exact R.
    + exact (K result book' eq_refl).
  - right. eexists _, _. split; [reflexivity|]. split; [now exists [] | auto].
Qed.

(** With more rounds than lines the loop is never cut short. *)
Lemma loop_finishes today :
  forall rounds book w,
    (List.length (stdin w) < rounds)%nat ->
    fst (loop rounds today book w) <> Unfinished.
Proof.
  induction rounds as [|rounds IH]; intros book w Hr; [lia|].
  pose proof (loop_round rounds today book w) as R.
  destruct (input "Enter a command: " w) as [[command|] w1] eqn:E1.
  - pose proof (input_some _ _ _ _ E1) as Hs.
    destruct (is_quit (strip (lower command))).
    + rewrite R. discriminate.
    + destruct R as [-> | (book' & w' & -> & Rw & _)]; [discriminate|].
      apply IH. pose proof (rest_of_length _ _ Rw).
      rewrite Hs in Hr. cbn [List.length] in Hr. lia.
  - rewrite R. discriminate.
Qed.

Lemma loop_not_saved today :
  forall rounds book w,
    (forall l, In l (stdin w) -> is_quit (strip (lower l)) = false) ->
    forall saved, fst (loop rounds today book w) <> Saved saved.
Proof.
  induction rounds as [|rounds IH]; intros book w H saved; [discriminate|].
  pose proof (loop_round rounds today book w) as R.
  destruct (input "Enter a command: " w) as [[command|] w1] eqn:E1.
  - pose proof (input_some _ _ _ _ E1) as Hs.
    rewrite (H command) in R by (rewrite Hs; now left).
    destruct R as [-> | (book' & w' & -> & Rw & _)]; [discriminate|].
    apply IH. intros l Hl. apply H. rewrite Hs. right.
    exact (rest_of_In _ _ _ Rw Hl).
  - rewrite R. discriminate.
Qed.

Lemma loop_keyed today :
  forall rounds book w saved w',
    loop rounds today book w = (Saved saved, w') ->
    keyed book -> keyed saved.
Proof.
  induction rounds as [|rounds IH]; intros book w saved w' H K; [discriminate|].
  pose proof (loop_round rounds today book w) as R.
  destruct (input "Enter a command: " w) as [[command|] w1] eqn:E1.
  - destruct (is_quit (strip (lower command))).
    + rewrite R in H. now injection H as <- _.
    + destruct R as [R | (book' & w2 & R & _ & K')].
      * rewrite H in R. discriminate R.
      * rewrite R in H. exact (IH _ _ _ _ H (K' K)).
  - rewrite H in R. discriminate R.
Qed.

(** X25.  A run of [main] ends in one of two ways, by the word that quits or by
    the end of the lines, and it saves the book only in the first: when no
    line typed is "close" or "exit", capitals and the blanks around set
    aside, the run ends by [EOFError] and nothing is saved, whatever was
    added or changed. *)
Theorem nothing_saved_without_quit today loaded lines :
  fst (main today loaded lines) <> Unfinished /\
  ((forall l, In l lines -> is_quit (strip (lower l)) = false) ->
   fst (main today loaded lines) = Interrupted).
Proof.
  unfold main. split.
  - apply loop_finishes. cbn [print stdin]. lia.
  - intros H.
    pose proof (loop_finishes today (S (List.length lines)) loaded
                  (print "Welcome to the assistant bot!" (mkio lines []))
                  ltac:(cbn [print stdin]; lia)) as F.
    pose proof (loop_not_saved today (S (List.length lines)) loaded
                  (print "Welcome to the assistant bot!" (mkio lines [])) H) as N.
    destruct (fst (loop _ today loaded _)) as [saved| |];
      [exfalso; exact (N saved eq_refl) | reflexivity | contradiction].
Qed.

Lemma nothing_saved_without_quit_witness :
  fst (main Example.friday [] ["add"; "Ann"; "1234567890"; "all"]) = Interrupted.
Proof.
  apply (proj2 (nothing_saved_without_quit Example.friday []
                  ["add"; "Ann"; "1234567890"; "all"]%string)).
  intros l [<- | [<- | [<- | [<- | []]]]]; reflexivity.
Defined.

(** X26.  The book a run saves has distinct keys and every record under its own
    name when the book it loaded had. *)
Theorem saved_book_is_keyed today loaded lines saved w :
  main today loaded lines = (Saved saved, w) ->
  keyed loaded -> keyed saved.
Proof. unfold main. apply loop_keyed. Qed.

Lemma saved_book_is_keyed_witness :
  keyed [("Ann"%string,
          ContactRecord.mk (mkField "Ann") [mkField "1234567890"] None)].
Proof.
  apply (saved_book_is_keyed Example.friday []
           ["add"; "Ann"; "1234567890"; "exit"]%string _
           (snd (main Example.friday [] ["add"; "Ann"; "1234567890"; "exit"]))).
  - reflexivity.
  - split; [constructor | intros k r []].
Defined.

End ConsoleFacts.

Section CommandWords.

Import Console.
Local Open Scope list_scope.

Lemma lower_char_idem c : lower_char (lower_char c) = lower_char c.
Proof. destruct c as [[] [] [] [] [] [] [] []]; reflexivity. Qed.

Lemma lower_char_space c : Strptime.is_space (lower_char c) = Strptime.is_space c.
Proof. destruct c as [[] [] [] [] [] [] [] []]; reflexivity. Qed.

Lemma lower_idem s : lower (lower s) = lower s.
Proof.
  induction s as [|c s IH]; cbn [lower]; [reflexivity|].
  now rewrite lower_char_idem, IH.
Qed.

Lemma lower_lstrip s : lower (Strptime.lstrip s) = Strptime.lstrip (lower s).
Proof.
  induction s as [|c s IH]; cbn [lower Strptime.lstrip]; [reflexivity|].
  rewrite lower_char_space. destruct (Strptime.is_space c); [exact IH | reflexivity].
Qed.

Lemma rstrip_cons c s :
  rstrip (String c s)
  = match rstrip s with
    | EmptyString => if Strptime.is_space c then "" else String c ""
    | String a b => String c (String a b)
    end.
Proof. reflexivity. Qed.

Lemma lower_rstrip s : lower (rstrip s) = rstrip (lower s).
Proof.
  induction s as [|c s IH]; [reflexivity|].
  cbn [lower]. rewrite !rstrip_cons, <- IH, lower_char_space.
  destruct (rstrip s) as [|c' r]; cbn [lower].
  - destruct (Strptime.is_space c); reflexivity.
  - reflexivity.
Qed.

Lemma rstrip_idem s : rstrip (rstrip s) = rstrip s.
Proof.
  induction s as [|c s IH]; [reflexivity|].
  rewrite rstrip_cons. destruct (rstrip s) as [|c' r] eqn:E.
  - destruct (Strptime.is_space c) eqn:Sp; [reflexivity|].
    rewrite rstrip_cons. cbn [rstrip]. now rewrite Sp.
  - rewrite rstrip_cons, IH. reflexivity.
Qed.

Lemma lstrip_clean s : clean_start (Strptime.lstrip s).
Proof.
  induction s as [|c s IH]; cbn [Strptime.lstrip]; [exact I|].
  destruct (Strptime.is_space c) eqn:E; [exact IH | exact E].
Qed.

Lemma rstrip_clean s : clean_start s -> clean_start (rstrip s).
Proof.
  destruct s as [|c s]; [trivial|]. rewrite rstrip_cons. cbn [clean_start].
  intros H. destruct (rstrip s); [rewrite H|]; exact H.
Qed.

Lemma lstrip_of_clean s : clean_start s -> Strptime.lstrip s = s.
Proof.
  destruct s as [|c s]; cbn [clean_start Strptime.lstrip]; [trivial|].
  now intros ->.
Qed.

Lemma strip_idem s : strip (strip s) = strip s.
Proof.
  unfold strip.
  rewrite (lstrip_of_clean _ (rstrip_clean _ (lstrip_clean s))).
  apply rstrip_idem.
Qed.

Lemma word_idem s : strip (lower (strip (lower s))) = strip (lower s).
Proof.
  unfold strip at 2. rewrite lower_rstrip, lower_lstrip, lower_idem.
  fold (strip (lower s)). apply strip_idem.
Qed.

(** X27.  The loop reads a command without regard to capitals and to blanks
    before and after it: a round that starts on a line goes as the round
    that starts on that line in small letters and trimmed. *)
Theorem command_word_is_normalised rounds today book line rest out :
  loop (S rounds) today book (mkio (line :: rest) out)
  = loop (S rounds) today book (mkio (strip (lower line) :: rest) out).
Proof.
  cbn [loop]. unfold input. cbn [stdin stdout]. cbv zeta.
  now rewrite word_idem.
Qed.

End CommandWords.
